(** * The T-rex runner: a shallow embedding of the game core of [src/index.js]

    The embedding follows the JavaScript source function by function.
    JavaScript numbers are modelled as rationals ([Q]) and arithmetic on
    them is exact, but for the scroll step of an obstacle
    ([Obstacle.update]) and the gap behind it ([Obstacle.getGap]): there
    every operation is rounded to the nearest binary64 double, as the
    machine rounds it ([JS.round64]), for the rounding changes the
    number of pixels.  The growth of the speed on doubles is treated in
    module [Double]; the increment of the horizon line is left on exact
    rationals.  Objects are records, methods
    are functions from the receiver to the updated receiver, and the two
    sources of non-determinism of the page — [Math.random()] and the
    clock read by [getTimeStamp()] — are streams threaded through a small
    state monad.  Canvas drawing, DOM manipulation, sound and the Telegram
    bridge have no effect on the game state and are left out. *)

From Stdlib Require Import QArith Qround Qpower ZArith List Bool String Ascii.
From Stdlib Require Import Lia Lqa DecimalString Floats.
Close Scope float_scope.
Import ListNotations.
Open Scope Q_scope.

(** ** JavaScript numbers and [Math] *)

Module JS.

Definition ltb (a b : Q) : bool := negb (Qle_bool b a).
Definition gtb (a b : Q) : bool := ltb b a.
Definition leb (a b : Q) : bool := Qle_bool a b.
Definition geb (a b : Q) : bool := Qle_bool b a.
Definition eqb (a b : Q) : bool := Qeq_bool a b.

(** [if (n)] on a number: every number but zero is truthy. *)
Definition truthy (a : Q) : bool := negb (Qeq_bool a 0).

(** [if (o.field)] on an optional numeric field ([undefined] is falsy). *)
Definition truthy_opt (a : option Q) : bool :=
  match a with Some q => truthy q | None => false end.

Definition Math_floor (a : Q) : Q := inject_Z (Qfloor a).
Definition Math_ceil (a : Q) : Q := inject_Z (Qceiling a).

(** [Math.round] rounds to the nearest integer, halves towards +infinity. *)
Definition Math_round (a : Q) : Q := inject_Z (Qfloor (a + (1 # 2))).

Definition Math_min (a b : Q) : Q := if Qle_bool a b then a else b.

(** [a % b] for a non-negative integer [a] and a positive integer [b]. *)
Definition rem (a b : Q) : Q := inject_Z (Z.rem (Qfloor a) (Qfloor b)).

(** *** Arithmetic as the machine rounds it

    A JavaScript number is a binary64 double: 53 significant bits, the
    exponent of the last bit no lower than -1074.  [round64 q] is the
    double nearest to the rational [q], a tie going to the double whose
    last bit is 0.  (Results beyond the largest double, which the game
    does not reach, are not turned into [Infinity].)  A literal of the
    source that is an operand of such an operation and is not a double
    itself stands for the double nearest to it: [round64 0.6] for the
    gap coefficient, [round64 0.8] for the speed offset. *)
Definition pow2 (e : Z) : Q := (2 # 1) ^ e.

(** The exponent [e] of a positive rational: [pow2 e <= q < pow2 (e + 1)]. *)
Definition exponent (q : Q) : Z :=
  let k := (Z.log2 (Qnum q) - Z.log2 (Zpos (Qden q)))%Z in
  if Qle_bool (pow2 k) q then k else (k - 1)%Z.

(** The nearest integer, a tie going to the even one. *)
Definition nearest_even (q : Q) : Z :=
  let f := Qfloor q in
  let r := q - inject_Z f in
  if Qle_bool r (1 # 2)
  then (if Qeq_bool r (1 # 2) then (if Z.even f then f else f + 1) else f)%Z
  else (f + 1)%Z.

(** Rounding of a positive rational: [p] is the exponent of the last of
    the 53 bits, held at -1074 for the subnormal numbers. *)
Definition round64_pos (q : Q) : Q :=
  let p := (Z.max (exponent q) (-1022) - 52)%Z in
  inject_Z (nearest_even (q / pow2 p)) * pow2 p.

Definition round64 (q : Q) : Q :=
  if Qle_bool q 0
  then (if Qeq_bool q 0 then 0 else - round64_pos (- q))
  else round64_pos q.

(** [a + b], [a * b] and [a / b] on doubles. *)
Definition add (a b : Q) : Q := round64 (a + b).
Definition mul (a b : Q) : Q := round64 (a * b).
Definition div (a b : Q) : Q := round64 (a / b).

End JS.

(** ** The page: random numbers and the clock *)

(** [random k] is the value of the [k]-th call of [Math.random()] and
    [clock k] the value of the [k]-th call of [getTimeStamp()]. *)
Record World := mkWorld {
  random : nat -> Q;
  random_calls : nat;
  clock : nat -> Q;
  clock_calls : nat
}.

Definition IO (A : Type) : Type := World -> A * World.

Definition ret {A} (a : A) : IO A := fun w => (a, w).

Definition bind {A B} (m : IO A) (f : A -> IO B) : IO B :=
  fun w => let (a, w') := m w in f a w'.

Declare Scope io_scope.
Delimit Scope io_scope with io.
Notation "x <- m ;; k" := (bind m (fun x => k))
  (at level 61, m at next level, right associativity) : io_scope.
Notation "m ;;; k" := (bind m (fun _ => k))
  (at level 61, right associativity) : io_scope.
Open Scope io_scope.

(** [Math.random()] returns a number in [[0, 1)].  Any rational stream
    gives such a sequence through its fractional parts, and a stream with
    values in [[0, 1)] gives itself, so that the streams range over all
    the behaviours of [Math.random()]. *)
Definition Math_random : IO Q := fun w =>
  let q := random w (random_calls w) in
  (q - JS.Math_floor q,
   mkWorld (random w) (S (random_calls w)) (clock w) (clock_calls w)).

Definition getTimeStamp : IO Q := fun w =>
  (clock w (clock_calls w),
   mkWorld (random w) (random_calls w) (clock w) (S (clock_calls w))).

(** [function getRandomNum(min, max)] *)
Definition getRandomNum (min max : Q) : IO Q :=
  r <- Math_random ;;
  ret (JS.Math_floor (r * (max - min + 1)) + min).

(** ** Global constants *)

Definition DEFAULT_WIDTH : Q := 600.
Definition FPS : Q := 60.

(** [a[i]] for an index that is a JavaScript number; [undefined] is [None]. *)
Definition at_index {A} (l : list A) (i : Q) : option A :=
  if Qeq_bool i (JS.Math_floor i) && Qle_bool 0 i
  then nth_error l (Z.to_nat (Qfloor i)) else None.

(** ** [CollisionBox] *)

Module CollisionBox.

Record t := new { x : Q; y : Q; width : Q; height : Q }.

Definition set_x (b : t) (v : Q) : t := new v (y b) (width b) (height b).
Definition set_width (b : t) (v : Q) : t := new (x b) (y b) v (height b).

End CollisionBox.

(** ** [Runner.config] and [Runner.defaultDimensions] *)

Module RunnerConfig.

Record t := mk {
  ACCELERATION : Q;
  BG_CLOUD_SPEED : Q;
  BOTTOM_PAD : Q;
  CLEAR_TIME : Q;
  CLOUD_FREQUENCY : Q;
  GAMEOVER_CLEAR_TIME : Q;
  GAP_COEFFICIENT : Q;
  GRAVITY : Q;
  INITIAL_JUMP_VELOCITY : Q;
  INVERT_FADE_DURATION : Q;
  INVERT_DISTANCE : Q;
  MAX_BLINK_COUNT : Q;
  MAX_CLOUDS : Q;
  MAX_OBSTACLE_LENGTH : Q;
  MAX_OBSTACLE_DUPLICATION : nat;
  MAX_SPEED : Q;
  MIN_JUMP_HEIGHT : Q;
  MOBILE_SPEED_COEFFICIENT : Q;
  SPEED : Q;
  SPEED_DROP_COEFFICIENT : Q
}.

(** The literal [Runner.config] of the source. *)
Definition default : t := {|
  ACCELERATION := 0.001;
  BG_CLOUD_SPEED := 0.2;
  BOTTOM_PAD := 10;
  CLEAR_TIME := 3000;
  CLOUD_FREQUENCY := 0.5;
  GAMEOVER_CLEAR_TIME := 750;
  GAP_COEFFICIENT := JS.round64 0.6;
  GRAVITY := 0.6;
  INITIAL_JUMP_VELOCITY := 12;
  INVERT_FADE_DURATION := 12000;
  INVERT_DISTANCE := 700;
  MAX_BLINK_COUNT := 3;
  MAX_CLOUDS := 6;
  MAX_OBSTACLE_LENGTH := 3;
  MAX_OBSTACLE_DUPLICATION := 2%nat;
  MAX_SPEED := 13;
  MIN_JUMP_HEIGHT := 35;
  MOBILE_SPEED_COEFFICIENT := 1.2;
  SPEED := 6;
  SPEED_DROP_COEFFICIENT := 3
|}.

End RunnerConfig.

Definition defaultDimensions_HEIGHT : Q := 150.

(** ** Obstacles *)

(** The entries of [Obstacle.types]. *)
Module ObstacleType.

Record t := mk {
  type : string;
  width : Q;
  height : Q;
  (** [yPos] is a number, or an array for obstacles of variable height. *)
  yPos : Q + list Q;
  yPosMobile : list Q;
  multipleSpeed : Q;
  minGap : Q;
  minSpeed : Q;
  collisionBoxes : list CollisionBox.t;
  numFrames : option Q;
  frameRate : option Q;
  speedOffset : option Q
}.

End ObstacleType.

Module Obstacle.

Record t := mk {
  typeConfig : ObstacleType.t;
  gapCoefficient : Q;
  size : Q;
  dimensions_WIDTH : Q;
  remove : bool;
  xPos : Q;
  yPos : Q;
  width : Q;
  collisionBoxes : list CollisionBox.t;
  gap : Q;
  speedOffset : Q;
  currentFrame : Q;
  timer : Q;
  followingObstacleCreated : bool
}.

Definition MAX_GAP_COEFFICIENT : Q := 1.5.
Definition MAX_OBSTACLE_LENGTH : Q := 3.

(** [Obstacle.types] *)
Definition types : list ObstacleType.t := [
  {| ObstacleType.type := "CACTUS_SMALL";
     ObstacleType.width := 17;
     ObstacleType.height := 35;
     ObstacleType.yPos := inl 105;
     ObstacleType.yPosMobile := [];
     ObstacleType.multipleSpeed := 4;
     ObstacleType.minGap := 120;
     ObstacleType.minSpeed := 0;
     ObstacleType.collisionBoxes := [
       CollisionBox.new 0 7 5 27;
       CollisionBox.new 4 0 6 34;
       CollisionBox.new 10 4 7 14 ];
     ObstacleType.numFrames := None;
     ObstacleType.frameRate := None;
     ObstacleType.speedOffset := None |};
  {| ObstacleType.type := "CACTUS_LARGE";
     ObstacleType.width := 25;
     ObstacleType.height := 50;
     ObstacleType.yPos := inl 90;
     ObstacleType.yPosMobile := [];
     ObstacleType.multipleSpeed := 7;
     ObstacleType.minGap := 120;
     ObstacleType.minSpeed := 0;
     ObstacleType.collisionBoxes := [
       CollisionBox.new 0 12 7 38;
       CollisionBox.new 8 0 7 49;
       CollisionBox.new 13 10 10 38 ];
     ObstacleType.numFrames := None;
     ObstacleType.frameRate := None;
     ObstacleType.speedOffset := None |};
  {| ObstacleType.type := "PTERODACTYL";
     ObstacleType.width := 46;
     ObstacleType.height := 40;
     ObstacleType.yPos := inr [100; 75; 50];
     ObstacleType.yPosMobile := [100; 50];
     ObstacleType.multipleSpeed := 999;
     ObstacleType.minGap := 150;
     ObstacleType.minSpeed := 8.5;
     ObstacleType.collisionBoxes := [
       CollisionBox.new 15 15 16 5;
       CollisionBox.new 18 21 24 6;
       CollisionBox.new 2 14 4 3;
       CollisionBox.new 6 10 4 7;
       CollisionBox.new 10 8 6 9 ];
     ObstacleType.numFrames := Some 2;
     ObstacleType.frameRate := Some (1000 / 6);
     ObstacleType.speedOffset := Some (JS.round64 0.8) |} ].

(** [cloneCollisionBoxes]: a fresh copy of the boxes of the type. *)
Definition cloneCollisionBoxes (o : t) : list CollisionBox.t :=
  map (fun b => CollisionBox.new (CollisionBox.x b) (CollisionBox.y b)
                  (CollisionBox.width b) (CollisionBox.height b))
      (ObstacleType.collisionBoxes (typeConfig o)).

(** The adjustment of [init] for grouped obstacles: the middle box is
    stretched and the third box moved to the right end.  The source
    indexes boxes 0, 1 and 2, which every entry of the table has. *)
Definition adjustCollisionBoxes (w : Q) (bs : list CollisionBox.t)
  : list CollisionBox.t :=
  match bs with
  | b0 :: b1 :: b2 :: rest =>
      b0 :: CollisionBox.set_width b1
              (w - CollisionBox.width b0 - CollisionBox.width b2)
         :: CollisionBox.set_x b2 (w - CollisionBox.width b2)
         :: rest
  | _ => bs
  end.

(** [getGap]; [w] is [this.width] and [tc] is [this.typeConfig]. *)
Definition minGapOf (w : Q) (tc : ObstacleType.t) (gapCoefficient speed : Q) : Q :=
  JS.Math_round
    (JS.add (JS.mul w speed) (JS.mul (ObstacleType.minGap tc) gapCoefficient)).

Definition maxGapOf (minGap : Q) : Q :=
  JS.Math_round (JS.mul minGap MAX_GAP_COEFFICIENT).

Definition getGap (o : t) (gapCoefficient speed : Q) : IO Q :=
  let minGap := minGapOf (width o) (typeConfig o) gapCoefficient speed in
  let maxGap := maxGapOf minGap in
  getRandomNum minGap maxGap.

(** [init(speed)] *)
Definition init (IS_MOBILE : bool) (speed : Q) (o : t) : IO t :=
  let boxes := cloneCollisionBoxes o in
  let tc := typeConfig o in
  let size' :=
    if JS.gtb (size o) 1 && JS.gtb (ObstacleType.multipleSpeed tc) speed
    then 1 else size o in
  let width' := ObstacleType.width tc * size' in
  yPos' <- match ObstacleType.yPos tc with
           | inr ys =>
               let yPosConfig :=
                 if IS_MOBILE then ObstacleType.yPosMobile tc else ys in
               i <- getRandomNum 0 (inject_Z (Z.of_nat (List.length yPosConfig)) - 1) ;;
               ret (match at_index yPosConfig i with Some v => v | None => 0 end)
           | inl v => ret v
           end ;;
  let boxes' :=
    if JS.gtb size' 1 then adjustCollisionBoxes width' boxes else boxes in
  speedOffset' <- (if JS.truthy_opt (ObstacleType.speedOffset tc)
                   then r <- Math_random ;;
                        let so := match ObstacleType.speedOffset tc with
                                  | Some v => v | None => 0 end in
                        ret (if JS.gtb r 0.5 then so else - so)
                   else ret (speedOffset o)) ;;
  let o' := mk tc (gapCoefficient o) size' (dimensions_WIDTH o) (remove o)
               (xPos o) yPos' width' boxes' (gap o) speedOffset'
               (currentFrame o) (timer o) (followingObstacleCreated o) in
  g <- getGap o' (gapCoefficient o') speed ;;
  ret (mk tc (gapCoefficient o') size' (dimensions_WIDTH o') (remove o')
          (xPos o') yPos' width' boxes' g speedOffset'
          (currentFrame o') (timer o') (followingObstacleCreated o')).

(** The constructor [new Obstacle(canvasCtx, type, spriteImgPos,
    dimensions, gapCoefficient, speed, opt_xOffset)]. *)
Definition new (IS_MOBILE : bool) (type : ObstacleType.t) (dimensionsWIDTH : Q)
    (gapCoefficient speed : Q) (opt_xOffset : option Q) : IO t :=
  size0 <- getRandomNum 1 MAX_OBSTACLE_LENGTH ;;
  let xOffset := match opt_xOffset with
                 | Some v => if JS.truthy v then v else 0
                 | None => 0 end in
  init IS_MOBILE speed
    (mk type gapCoefficient size0 dimensionsWIDTH false
        (dimensionsWIDTH + xOffset) 0 0 [] 0 0 0 0 false).

(** [isVisible] *)
Definition isVisible (o : t) : bool := JS.gtb (xPos o + width o) 0.

(** [update(deltaTime, speed)] *)
Definition update (deltaTime speed : Q) (o : t) : t :=
  if negb (remove o) then
    let tc := typeConfig o in
    let speed' :=
      if JS.truthy_opt (ObstacleType.speedOffset tc)
      then JS.add speed (speedOffset o) else speed in
    let xPos' :=
      xPos o
      - JS.Math_floor (JS.mul (JS.div (JS.mul speed' FPS) 1000) deltaTime) in
    let '(timer', currentFrame') :=
      match ObstacleType.numFrames tc with
      | Some n =>
          if JS.truthy n then
            let timer1 := timer o + deltaTime in
            if (match ObstacleType.frameRate tc with
                | Some fr => JS.geb timer1 fr | None => false end)
            then (0, if JS.eqb (currentFrame o) (n - 1)
                     then 0 else currentFrame o + 1)
            else (timer1, currentFrame o)
          else (timer o, currentFrame o)
      | None => (timer o, currentFrame o)
      end in
    let o' := mk tc (gapCoefficient o) (size o) (dimensions_WIDTH o) (remove o)
                 xPos' (yPos o) (width o) (collisionBoxes o) (gap o)
                 (speedOffset o) currentFrame' timer'
                 (followingObstacleCreated o) in
    if negb (isVisible o')
    then mk tc (gapCoefficient o) (size o) (dimensions_WIDTH o) true
            xPos' (yPos o) (width o) (collisionBoxes o) (gap o)
            (speedOffset o) currentFrame' timer'
            (followingObstacleCreated o)
    else o'
  else o.

End Obstacle.

(** ** The T-rex *)

Module Trex.

Inductive Status := CRASHED | DUCKING | JUMPING | RUNNING | WAITING.

Definition Status_eqb (a b : Status) : bool :=
  match a, b with
  | CRASHED, CRASHED | DUCKING, DUCKING | JUMPING, JUMPING
  | RUNNING, RUNNING | WAITING, WAITING => true
  | _, _ => false
  end.

Record Config := mkConfig {
  DROP_VELOCITY : Q;
  GRAVITY : Q;
  HEIGHT : Q;
  HEIGHT_DUCK : Q;
  INIITAL_JUMP_VELOCITY : Q;
  INTRO_DURATION : Q;
  MAX_JUMP_HEIGHT : Q;
  MIN_JUMP_HEIGHT : Q;
  SPEED_DROP_COEFFICIENT : Q;
  SPRITE_WIDTH : Q;
  START_X_POS : Q;
  WIDTH : Q;
  WIDTH_DUCK : Q
}.

(** The literal [Trex.config] of the source. *)
Definition default_config : Config := {|
  DROP_VELOCITY := -5;
  GRAVITY := 0.6;
  HEIGHT := 47;
  HEIGHT_DUCK := 25;
  INIITAL_JUMP_VELOCITY := -10;
  INTRO_DURATION := 1500;
  MAX_JUMP_HEIGHT := 30;
  MIN_JUMP_HEIGHT := 30;
  SPEED_DROP_COEFFICIENT := 3;
  SPRITE_WIDTH := 262;
  START_X_POS := 50;
  WIDTH := 44;
  WIDTH_DUCK := 59
|}.

(** [Trex.collisionBoxes] *)
Definition collisionBoxes_DUCKING : list CollisionBox.t :=
  [ CollisionBox.new 1 18 55 25 ].

Definition collisionBoxes_RUNNING : list CollisionBox.t :=
  [ CollisionBox.new 22 0 17 16;
    CollisionBox.new 1 18 30 9;
    CollisionBox.new 10 35 14 8;
    CollisionBox.new 1 24 29 5;
    CollisionBox.new 5 30 21 4;
    CollisionBox.new 9 34 15 4 ].

Definition BLINK_TIMING : Q := 7000.

(** [Trex.animFrames]: the frames and the [msPerFrame] of a status. *)
Definition animFrames_frames (s : Status) : list Q :=
  match s with
  | WAITING => [44; 0]
  | RUNNING => [88; 132]
  | CRASHED => [220]
  | JUMPING => [0]
  | DUCKING => [264; 323]
  end.

Definition animFrames_msPerFrame (s : Status) : Q :=
  match s with
  | WAITING => 1000 / 3
  | RUNNING => 1000 / 12
  | CRASHED => 1000 / 60
  | JUMPING => 1000 / 60
  | DUCKING => 1000 / 8
  end.

Record t := mk {
  config : Config;
  xPos : Q;
  yPos : Q;
  groundYPos : Q;
  minJumpHeight : Q;
  currentFrame : Q;
  currentAnimFrames : list Q;
  blinkDelay : Q;
  blinkCount : Q;
  animStartTime : Q;
  timer : Q;
  msPerFrame : Q;
  status : Status;
  jumping : bool;
  ducking : bool;
  jumpVelocity : Q;
  reachedMinHeight : bool;
  speedDrop : bool;
  jumpCount : Q;
  playingIntro : bool;
  midair : bool
}.

(** Assignments to single fields. *)
Definition set_config (v : Config) (o : t) : t :=
  mk v (xPos o) (yPos o) (groundYPos o) (minJumpHeight o) (currentFrame o)
     (currentAnimFrames o) (blinkDelay o) (blinkCount o) (animStartTime o)
     (timer o) (msPerFrame o) (status o) (jumping o) (ducking o) (jumpVelocity
     o) (reachedMinHeight o) (speedDrop o) (jumpCount o) (playingIntro o)
     (midair o).
Definition set_xPos (v : Q) (o : t) : t :=
  mk (config o) v (yPos o) (groundYPos o) (minJumpHeight o) (currentFrame o)
     (currentAnimFrames o) (blinkDelay o) (blinkCount o) (animStartTime o)
     (timer o) (msPerFrame o) (status o) (jumping o) (ducking o) (jumpVelocity
     o) (reachedMinHeight o) (speedDrop o) (jumpCount o) (playingIntro o)
     (midair o).
Definition set_yPos (v : Q) (o : t) : t :=
  mk (config o) (xPos o) v (groundYPos o) (minJumpHeight o) (currentFrame o)
     (currentAnimFrames o) (blinkDelay o) (blinkCount o) (animStartTime o)
     (timer o) (msPerFrame o) (status o) (jumping o) (ducking o) (jumpVelocity
     o) (reachedMinHeight o) (speedDrop o) (jumpCount o) (playingIntro o)
     (midair o).
Definition set_currentFrame (v : Q) (o : t) : t :=
  mk (config o) (xPos o) (yPos o) (groundYPos o) (minJumpHeight o) v
     (currentAnimFrames o) (blinkDelay o) (blinkCount o) (animStartTime o)
     (timer o) (msPerFrame o) (status o) (jumping o) (ducking o) (jumpVelocity
     o) (reachedMinHeight o) (speedDrop o) (jumpCount o) (playingIntro o)
     (midair o).
Definition set_currentAnimFrames (v : list Q) (o : t) : t :=
  mk (config o) (xPos o) (yPos o) (groundYPos o) (minJumpHeight o)
     (currentFrame o) v (blinkDelay o) (blinkCount o) (animStartTime o) (timer
     o) (msPerFrame o) (status o) (jumping o) (ducking o) (jumpVelocity o)
     (reachedMinHeight o) (speedDrop o) (jumpCount o) (playingIntro o) (midair
     o).
Definition set_blinkDelay (v : Q) (o : t) : t :=
  mk (config o) (xPos o) (yPos o) (groundYPos o) (minJumpHeight o)
     (currentFrame o) (currentAnimFrames o) v (blinkCount o) (animStartTime o)
     (timer o) (msPerFrame o) (status o) (jumping o) (ducking o) (jumpVelocity
     o) (reachedMinHeight o) (speedDrop o) (jumpCount o) (playingIntro o)
     (midair o).
Definition set_blinkCount (v : Q) (o : t) : t :=
  mk (config o) (xPos o) (yPos o) (groundYPos o) (minJumpHeight o)
     (currentFrame o) (currentAnimFrames o) (blinkDelay o) v (animStartTime o)
     (timer o) (msPerFrame o) (status o) (jumping o) (ducking o) (jumpVelocity
     o) (reachedMinHeight o) (speedDrop o) (jumpCount o) (playingIntro o)
     (midair o).
Definition set_animStartTime (v : Q) (o : t) : t :=
  mk (config o) (xPos o) (yPos o) (groundYPos o) (minJumpHeight o)
     (currentFrame o) (currentAnimFrames o) (blinkDelay o) (blinkCount o) v
     (timer o) (msPerFrame o) (status o) (jumping o) (ducking o) (jumpVelocity
     o) (reachedMinHeight o) (speedDrop o) (jumpCount o) (playingIntro o)
     (midair o).
Definition set_timer (v : Q) (o : t) : t :=
  mk (config o) (xPos o) (yPos o) (groundYPos o) (minJumpHeight o)
     (currentFrame o) (currentAnimFrames o) (blinkDelay o) (blinkCount o)
     (animStartTime o) v (msPerFrame o) (status o) (jumping o) (ducking o)
     (jumpVelocity o) (reachedMinHeight o) (speedDrop o) (jumpCount o)
     (playingIntro o) (midair o).
Definition set_msPerFrame (v : Q) (o : t) : t :=
  mk (config o) (xPos o) (yPos o) (groundYPos o) (minJumpHeight o)
     (currentFrame o) (currentAnimFrames o) (blinkDelay o) (blinkCount o)
     (animStartTime o) (timer o) v (status o) (jumping o) (ducking o)
     (jumpVelocity o) (reachedMinHeight o) (speedDrop o) (jumpCount o)
     (playingIntro o) (midair o).
Definition set_status (v : Status) (o : t) : t :=
  mk (config o) (xPos o) (yPos o) (groundYPos o) (minJumpHeight o)
     (currentFrame o) (currentAnimFrames o) (blinkDelay o) (blinkCount o)
     (animStartTime o) (timer o) (msPerFrame o) v (jumping o) (ducking o)
     (jumpVelocity o) (reachedMinHeight o) (speedDrop o) (jumpCount o)
     (playingIntro o) (midair o).
Definition set_jumping (v : bool) (o : t) : t :=
  mk (config o) (xPos o) (yPos o) (groundYPos o) (minJumpHeight o)
     (currentFrame o) (currentAnimFrames o) (blinkDelay o) (blinkCount o)
     (animStartTime o) (timer o) (msPerFrame o) (status o) v (ducking o)
     (jumpVelocity o) (reachedMinHeight o) (speedDrop o) (jumpCount o)
     (playingIntro o) (midair o).
Definition set_ducking (v : bool) (o : t) : t :=
  mk (config o) (xPos o) (yPos o) (groundYPos o) (minJumpHeight o)
     (currentFrame o) (currentAnimFrames o) (blinkDelay o) (blinkCount o)
     (animStartTime o) (timer o) (msPerFrame o) (status o) (jumping o) v
     (jumpVelocity o) (reachedMinHeight o) (speedDrop o) (jumpCount o)
     (playingIntro o) (midair o).
Definition set_jumpVelocity (v : Q) (o : t) : t :=
  mk (config o) (xPos o) (yPos o) (groundYPos o) (minJumpHeight o)
     (currentFrame o) (currentAnimFrames o) (blinkDelay o) (blinkCount o)
     (animStartTime o) (timer o) (msPerFrame o) (status o) (jumping o) (ducking
     o) v (reachedMinHeight o) (speedDrop o) (jumpCount o) (playingIntro o)
     (midair o).
Definition set_reachedMinHeight (v : bool) (o : t) : t :=
  mk (config o) (xPos o) (yPos o) (groundYPos o) (minJumpHeight o)
     (currentFrame o) (currentAnimFrames o) (blinkDelay o) (blinkCount o)
     (animStartTime o) (timer o) (msPerFrame o) (status o) (jumping o) (ducking
     o) (jumpVelocity o) v (speedDrop o) (jumpCount o) (playingIntro o) (midair
     o).
Definition set_speedDrop (v : bool) (o : t) : t :=
  mk (config o) (xPos o) (yPos o) (groundYPos o) (minJumpHeight o)
     (currentFrame o) (currentAnimFrames o) (blinkDelay o) (blinkCount o)
     (animStartTime o) (timer o) (msPerFrame o) (status o) (jumping o) (ducking
     o) (jumpVelocity o) (reachedMinHeight o) v (jumpCount o) (playingIntro o)
     (midair o).
Definition set_jumpCount (v : Q) (o : t) : t :=
  mk (config o) (xPos o) (yPos o) (groundYPos o) (minJumpHeight o)
     (currentFrame o) (currentAnimFrames o) (blinkDelay o) (blinkCount o)
     (animStartTime o) (timer o) (msPerFrame o) (status o) (jumping o) (ducking
     o) (jumpVelocity o) (reachedMinHeight o) (speedDrop o) v (playingIntro o)
     (midair o).
Definition set_playingIntro (v : bool) (o : t) : t :=
  mk (config o) (xPos o) (yPos o) (groundYPos o) (minJumpHeight o)
     (currentFrame o) (currentAnimFrames o) (blinkDelay o) (blinkCount o)
     (animStartTime o) (timer o) (msPerFrame o) (status o) (jumping o) (ducking
     o) (jumpVelocity o) (reachedMinHeight o) (speedDrop o) (jumpCount o) v
     (midair o).
Definition set_midair (v : bool) (o : t) : t :=
  mk (config o) (xPos o) (yPos o) (groundYPos o) (minJumpHeight o)
     (currentFrame o) (currentAnimFrames o) (blinkDelay o) (blinkCount o)
     (animStartTime o) (timer o) (msPerFrame o) (status o) (jumping o) (ducking
     o) (jumpVelocity o) (reachedMinHeight o) (speedDrop o) (jumpCount o)
     (playingIntro o) v.

(** [draw(x, y)] paints the sprite; its one effect on the state is the
    shift of a T-rex that crashed while ducking. *)
Definition draw (o : t) : t :=
  if ducking o && negb (Status_eqb (status o) CRASHED) then o
  else if ducking o && Status_eqb (status o) CRASHED
       then set_xPos (xPos o + 1) o
       else o.

(** [setBlinkDelay] *)
Definition setBlinkDelay (o : t) : IO t :=
  r <- Math_random ;;
  ret (set_blinkDelay (JS.Math_ceil (r * BLINK_TIMING)) o).

(** [blink(time)] *)
Definition blink (time : Q) (o : t) : IO t :=
  let deltaTime := time - animStartTime o in
  if JS.geb deltaTime (blinkDelay o) then
    let o1 := draw o in
    if JS.eqb (currentFrame o1) 1 then
      o2 <- setBlinkDelay o1 ;;
      ret (set_blinkCount (blinkCount o2 + 1) (set_animStartTime time o2))
    else ret o1
  else ret o.

(** [update(deltaTime, opt_status)] up to its last statement. *)
Definition update_frame (deltaTime : Q) (opt_status : option Status) (o : t)
  : IO t :=
  let o := set_timer (timer o + deltaTime) o in
  o <- match opt_status with
       | Some s =>
           let o := set_currentAnimFrames (animFrames_frames s)
                      (set_msPerFrame (animFrames_msPerFrame s)
                         (set_currentFrame 0 (set_status s o))) in
           if Status_eqb s WAITING then
             now <- getTimeStamp ;;
             setBlinkDelay (set_animStartTime now o)
           else ret o
       | None => ret o
       end ;;
  let o :=
    if playingIntro o && JS.ltb (xPos o) (START_X_POS (config o))
    then set_xPos (xPos o + JS.Math_round
                     ((START_X_POS (config o) / INTRO_DURATION (config o))
                      * deltaTime)) o
    else o in
  o <- (if Status_eqb (status o) WAITING
        then now <- getTimeStamp ;; blink now o
        else ret (draw o)) ;;
  ret (if JS.geb (timer o) (msPerFrame o)
       then set_timer 0
              (set_currentFrame
                 (if JS.eqb (currentFrame o)
                       (inject_Z (Z.of_nat (List.length (currentAnimFrames o))) - 1)
                  then 0 else currentFrame o + 1) o)
       else o).

(** [setDuck(isDucking)], over the [update] it calls. *)
Definition setDuck_with (upd : Q -> option Status -> t -> IO t)
    (isDucking : bool) (o : t) : IO t :=
  if isDucking && negb (Status_eqb (status o) DUCKING) then
    o' <- upd 0 (Some DUCKING) o ;; ret (set_ducking true o')
  else if Status_eqb (status o) DUCKING then
    o' <- upd 0 (Some RUNNING) o ;; ret (set_ducking false o')
  else ret o.

(** [update(deltaTime, opt_status)].  Its last statement turns a finished
    speed drop into a duck; [speedDrop] is cleared before [setDuck] runs,
    so the [update] that [setDuck] calls stops before that statement. *)
Definition update (deltaTime : Q) (opt_status : option Status) (o : t) : IO t :=
  o <- update_frame deltaTime opt_status o ;;
  if speedDrop o && JS.eqb (yPos o) (groundYPos o)
  then setDuck_with update_frame true (set_speedDrop false o)
  else ret o.

Definition setDuck : bool -> t -> IO t := setDuck_with update.

(** The constructor [new Trex(canvas, spritePos)] followed by [init()];
    [bottomPad] is [Runner.config.BOTTOM_PAD]. *)
Definition new (cfg : Config) (bottomPad : Q) : IO t :=
  let groundY := defaultDimensions_HEIGHT - HEIGHT cfg - bottomPad in
  update 0 (Some WAITING)
    (mk cfg 0 groundY groundY (groundY - MIN_JUMP_HEIGHT cfg)
        0 [] 0 0 0 0 (1000 / FPS) WAITING
        false false 0 false false 0 false false).

(** [setJumpVelocity(setting)] *)
Definition setJumpVelocity (setting : Q) (o : t) : t :=
  let c := config o in
  set_config
    (mkConfig (- setting / 2) (GRAVITY c) (HEIGHT c) (HEIGHT_DUCK c)
       (- setting) (INTRO_DURATION c) (MAX_JUMP_HEIGHT c) (MIN_JUMP_HEIGHT c)
       (SPEED_DROP_COEFFICIENT c) (SPRITE_WIDTH c) (START_X_POS c) (WIDTH c)
       (WIDTH_DUCK c)) o.

(** [startJump(speed)] *)
Definition startJump (speed : Q) (o : t) : IO t :=
  if negb (jumping o) then
    o <- update 0 (Some JUMPING) o ;;
    ret (set_speedDrop false
           (set_reachedMinHeight false
              (set_jumping true
                 (set_jumpVelocity
                    (INIITAL_JUMP_VELOCITY (config o) - speed / 10) o))))
  else ret o.

(** [endJump()] *)
Definition endJump (o : t) : t :=
  if reachedMinHeight o && JS.ltb (jumpVelocity o) (DROP_VELOCITY (config o))
  then set_jumpVelocity (DROP_VELOCITY (config o)) o
  else o.

(** [reset()] *)
Definition reset (o : t) : IO t :=
  let o := set_ducking false
             (set_jumping false
                (set_jumpVelocity 0 (set_yPos (groundYPos o) o))) in
  o <- update 0 (Some RUNNING) o ;;
  ret (set_jumpCount 0 (set_speedDrop false (set_midair false o))).

(** [updateJump(deltaTime)] *)
Definition updateJump (deltaTime : Q) (o : t) : IO t :=
  let msPerFrame := animFrames_msPerFrame (status o) in
  let framesElapsed := deltaTime / msPerFrame in
  let o :=
    if speedDrop o
    then set_yPos (yPos o + JS.Math_round
                     (jumpVelocity o * SPEED_DROP_COEFFICIENT (config o)
                      * framesElapsed)) o
    else set_yPos (yPos o + JS.Math_round (jumpVelocity o * framesElapsed)) o in
  let o := set_jumpVelocity
             (jumpVelocity o + GRAVITY (config o) * framesElapsed) o in
  let o := if JS.ltb (yPos o) (minJumpHeight o) || speedDrop o
           then set_reachedMinHeight true o else o in
  let o := if JS.ltb (yPos o) (MAX_JUMP_HEIGHT (config o)) || speedDrop o
           then endJump o else o in
  o <- (if JS.gtb (yPos o) (groundYPos o)
        then o' <- reset o ;; ret (set_jumpCount (jumpCount o' + 1) o')
        else ret o) ;;
  update deltaTime None o.

(** [setSpeedDrop()] *)
Definition setSpeedDrop (o : t) : t :=
  set_jumpVelocity 1 (set_speedDrop true o).

End Trex.

(** ** Collision detection *)

(** [createAdjustedCollisionBox(box, adjustment)] *)
Definition createAdjustedCollisionBox (box adjustment : CollisionBox.t)
  : CollisionBox.t :=
  CollisionBox.new
    (CollisionBox.x box + CollisionBox.x adjustment)
    (CollisionBox.y box + CollisionBox.y adjustment)
    (CollisionBox.width box)
    (CollisionBox.height box).

(** [boxCompare(tRexBox, obstacleBox)] *)
Definition boxCompare (tRexBox obstacleBox : CollisionBox.t) : bool :=
  let obstacleBoxX := CollisionBox.x obstacleBox in
  JS.ltb (CollisionBox.x tRexBox) (obstacleBoxX + CollisionBox.width obstacleBox)
  && JS.gtb (CollisionBox.x tRexBox + CollisionBox.width tRexBox) obstacleBoxX
  && JS.ltb (CollisionBox.y tRexBox)
       (CollisionBox.y obstacleBox + CollisionBox.height obstacleBox)
  && JS.gtb (CollisionBox.height tRexBox + CollisionBox.y tRexBox)
       (CollisionBox.y obstacleBox).

(** The outer boxes of [checkForCollision], inset by the one-pixel border. *)
Definition tRexOuterBox (tRex : Trex.t) : CollisionBox.t :=
  CollisionBox.new (Trex.xPos tRex + 1) (Trex.yPos tRex + 1)
    (Trex.WIDTH (Trex.config tRex) - 2) (Trex.HEIGHT (Trex.config tRex) - 2).

Definition obstacleOuterBox (obstacle : Obstacle.t) : CollisionBox.t :=
  CollisionBox.new (Obstacle.xPos obstacle + 1) (Obstacle.yPos obstacle + 1)
    (ObstacleType.width (Obstacle.typeConfig obstacle) * Obstacle.size obstacle - 2)
    (ObstacleType.height (Obstacle.typeConfig obstacle) - 2).

(** The inner loop of [checkForCollision] over the obstacle boxes, for one
    T-rex box: the first overlapping pair of adjusted boxes. *)
Fixpoint firstCrash_inner (tBox : CollisionBox.t) (tRexBox obstacleBox : CollisionBox.t)
    (collisionBoxes : list CollisionBox.t)
  : option (CollisionBox.t * CollisionBox.t) :=
  match collisionBoxes with
  | [] => None
  | oBox :: rest =>
      let adjTrexBox := createAdjustedCollisionBox tBox tRexBox in
      let adjObstacleBox := createAdjustedCollisionBox oBox obstacleBox in
      if boxCompare adjTrexBox adjObstacleBox
      then Some (adjTrexBox, adjObstacleBox)
      else firstCrash_inner tBox tRexBox obstacleBox rest
  end.

(** The outer loop over the T-rex boxes. *)
Fixpoint firstCrash (tRexCollisionBoxes : list CollisionBox.t)
    (tRexBox obstacleBox : CollisionBox.t) (collisionBoxes : list CollisionBox.t)
  : option (CollisionBox.t * CollisionBox.t) :=
  match tRexCollisionBoxes with
  | [] => None
  | tBox :: rest =>
      match firstCrash_inner tBox tRexBox obstacleBox collisionBoxes with
      | Some boxes => Some boxes
      | None => firstCrash rest tRexBox obstacleBox collisionBoxes
      end
  end.

(** [checkForCollision(obstacle, tRex)]: [Some] pair of boxes, or [None]
    for [false]. *)
Definition checkForCollision (obstacle : Obstacle.t) (tRex : Trex.t)
  : option (CollisionBox.t * CollisionBox.t) :=
  let tRexBox := tRexOuterBox tRex in
  let obstacleBox := obstacleOuterBox obstacle in
  if boxCompare tRexBox obstacleBox then
    let collisionBoxes := Obstacle.collisionBoxes obstacle in
    let tRexCollisionBoxes :=
      if Trex.ducking tRex
      then Trex.collisionBoxes_DUCKING else Trex.collisionBoxes_RUNNING in
    firstCrash tRexCollisionBoxes tRexBox obstacleBox collisionBoxes
  else None.

(** ** Strings of digits *)

(** The decimal string of a number, for the integers that reach it. *)
Definition Number_toString (n : Q) : string :=
  NilZero.string_of_int (Z.to_int (Qfloor n)).

(** [parseInt] on a string of digits. *)
Definition parseInt (s : string) : Q :=
  match NilZero.int_of_string s with
  | Some i => inject_Z (Z.of_int i)
  | None => 0
  end.

(** [s.substr(-n)]: the last [n] characters, and all of [s] for [n = 0]
    or for [n] beyond the length. *)
Definition substr_from_end (n : nat) (s : string) : string :=
  if (n =? 0)%nat then s
  else String.substring (String.length s - n) n s.

(** [s.split('')] *)
Fixpoint split_chars (s : string) : list string :=
  match s with
  | EmptyString => []
  | String c rest => String c EmptyString :: split_chars rest
  end.

(** [for (var i = 0; i < n; i++) s += c] *)
Fixpoint repeat_char (c : ascii) (n : nat) : string :=
  match n with
  | O => EmptyString
  | S k => String c (repeat_char c k)
  end.

(** ** The distance meter *)

Module DistanceMeter.

Record Config := mkConfig {
  MAX_DISTANCE_UNITS : Q;
  ACHIEVEMENT_DISTANCE : Q;
  COEFFICIENT : Q;
  FLASH_DURATION : Q;
  FLASH_ITERATIONS : Q
}.

(** The literal [DistanceMeter.config] of the source. *)
Definition default_config : Config := {|
  MAX_DISTANCE_UNITS := 5;
  ACHIEVEMENT_DISTANCE := 100;
  COEFFICIENT := 0.025;
  FLASH_DURATION := 1000 / 4;
  FLASH_ITERATIONS := 3
|}.

Definition DEST_WIDTH : Q := 11.

Record t := mk {
  x : Q;
  maxScore : Q;
  highScore : list string;
  digits : list string;
  acheivement : bool;
  defaultString : string;
  flashTimer : Q;
  flashIterations : Q;
  config : Config;
  maxScoreUnits : Q
}.

(** The result of [update]: the updated meter, the returned [playSound]
    and the value of the local [paint], which decides whether the digits
    are drawn in this call. *)
Record Updated := mkUpdated {
  meter : t;
  playSound : bool;
  paint : bool
}.

(** The constructor followed by [init(canvasWidth)]. *)
Definition new (cfg : Config) (canvasWidth : Q) : t :=
  let units := MAX_DISTANCE_UNITS cfg in
  let n := Z.to_nat (Qceiling units) in
  mk (canvasWidth - DEST_WIDTH * (units + 1))
     (parseInt (repeat_char "9" n))
     [] [] false (repeat_char "0" n) 0 0 cfg units.

(** [getActualDistance(distance)] *)
Definition getActualDistance (m : t) (distance : Q) : Q :=
  if JS.truthy distance
  then JS.Math_round (distance * COEFFICIENT (config m)) else 0.

(** [update(deltaTime, distance)] *)
Definition update (deltaTime distance : Q) (m : t) : Updated :=
  if negb (acheivement m) then
    let distance := getActualDistance m distance in
    let grow := JS.gtb distance (maxScore m)
                && JS.eqb (maxScoreUnits m) (MAX_DISTANCE_UNITS (config m)) in
    let maxScoreUnits' := if grow then maxScoreUnits m + 1 else maxScoreUnits m in
    let maxScore' :=
      if grow then parseInt (Number_toString (maxScore m) ++ "9")
      else maxScore m in
    if JS.gtb distance 0 then
      let unlocked := JS.eqb (JS.rem distance (ACHIEVEMENT_DISTANCE (config m))) 0 in
      let distanceStr :=
        substr_from_end (Z.to_nat (Qfloor maxScoreUnits'))
          (defaultString m ++ Number_toString distance) in
      mkUpdated
        (mk (x m) maxScore' (highScore m) (split_chars distanceStr)
            (if unlocked then true else acheivement m) (defaultString m)
            (if unlocked then 0 else flashTimer m) (flashIterations m)
            (config m) maxScoreUnits')
        unlocked true
    else
      mkUpdated
        (mk (x m) maxScore' (highScore m) (split_chars (defaultString m))
            (acheivement m) (defaultString m) (flashTimer m)
            (flashIterations m) (config m) maxScoreUnits')
        false true
  else
    if JS.leb (flashIterations m) (FLASH_ITERATIONS (config m)) then
      let flashTimer1 := flashTimer m + deltaTime in
      if JS.ltb flashTimer1 (FLASH_DURATION (config m)) then
        mkUpdated
          (mk (x m) (maxScore m) (highScore m) (digits m) (acheivement m)
              (defaultString m) flashTimer1 (flashIterations m) (config m)
              (maxScoreUnits m))
          false false
      else if JS.gtb flashTimer1 (FLASH_DURATION (config m) * 2) then
        mkUpdated
          (mk (x m) (maxScore m) (highScore m) (digits m) (acheivement m)
              (defaultString m) 0 (flashIterations m + 1) (config m)
              (maxScoreUnits m))
          false true
      else
        mkUpdated
          (mk (x m) (maxScore m) (highScore m) (digits m) (acheivement m)
              (defaultString m) flashTimer1 (flashIterations m) (config m)
              (maxScoreUnits m))
          false true
    else
      mkUpdated
        (mk (x m) (maxScore m) (highScore m) (digits m) false
            (defaultString m) 0 0 (config m) (maxScoreUnits m))
        false true.

(** [setHighScore(distance)] *)
Definition setHighScore (distance : Q) (m : t) : t :=
  let distance := getActualDistance m distance in
  let highScoreStr :=
    substr_from_end (Z.to_nat (Qfloor (maxScoreUnits m)))
      (defaultString m ++ Number_toString distance) in
  mk (x m) (maxScore m)
     ("10"%string :: "11"%string :: ""%string :: split_chars highScoreStr)
     (digits m) (acheivement m) (defaultString m) (flashTimer m)
     (flashIterations m) (config m) (maxScoreUnits m).

(** [reset()]: [update(0)] with no distance, then the flag is cleared. *)
Definition reset (m : t) : t :=
  let m := meter (update 0 0 m) in
  mk (x m) (maxScore m) (highScore m) (digits m) false (defaultString m)
     (flashTimer m) (flashIterations m) (config m) (maxScoreUnits m).

End DistanceMeter.

(** ** Night mode *)

Module NightMode.

Definition FADE_SPEED : Q := 0.035.
Definition MOON_SPEED : Q := 0.25.
Definition NUM_STARS : nat := 2.
Definition STAR_SPEED : Q := 0.3.
Definition STAR_MAX_Y : Q := 70.
Definition WIDTH : Q := 20.

Definition phases : list Q := [140; 120; 100; 60; 40; 20; 0].

Record Star := mkStar { star_x : Q; star_y : Q }.

Record t := mk {
  xPos : Q;
  yPos : Q;
  currentPhase : Q;
  opacity : Q;
  containerWidth : Q;
  stars : list Star;
  drawStars : bool
}.

(** [placeStars()], star by star. *)
Fixpoint placeStars_from (segmentSize : Q) (i : nat) (n : nat) : IO (list Star) :=
  match n with
  | O => ret []
  | S n' =>
      let iq := inject_Z (Z.of_nat i) in
      sx <- getRandomNum (segmentSize * iq) (segmentSize * (iq + 1)) ;;
      sy <- getRandomNum 0 STAR_MAX_Y ;;
      rest <- placeStars_from segmentSize (S i) n' ;;
      ret (mkStar sx sy :: rest)
  end.

Definition placeStars (o : t) : IO t :=
  let segmentSize :=
    JS.Math_round (containerWidth o / inject_Z (Z.of_nat NUM_STARS)) in
  s <- placeStars_from segmentSize 0 NUM_STARS ;;
  ret (mk (xPos o) (yPos o) (currentPhase o) (opacity o) (containerWidth o)
          s (drawStars o)).

(** The constructor [new NightMode(canvas, spritePos, containerWidth)]. *)
Definition new (containerWidth : Q) : IO t :=
  placeStars (mk (containerWidth - 50) 30 0 0 containerWidth [] false).

(** [updateXPos(currentPos, speed)] *)
Definition updateXPos (o : t) (currentPos speed : Q) : Q :=
  if JS.ltb currentPos (- WIDTH) then containerWidth o else currentPos - speed.

(** [update(activated, delta)] *)
Definition update (activated : bool) (o : t) : IO t :=
  let currentPhase' :=
    if activated && JS.eqb (opacity o) 0 then
      let p := currentPhase o + 1 in
      if JS.geb p (inject_Z (Z.of_nat (List.length phases))) then 0 else p
    else currentPhase o in
  let opacity' :=
    if activated && (JS.ltb (opacity o) 1 || JS.eqb (opacity o) 0)
    then opacity o + FADE_SPEED
    else if JS.gtb (opacity o) 0 then opacity o - FADE_SPEED
         else opacity o in
  o' <- (if JS.gtb opacity' 0 then
           let xPos' := updateXPos o (xPos o) MOON_SPEED in
           let stars' :=
             if drawStars o
             then map (fun s => mkStar (updateXPos o (star_x s) STAR_SPEED)
                                  (star_y s)) (stars o)
             else stars o in
           ret (mk xPos' (yPos o) currentPhase' opacity' (containerWidth o)
                   stars' (drawStars o))
         else
           placeStars (mk (xPos o) (yPos o) currentPhase' 0 (containerWidth o)
                          (stars o) (drawStars o))) ;;
  ret (mk (xPos o') (yPos o') (currentPhase o') (opacity o')
          (containerWidth o') (stars o') true).

(** [reset()] *)
Definition reset (o : t) : IO t :=
  update false
    (mk (xPos o) (yPos o) 0 0 (containerWidth o) (stars o) (drawStars o)).

End NightMode.

(** ** Clouds and the ground line *)

Module Cloud.

Definition HEIGHT : Q := 14.
Definition MAX_CLOUD_GAP : Q := 400.
Definition MAX_SKY_LEVEL : Q := 30.
Definition MIN_CLOUD_GAP : Q := 100.
Definition MIN_SKY_LEVEL : Q := 71.
Definition WIDTH : Q := 46.

Record t := mk {
  containerWidth : Q;
  xPos : Q;
  yPos : Q;
  remove : bool;
  cloudGap : Q
}.

(** The constructor followed by [init()]. *)
Definition new (containerWidth : Q) : IO t :=
  g <- getRandomNum MIN_CLOUD_GAP MAX_CLOUD_GAP ;;
  y <- getRandomNum MAX_SKY_LEVEL MIN_SKY_LEVEL ;;
  ret (mk containerWidth containerWidth y false g).

Definition isVisible (c : t) : bool := JS.gtb (xPos c + WIDTH) 0.

(** [update(speed)] *)
Definition update (speed : Q) (c : t) : t :=
  if negb (remove c) then
    let c' := mk (containerWidth c) (xPos c - JS.Math_ceil speed) (yPos c)
                 (remove c) (cloudGap c) in
    if negb (isVisible c')
    then mk (containerWidth c') (xPos c') (yPos c') true (cloudGap c')
    else c'
  else c.

End Cloud.

Module HorizonLine.

Definition WIDTH : Q := 600.
Definition HEIGHT : Q := 12.
Definition YPOS : Q := 127.

(** [xPos] and [sourceXPos] are the two-element arrays of the source. *)
Record t := mk {
  spritePos_x : Q;
  sourceXPos0 : Q;
  sourceXPos1 : Q;
  xPos0 : Q;
  xPos1 : Q;
  yPos : Q;
  bumpThreshold : Q
}.

Definition new (spritePos_x : Q) : t :=
  mk spritePos_x spritePos_x (spritePos_x + WIDTH) 0 WIDTH YPOS 0.5.

(** [getRandomType()] *)
Definition getRandomType (l : t) : IO Q :=
  r <- Math_random ;;
  ret (if JS.gtb r (bumpThreshold l) then WIDTH else 0).

(** [updateXPos(pos, increment)] for [pos = 0] and for [pos = 1]. *)
Definition updateXPos (pos0 : bool) (increment : Q) (l : t) : IO t :=
  let line1 := (if pos0 then xPos0 l else xPos1 l) - increment in
  if JS.leb line1 (- WIDTH) then
    let line1' := line1 + WIDTH * 2 in
    let line2' := line1' - WIDTH in
    ty <- getRandomType l ;;
    ret (if pos0
         then mk (spritePos_x l) (ty + spritePos_x l) (sourceXPos1 l)
                 line1' line2' (yPos l) (bumpThreshold l)
         else mk (spritePos_x l) (sourceXPos0 l) (ty + spritePos_x l)
                 line2' line1' (yPos l) (bumpThreshold l))
  else
    let line2 := line1 + WIDTH in
    ret (if pos0
         then mk (spritePos_x l) (sourceXPos0 l) (sourceXPos1 l)
                 line1 line2 (yPos l) (bumpThreshold l)
         else mk (spritePos_x l) (sourceXPos0 l) (sourceXPos1 l)
                 line2 line1 (yPos l) (bumpThreshold l)).

(** [update(deltaTime, speed)].  The increment is taken on exact
    rationals: where the product is within a rounding of a whole number
    of pixels, the machine's [increment] can differ from it by one. *)
Definition update (deltaTime speed : Q) (l : t) : IO t :=
  let increment := JS.Math_floor (speed * (FPS / 1000) * deltaTime) in
  updateXPos (JS.leb (xPos0 l) 0) increment l.

(** [reset()] *)
Definition reset (l : t) : t :=
  mk (spritePos_x l) (sourceXPos0 l) (sourceXPos1 l) 0 WIDTH (yPos l)
     (bumpThreshold l).

End HorizonLine.

(** ** The horizon: obstacles, clouds, ground line and night mode *)

Module Horizon.

Definition MAX_CLOUDS : Q := 6.
Definition CLOUD_FREQUENCY : Q := 0.5.
Definition BG_CLOUD_SPEED : Q := 0.2.

Record t := mk {
  dimensions_WIDTH : Q;
  gapCoefficient : Q;
  obstacles : list Obstacle.t;
  obstacleHistory : list string;
  cloudFrequency : Q;
  clouds : list Cloud.t;
  cloudSpeed : Q;
  horizonLine : HorizonLine.t;
  nightMode : NightMode.t
}.

Definition set_obstacles (v : list Obstacle.t) (h : t) : t :=
  mk (dimensions_WIDTH h) (gapCoefficient h) v (obstacleHistory h)
     (cloudFrequency h) (clouds h) (cloudSpeed h) (horizonLine h) (nightMode h).

Definition set_obstacleHistory (v : list string) (h : t) : t :=
  mk (dimensions_WIDTH h) (gapCoefficient h) (obstacles h) v
     (cloudFrequency h) (clouds h) (cloudSpeed h) (horizonLine h) (nightMode h).

Definition set_clouds (v : list Cloud.t) (h : t) : t :=
  mk (dimensions_WIDTH h) (gapCoefficient h) (obstacles h) (obstacleHistory h)
     (cloudFrequency h) v (cloudSpeed h) (horizonLine h) (nightMode h).

Definition set_horizonLine (v : HorizonLine.t) (h : t) : t :=
  mk (dimensions_WIDTH h) (gapCoefficient h) (obstacles h) (obstacleHistory h)
     (cloudFrequency h) (clouds h) (cloudSpeed h) v (nightMode h).

Definition set_nightMode (v : NightMode.t) (h : t) : t :=
  mk (dimensions_WIDTH h) (gapCoefficient h) (obstacles h) (obstacleHistory h)
     (cloudFrequency h) (clouds h) (cloudSpeed h) (horizonLine h) v.

(** [addCloud()] *)
Definition addCloud (h : t) : IO t :=
  c <- Cloud.new (dimensions_WIDTH h) ;;
  ret (set_clouds (clouds h ++ [c]) h).

(** The constructor followed by [init()]; [spriteHorizonX] is
    [spritePos.HORIZON.x]. *)
Definition new (spriteHorizonX dimensionsWIDTH gapCoefficient : Q) : IO t :=
  c <- Cloud.new dimensionsWIDTH ;;
  n <- NightMode.new dimensionsWIDTH ;;
  ret (mk dimensionsWIDTH gapCoefficient [] [] CLOUD_FREQUENCY [c]
          BG_CLOUD_SPEED (HorizonLine.new spriteHorizonX) n).

(** The loop of [duplicateObstacleCheck]: the count after the last entry. *)
Fixpoint duplicateCount (history : list string) (nextObstacleType : string)
    (count : nat) : nat :=
  match history with
  | [] => count
  | ty :: rest =>
      duplicateCount rest nextObstacleType
        (if String.eqb ty nextObstacleType then S count else O)
  end.

(** [duplicateObstacleCheck(nextObstacleType)]; [cfg] is [Runner.config]. *)
Definition duplicateObstacleCheck (cfg : RunnerConfig.t) (h : t)
    (nextObstacleType : string) : bool :=
  (RunnerConfig.MAX_OBSTACLE_DUPLICATION cfg
   <=? duplicateCount (obstacleHistory h) nextObstacleType 0)%nat.

(** The test of [addNewObstacle] that sends a drawn type back. *)
Definition rejects (cfg : RunnerConfig.t) (h : t) (currentSpeed : Q)
    (obstacleType : ObstacleType.t) : bool :=
  duplicateObstacleCheck cfg h (ObstacleType.type obstacleType)
  || JS.ltb currentSpeed (ObstacleType.minSpeed obstacleType).

(** [unshift] of the type, then [splice(MAX_OBSTACLE_DUPLICATION)] when
    the history has more than one entry. *)
Definition recordType (cfg : RunnerConfig.t) (ty : string) (history : list string)
  : list string :=
  let history' := ty :: history in
  if (1 <? List.length history')%nat
  then firstn (RunnerConfig.MAX_OBSTACLE_DUPLICATION cfg) history'
  else history'.

(** [addNewObstacle(currentSpeed)].  The method calls itself until a drawn
    type is accepted; [fuel] bounds the number of calls, and [None] says
    that the call has not returned within that bound.  (The drawn index is
    always within the table.) *)
Fixpoint addNewObstacle (fuel : nat) (cfg : RunnerConfig.t) (IS_MOBILE : bool)
    (currentSpeed : Q) (h : t) : IO (option t) :=
  match fuel with
  | O => ret None
  | S fuel' =>
      obstacleTypeIndex <-
        getRandomNum 0 (inject_Z (Z.of_nat (List.length Obstacle.types)) - 1) ;;
      match at_index Obstacle.types obstacleTypeIndex with
      | None => ret None
      | Some obstacleType =>
          if rejects cfg h currentSpeed obstacleType
          then addNewObstacle fuel' cfg IS_MOBILE currentSpeed h
          else
            o <- Obstacle.new IS_MOBILE obstacleType (dimensions_WIDTH h)
                   (gapCoefficient h) currentSpeed
                   (Some (ObstacleType.width obstacleType)) ;;
            ret (Some
                   (set_obstacleHistory
                      (recordType cfg (ObstacleType.type obstacleType)
                         (obstacleHistory h))
                      (set_obstacles (obstacles h ++ [o]) h)))
      end
  end.

(** [removeFirstObstacle()] *)
Definition removeFirstObstacle (h : t) : t :=
  set_obstacles (tl (obstacles h)) h.

(** [lastObstacle.followingObstacleCreated = true] on the obstacle at
    position [n]. *)
Fixpoint markFollowing (n : nat) (l : list Obstacle.t) : list Obstacle.t :=
  match l, n with
  | [], _ => []
  | o :: rest, O =>
      Obstacle.mk (Obstacle.typeConfig o) (Obstacle.gapCoefficient o)
        (Obstacle.size o) (Obstacle.dimensions_WIDTH o) (Obstacle.remove o)
        (Obstacle.xPos o) (Obstacle.yPos o) (Obstacle.width o)
        (Obstacle.collisionBoxes o) (Obstacle.gap o) (Obstacle.speedOffset o)
        (Obstacle.currentFrame o) (Obstacle.timer o) true :: rest
  | o :: rest, S k => o :: markFollowing k rest
  end.

(** [updateObstacles(deltaTime, currentSpeed)].  Every obstacle is
    updated in place, and the copy of the array loses one leading element
    for every obstacle found removed. *)
Definition updateObstacles (fuel : nat) (cfg : RunnerConfig.t) (IS_MOBILE : bool)
    (deltaTime currentSpeed : Q) (h : t) : IO (option t) :=
  let updated := map (Obstacle.update deltaTime currentSpeed) (obstacles h) in
  let updatedObstacles :=
    skipn (List.length (filter Obstacle.remove updated)) updated in
  let h := set_obstacles updatedObstacles h in
  match rev updatedObstacles with
  | lastObstacle :: _ =>
      if negb (Obstacle.followingObstacleCreated lastObstacle)
         && Obstacle.isVisible lastObstacle
         && JS.ltb (Obstacle.xPos lastObstacle + Obstacle.width lastObstacle
                    + Obstacle.gap lastObstacle) (dimensions_WIDTH h)
      then
        r <- addNewObstacle fuel cfg IS_MOBILE currentSpeed h ;;
        ret (match r with
             | Some h' =>
                 Some (set_obstacles
                         (markFollowing (List.length updatedObstacles - 1)
                            (obstacles h')) h')
             | None => None
             end)
      else ret (Some h)
  | [] => addNewObstacle fuel cfg IS_MOBILE currentSpeed h
  end.

(** [updateClouds(deltaTime, speed)] *)
Definition updateClouds (deltaTime speed : Q) (h : t) : IO t :=
  let cloudSpeed := cloudSpeed h / 1000 * deltaTime * speed in
  match rev (clouds h) with
  | _ :: _ =>
      let moved := map (Cloud.update cloudSpeed) (clouds h) in
      let h := set_clouds moved h in
      h <- match rev moved with
           | lastCloud :: _ =>
               if JS.ltb (inject_Z (Z.of_nat (List.length moved))) MAX_CLOUDS
                  && JS.gtb (dimensions_WIDTH h - Cloud.xPos lastCloud)
                       (Cloud.cloudGap lastCloud)
               then r <- Math_random ;;
                    if JS.gtb (cloudFrequency h) r then addCloud h else ret h
               else ret h
           | [] => ret h
           end ;;
      ret (set_clouds (filter (fun c => negb (Cloud.remove c)) (clouds h)) h)
  | [] => addCloud h
  end.

(** [update(deltaTime, currentSpeed, updateObstacles, showNightMode)] *)
Definition update (fuel : nat) (cfg : RunnerConfig.t) (IS_MOBILE : bool)
    (deltaTime currentSpeed : Q) (updateObs showNightMode : bool) (h : t)
  : IO (option t) :=
  l <- HorizonLine.update deltaTime currentSpeed (horizonLine h) ;;
  n <- NightMode.update showNightMode (nightMode h) ;;
  h <- updateClouds deltaTime currentSpeed
         (set_nightMode n (set_horizonLine l h)) ;;
  if updateObs
  then updateObstacles fuel cfg IS_MOBILE deltaTime currentSpeed h
  else ret (Some h).

(** [reset()] *)
Definition reset (h : t) : IO t :=
  n <- NightMode.reset (nightMode h) ;;
  ret (set_nightMode n
         (set_horizonLine (HorizonLine.reset (horizonLine h))
            (set_obstacles [] h))).

End Horizon.

(** ** The runner *)

Module Runner.

(** What the constructor reads from the page. *)
Record Env := mkEnv {
  IS_MOBILE : bool;
  isTelegramEnvironment : bool;
  isLowEndDevice : bool;
  innerWidth : Q;
  containerWidth : Q;
  savedHighScore : Q
}.

(** The runner once [init()] has run.  It is built without [opt_config],
    as the page builds it, so that [this.config] and [Runner.config] are
    one object. *)
Record t := mk {
  config : RunnerConfig.t;
  dimensions_WIDTH : Q;
  distanceRan : Q;
  highestScore : Q;
  time : Q;
  runningTime : Q;
  msPerFrame : Q;
  currentSpeed : Q;
  activated : bool;
  playing : bool;
  crashed : bool;
  paused : bool;
  inverted : bool;
  invertTimer : Q;
  invertTrigger : bool;
  playingIntro : bool;
  playCount : Q;
  updatePending : bool;
  raqId : Q;
  tRex : Trex.t;
  horizon : Horizon.t;
  distanceMeter : DistanceMeter.t
}.

Definition set_config (v : RunnerConfig.t) (r : t) : t :=
  mk v (dimensions_WIDTH r) (distanceRan r) (highestScore r) (time r)
     (runningTime r) (msPerFrame r) (currentSpeed r) (activated r) (playing r)
     (crashed r) (paused r) (inverted r) (invertTimer r) (invertTrigger r)
     (playingIntro r) (playCount r) (updatePending r) (raqId r) (tRex r)
     (horizon r) (distanceMeter r).
Definition set_dimensions_WIDTH (v : Q) (r : t) : t :=
  mk (config r) v (distanceRan r) (highestScore r) (time r) (runningTime r)
     (msPerFrame r) (currentSpeed r) (activated r) (playing r) (crashed r)
     (paused r) (inverted r) (invertTimer r) (invertTrigger r) (playingIntro r)
     (playCount r) (updatePending r) (raqId r) (tRex r) (horizon r)
     (distanceMeter r).
Definition set_distanceRan (v : Q) (r : t) : t :=
  mk (config r) (dimensions_WIDTH r) v (highestScore r) (time r)
     (runningTime r) (msPerFrame r) (currentSpeed r) (activated r) (playing r)
     (crashed r) (paused r) (inverted r) (invertTimer r) (invertTrigger r)
     (playingIntro r) (playCount r) (updatePending r) (raqId r) (tRex r)
     (horizon r) (distanceMeter r).
Definition set_highestScore (v : Q) (r : t) : t :=
  mk (config r) (dimensions_WIDTH r) (distanceRan r) v (time r) (runningTime
     r) (msPerFrame r) (currentSpeed r) (activated r) (playing r) (crashed r)
     (paused r) (inverted r) (invertTimer r) (invertTrigger r) (playingIntro r)
     (playCount r) (updatePending r) (raqId r) (tRex r) (horizon r)
     (distanceMeter r).
Definition set_time (v : Q) (r : t) : t :=
  mk (config r) (dimensions_WIDTH r) (distanceRan r) (highestScore r) v
     (runningTime r) (msPerFrame r) (currentSpeed r) (activated r) (playing r)
     (crashed r) (paused r) (inverted r) (invertTimer r) (invertTrigger r)
     (playingIntro r) (playCount r) (updatePending r) (raqId r) (tRex r)
     (horizon r) (distanceMeter r).
Definition set_runningTime (v : Q) (r : t) : t :=
  mk (config r) (dimensions_WIDTH r) (distanceRan r) (highestScore r) (time
     r) v (msPerFrame r) (currentSpeed r) (activated r) (playing r) (crashed r)
     (paused r) (inverted r) (invertTimer r) (invertTrigger r) (playingIntro r)
     (playCount r) (updatePending r) (raqId r) (tRex r) (horizon r)
     (distanceMeter r).
Definition set_currentSpeed (v : Q) (r : t) : t :=
  mk (config r) (dimensions_WIDTH r) (distanceRan r) (highestScore r) (time
     r) (runningTime r) (msPerFrame r) v (activated r) (playing r) (crashed r)
     (paused r) (inverted r) (invertTimer r) (invertTrigger r) (playingIntro r)
     (playCount r) (updatePending r) (raqId r) (tRex r) (horizon r)
     (distanceMeter r).
Definition set_activated (v : bool) (r : t) : t :=
  mk (config r) (dimensions_WIDTH r) (distanceRan r) (highestScore r) (time
     r) (runningTime r) (msPerFrame r) (currentSpeed r) v (playing r) (crashed
     r) (paused r) (inverted r) (invertTimer r) (invertTrigger r) (playingIntro
     r) (playCount r) (updatePending r) (raqId r) (tRex r) (horizon r)
     (distanceMeter r).
Definition set_playing (v : bool) (r : t) : t :=
  mk (config r) (dimensions_WIDTH r) (distanceRan r) (highestScore r) (time
     r) (runningTime r) (msPerFrame r) (currentSpeed r) (activated r) v
     (crashed r) (paused r) (inverted r) (invertTimer r) (invertTrigger r)
     (playingIntro r) (playCount r) (updatePending r) (raqId r) (tRex r)
     (horizon r) (distanceMeter r).
Definition set_crashed (v : bool) (r : t) : t :=
  mk (config r) (dimensions_WIDTH r) (distanceRan r) (highestScore r) (time
     r) (runningTime r) (msPerFrame r) (currentSpeed r) (activated r) (playing
     r) v (paused r) (inverted r) (invertTimer r) (invertTrigger r)
     (playingIntro r) (playCount r) (updatePending r) (raqId r) (tRex r)
     (horizon r) (distanceMeter r).
Definition set_paused (v : bool) (r : t) : t :=
  mk (config r) (dimensions_WIDTH r) (distanceRan r) (highestScore r) (time
     r) (runningTime r) (msPerFrame r) (currentSpeed r) (activated r) (playing
     r) (crashed r) v (inverted r) (invertTimer r) (invertTrigger r)
     (playingIntro r) (playCount r) (updatePending r) (raqId r) (tRex r)
     (horizon r) (distanceMeter r).
Definition set_inverted (v : bool) (r : t) : t :=
  mk (config r) (dimensions_WIDTH r) (distanceRan r) (highestScore r) (time
     r) (runningTime r) (msPerFrame r) (currentSpeed r) (activated r) (playing
     r) (crashed r) (paused r) v (invertTimer r) (invertTrigger r)
     (playingIntro r) (playCount r) (updatePending r) (raqId r) (tRex r)
     (horizon r) (distanceMeter r).
Definition set_invertTimer (v : Q) (r : t) : t :=
  mk (config r) (dimensions_WIDTH r) (distanceRan r) (highestScore r) (time
     r) (runningTime r) (msPerFrame r) (currentSpeed r) (activated r) (playing
     r) (crashed r) (paused r) (inverted r) v (invertTrigger r) (playingIntro
     r) (playCount r) (updatePending r) (raqId r) (tRex r) (horizon r)
     (distanceMeter r).
Definition set_invertTrigger (v : bool) (r : t) : t :=
  mk (config r) (dimensions_WIDTH r) (distanceRan r) (highestScore r) (time
     r) (runningTime r) (msPerFrame r) (currentSpeed r) (activated r) (playing
     r) (crashed r) (paused r) (inverted r) (invertTimer r) v (playingIntro r)
     (playCount r) (updatePending r) (raqId r) (tRex r) (horizon r)
     (distanceMeter r).
Definition set_playingIntro (v : bool) (r : t) : t :=
  mk (config r) (dimensions_WIDTH r) (distanceRan r) (highestScore r) (time
     r) (runningTime r) (msPerFrame r) (currentSpeed r) (activated r) (playing
     r) (crashed r) (paused r) (inverted r) (invertTimer r) (invertTrigger r) v
     (playCount r) (updatePending r) (raqId r) (tRex r) (horizon r)
     (distanceMeter r).
Definition set_playCount (v : Q) (r : t) : t :=
  mk (config r) (dimensions_WIDTH r) (distanceRan r) (highestScore r) (time
     r) (runningTime r) (msPerFrame r) (currentSpeed r) (activated r) (playing
     r) (crashed r) (paused r) (inverted r) (invertTimer r) (invertTrigger r)
     (playingIntro r) v (updatePending r) (raqId r) (tRex r) (horizon r)
     (distanceMeter r).
Definition set_updatePending (v : bool) (r : t) : t :=
  mk (config r) (dimensions_WIDTH r) (distanceRan r) (highestScore r) (time
     r) (runningTime r) (msPerFrame r) (currentSpeed r) (activated r) (playing
     r) (crashed r) (paused r) (inverted r) (invertTimer r) (invertTrigger r)
     (playingIntro r) (playCount r) v (raqId r) (tRex r) (horizon r)
     (distanceMeter r).
Definition set_raqId (v : Q) (r : t) : t :=
  mk (config r) (dimensions_WIDTH r) (distanceRan r) (highestScore r) (time
     r) (runningTime r) (msPerFrame r) (currentSpeed r) (activated r) (playing
     r) (crashed r) (paused r) (inverted r) (invertTimer r) (invertTrigger r)
     (playingIntro r) (playCount r) (updatePending r) v (tRex r) (horizon r)
     (distanceMeter r).
Definition set_tRex (v : Trex.t) (r : t) : t :=
  mk (config r) (dimensions_WIDTH r) (distanceRan r) (highestScore r) (time
     r) (runningTime r) (msPerFrame r) (currentSpeed r) (activated r) (playing
     r) (crashed r) (paused r) (inverted r) (invertTimer r) (invertTrigger r)
     (playingIntro r) (playCount r) (updatePending r) (raqId r) v (horizon r)
     (distanceMeter r).
Definition set_horizon (v : Horizon.t) (r : t) : t :=
  mk (config r) (dimensions_WIDTH r) (distanceRan r) (highestScore r) (time
     r) (runningTime r) (msPerFrame r) (currentSpeed r) (activated r) (playing
     r) (crashed r) (paused r) (inverted r) (invertTimer r) (invertTrigger r)
     (playingIntro r) (playCount r) (updatePending r) (raqId r) (tRex r) v
     (distanceMeter r).
Definition set_distanceMeter (v : DistanceMeter.t) (r : t) : t :=
  mk (config r) (dimensions_WIDTH r) (distanceRan r) (highestScore r) (time
     r) (runningTime r) (msPerFrame r) (currentSpeed r) (activated r) (playing
     r) (crashed r) (paused r) (inverted r) (invertTimer r) (invertTrigger r)
     (playingIntro r) (playCount r) (updatePending r) (raqId r) (tRex r)
     (horizon r) v.

(** Sequencing of calls that may not return. *)
Definition bindO {A B} (m : IO (option A)) (f : A -> IO (option B))
  : IO (option B) :=
  a <- m ;; match a with Some x => f x | None => ret None end.

Notation "x <-? m ;; k" := (bindO m (fun x => k))
  (at level 61, m at next level, right associativity) : io_scope.

(** The tweak of the constructor for low-end devices. *)
Definition lowEndConfig (c : RunnerConfig.t) : RunnerConfig.t :=
  RunnerConfig.mk
    (RunnerConfig.ACCELERATION c * 0.8)
    (RunnerConfig.BG_CLOUD_SPEED c) (RunnerConfig.BOTTOM_PAD c)
    (RunnerConfig.CLEAR_TIME c) (RunnerConfig.CLOUD_FREQUENCY c)
    (RunnerConfig.GAMEOVER_CLEAR_TIME c) (RunnerConfig.GAP_COEFFICIENT c)
    (RunnerConfig.GRAVITY c) (RunnerConfig.INITIAL_JUMP_VELOCITY c)
    (RunnerConfig.INVERT_FADE_DURATION c) (RunnerConfig.INVERT_DISTANCE c)
    (RunnerConfig.MAX_BLINK_COUNT c) (RunnerConfig.MAX_CLOUDS c)
    (RunnerConfig.MAX_OBSTACLE_LENGTH c) (RunnerConfig.MAX_OBSTACLE_DUPLICATION c)
    (JS.Math_min (RunnerConfig.MAX_SPEED c) 10)
    (RunnerConfig.MIN_JUMP_HEIGHT c) (RunnerConfig.MOBILE_SPEED_COEFFICIENT c)
    (RunnerConfig.SPEED c) (RunnerConfig.SPEED_DROP_COEFFICIENT c).

(** [setSpeed(opt_speed)] *)
Definition setSpeed (opt_speed : option Q) (r : t) : t :=
  let speed := match opt_speed with
               | Some v => if JS.truthy v then v else currentSpeed r
               | None => currentSpeed r
               end in
  if JS.ltb (dimensions_WIDTH r) DEFAULT_WIDTH then
    let mobileSpeed := speed * dimensions_WIDTH r / DEFAULT_WIDTH
                       * RunnerConfig.MOBILE_SPEED_COEFFICIENT (config r) in
    set_currentSpeed (if JS.gtb mobileSpeed speed then speed else mobileSpeed) r
  else
    match opt_speed with
    | Some v => if JS.truthy v then set_currentSpeed v r else r
    | None => r
    end.

(** The width that [adjustDimensions()] gives the canvas. *)
Definition adjustedWidth (env : Env) : Q :=
  let w := JS.Math_min DEFAULT_WIDTH (containerWidth env) in
  if IS_MOBILE env || JS.leb (innerWidth env) 768
  then JS.Math_min (innerWidth env * 0.95) DEFAULT_WIDTH
  else w.

(** [startGame()] *)
Definition startGame (r : t) : t :=
  set_playCount (playCount r + 1)
    (set_tRex (Trex.set_playingIntro false (tRex r))
       (set_playingIntro false (set_runningTime 0 r))).

(** [stop()] *)
Definition stop (r : t) : t :=
  set_raqId 0 (set_paused true (set_playing false r)).

(** [scheduleNextUpdate()]; the handle of the request is a number other
    than 0, of which only the truth value is read. *)
Definition scheduleNextUpdate (r : t) : t :=
  if negb (updatePending r)
  then set_raqId 1 (set_updatePending true r)
  else r.

(** [isRunning()] *)
Definition isRunning (r : t) : bool := JS.truthy (raqId r).

(** [invert(reset)] *)
Definition invert (reset : bool) (r : t) : t :=
  if reset then set_inverted false (set_invertTimer 0 r)
  else set_inverted (invertTrigger r) r.

(** [gameOver()] *)
Definition gameOver (r : t) : IO t :=
  let r := set_crashed true (stop r) in
  let m := distanceMeter r in
  let r := set_distanceMeter
             (DistanceMeter.mk (DistanceMeter.x m) (DistanceMeter.maxScore m)
                (DistanceMeter.highScore m) (DistanceMeter.digits m) false
                (DistanceMeter.defaultString m) (DistanceMeter.flashTimer m)
                (DistanceMeter.flashIterations m) (DistanceMeter.config m)
                (DistanceMeter.maxScoreUnits m)) r in
  tr <- Trex.update 100 (Some Trex.CRASHED) (tRex r) ;;
  let r := set_tRex tr r in
  let currentScore := JS.Math_ceil (distanceRan r) in
  let r :=
    if JS.gtb currentScore (highestScore r)
    then set_distanceMeter
           (DistanceMeter.setHighScore currentScore (distanceMeter r))
           (set_highestScore currentScore r)
    else r in
  now <- getTimeStamp ;;
  ret (set_time now r).

(** [restart()], over the [update] it ends with. *)
Definition restart_with (upd : t -> IO (option t)) (r : t) : IO (option t) :=
  if negb (JS.truthy (raqId r)) then
    let r := set_distanceRan 0
               (set_crashed false
                  (set_playing true
                     (set_runningTime 0 (set_playCount (playCount r + 1) r)))) in
    let r := setSpeed (Some (RunnerConfig.SPEED (config r))) r in
    now <- getTimeStamp ;;
    let r := set_distanceMeter (DistanceMeter.reset (distanceMeter r))
               (set_time now r) in
    h <- Horizon.reset (horizon r) ;;
    tr <- Trex.reset (tRex r) ;;
    upd (invert true (set_tRex tr (set_horizon h r)))
  else ret (Some r).

(** [playIntro()] *)
Definition playIntro_with (upd : t -> IO (option t)) (env : Env) (r : t)
  : IO (option t) :=
  if negb (activated r) && negb (crashed r) then
    let r := set_tRex (Trex.set_playingIntro true (tRex r))
               (set_playingIntro true r) in
    if IS_MOBILE env || JS.leb (innerWidth env) 768
    then ret (Some (startGame r))
    else ret (Some (set_activated true (set_playing true r)))
  else if crashed r then restart_with upd r
  else ret (Some r).

(** The speed after a tick without collision. *)
Definition accelerate (cfg : RunnerConfig.t) (speed : Q) : Q :=
  if JS.ltb speed (RunnerConfig.MAX_SPEED cfg)
  then speed + RunnerConfig.ACCELERATION cfg else speed.

(** The night-mode statements of [update()]. *)
Definition updateInvert (deltaTime : Q) (r : t) : t :=
  if JS.gtb (invertTimer r) (RunnerConfig.INVERT_FADE_DURATION (config r)) then
    invert false (set_invertTrigger false (set_invertTimer 0 r))
  else if JS.truthy (invertTimer r) then
    set_invertTimer (invertTimer r + deltaTime) r
  else
    let actualDistance :=
      DistanceMeter.getActualDistance (distanceMeter r)
        (JS.Math_ceil (distanceRan r)) in
    if JS.gtb actualDistance 0 then
      let r := set_invertTrigger
                 (negb (JS.truthy
                          (JS.rem actualDistance
                             (RunnerConfig.INVERT_DISTANCE (config r))))) r in
      if invertTrigger r && JS.eqb (invertTimer r) 0
      then invert false (set_invertTimer (invertTimer r + deltaTime) r)
      else r
    else r.

(** The collision test of [update()]: [hasObstacles &&
    checkForCollision(this.horizon.obstacles[0], this.tRex)].  The outer
    [None] stands for the error raised when the array is empty. *)
Definition collisionTest (hasObstacles : bool) (r : t)
  : option (option (CollisionBox.t * CollisionBox.t)) :=
  if hasObstacles
  then match Horizon.obstacles (horizon r) with
       | o :: _ => Some (checkForCollision o (tRex r))
       | [] => None
       end
  else Some None.

(** The statements of [update()] that follow the collision test: the
    distance and the speed grow when there is no collision, and the game
    is over when there is one. *)
Definition afterCollisionTest (deltaTime : Q)
    (collision : option (CollisionBox.t * CollisionBox.t)) (r : t) : IO t :=
  match collision with
  | None =>
      ret (set_currentSpeed (accelerate (config r) (currentSpeed r))
             (set_distanceRan
                (distanceRan r + currentSpeed r * deltaTime / msPerFrame r) r))
  | Some _ => gameOver r
  end.

(** The block [if (this.playing) { ... }] of [update()]; it returns the
    runner and the [deltaTime] that the rest of [update()] uses. *)
Definition whilePlaying (upd : t -> IO (option t)) (fuel : nat) (env : Env)
    (deltaTime : Q) (r : t) : IO (option (t * Q)) :=
  tr <- (if Trex.jumping (tRex r)
         then Trex.updateJump deltaTime (tRex r)
         else ret (tRex r)) ;;
  let r := set_tRex tr r in
  let r := set_runningTime (runningTime r + deltaTime) r in
  let hasObstacles :=
    JS.gtb (runningTime r) (RunnerConfig.CLEAR_TIME (config r)) in
  r <-? (if JS.eqb (Trex.jumpCount (tRex r)) 1 && negb (playingIntro r)
         then playIntro_with upd env r
         else ret (Some r)) ;;
  let deltaTime :=
    if playingIntro r then deltaTime
    else if negb (activated r) then 0 else deltaTime in
  h <-? (if playingIntro r
         then Horizon.update fuel (config r) (IS_MOBILE env)
                0 (currentSpeed r) hasObstacles false (horizon r)
         else Horizon.update fuel (config r) (IS_MOBILE env)
                deltaTime (currentSpeed r) hasObstacles (inverted r)
                (horizon r)) ;;
  let r := set_horizon h r in
  match collisionTest hasObstacles r with
  | None => ret None
  | Some collision =>
      r <- afterCollisionTest deltaTime collision r ;;
      let u := DistanceMeter.update deltaTime (JS.Math_ceil (distanceRan r))
                 (distanceMeter r) in
      let r := set_distanceMeter (DistanceMeter.meter u) r in
      ret (Some (updateInvert deltaTime r, deltaTime))
  end.

(** The last statements of [update()]: the T-rex is animated and the next
    tick requested while the game plays or the T-rex still blinks. *)
Definition animateAndSchedule (deltaTime : Q) (r : t) : IO t :=
  if playing r
     || (negb (activated r)
         && JS.ltb (Trex.blinkCount (tRex r))
              (RunnerConfig.MAX_BLINK_COUNT (config r)))
  then tr <- Trex.update deltaTime None (tRex r) ;;
       ret (scheduleNextUpdate (set_tRex tr r))
  else ret r.

(** [update()].  The method reaches itself again through [playIntro()]
    and [restart()], and [addNewObstacle] retries; [fuel] bounds both, and
    [None] says that the call has not returned within the bound. *)
Fixpoint update (fuel : nat) (env : Env) (r : t) {struct fuel}
  : IO (option t) :=
  match fuel with
  | O => ret None
  | S fuel' =>
      let r := set_updatePending false r in
      now <- getTimeStamp ;;
      let deltaTime := now - (if JS.truthy (time r) then time r else now) in
      let r := set_time now r in
      rd <-? (if playing r
              then whilePlaying (update fuel' env) fuel' env deltaTime r
              else ret (Some (r, deltaTime))) ;;
      r' <- animateAndSchedule (snd rd) (fst rd) ;;
      ret (Some r')
  end.

(** [restart()] and [playIntro()] *)
Definition restart (fuel : nat) (env : Env) : t -> IO (option t) :=
  restart_with (update fuel env).

Definition playIntro (fuel : nat) (env : Env) : t -> IO (option t) :=
  playIntro_with (update fuel env) env.

(** [play()] *)
Definition play (fuel : nat) (env : Env) (r : t) : IO (option t) :=
  if negb (crashed r) then
    tr <- Trex.update 0 (Some Trex.RUNNING) (tRex r) ;;
    now <- getTimeStamp ;;
    update fuel env
      (set_time now (set_tRex tr (set_paused false (set_playing true r))))
  else ret (Some r).

(** The constructor followed by [init()]. *)
Definition new (fuel : nat) (env : Env) : IO (option t) :=
  let cfg := if isLowEndDevice env
             then lowEndConfig RunnerConfig.default else RunnerConfig.default in
  let width := adjustedWidth env in
  let mobile := IS_MOBILE env || JS.leb (innerWidth env) 768 in
  h <- Horizon.new 2 width (RunnerConfig.GAP_COEFFICIENT cfg) ;;
  tr <- Trex.new Trex.default_config (RunnerConfig.BOTTOM_PAD cfg) ;;
  let r := mk cfg width 0
             (if isTelegramEnvironment env
              then (if JS.truthy (savedHighScore env) then savedHighScore env else 0)
              else 0)
             0 0 (1000 / FPS) (RunnerConfig.SPEED cfg)
             (mobile || isTelegramEnvironment env)
             false false false false 0 false false 0 false 0
             tr h (DistanceMeter.new DistanceMeter.default_config width) in
  update fuel env (setSpeed None r).

End Runner.

(** ** The speed on IEEE doubles *)

(** The speed statements of [update()] — [if (this.currentSpeed <
    this.config.MAX_SPEED) this.currentSpeed += this.config.ACCELERATION] —
    on the binary64 numbers that JavaScript computes with. *)
Module Double.

Definition MAX_SPEED : float := 13%float.
Definition SPEED : float := 6%float.

(** The double nearest to 0.001, which is what the literal denotes. *)
Definition ACCELERATION : float := 0x1.0624dd2f1a9fcp-10%float.

Definition accelerate (speed : float) : float :=
  if PrimFloat.ltb speed MAX_SPEED then PrimFloat.add speed ACCELERATION
  else speed.

(** The speed after [n] ticks without collision. *)
Fixpoint ticks (n : nat) (speed : float) : float :=
  match n with
  | O => speed
  | S k => ticks k (accelerate speed)
  end.

(** The rational that a finite double is. *)
Definition value (f : float) : Q :=
  match Prim2SF f with
  | S754_finite s m e => (if s then -1 else 1) * inject_Z (Zpos m) * JS.pow2 e
  | _ => 0
  end.

(** Do the product, the sum and the quotient of [a] and [b] on the
    machine agree with [JS.mul], [JS.add] and [JS.div]? *)
Definition agrees (ab : float * float) : bool :=
  let (a, b) := ab in
  Qeq_bool (value (PrimFloat.mul a b)) (JS.mul (value a) (value b))
  && Qeq_bool (value (PrimFloat.add a b)) (JS.add (value a) (value b))
  && Qeq_bool (value (PrimFloat.div a b)) (JS.div (value a) (value b)).

End Double.

(** * Specification vocabulary *)

(** ** Boxes *)

(** Two boxes overlap when their intervals intersect on both axes. *)
Definition overlaps (a b : CollisionBox.t) : Prop :=
  CollisionBox.x a < CollisionBox.x b + CollisionBox.width b /\
  CollisionBox.x b < CollisionBox.x a + CollisionBox.width a /\
  CollisionBox.y a < CollisionBox.y b + CollisionBox.height b /\
  CollisionBox.y b < CollisionBox.y a + CollisionBox.height a.

(** A box moved to world coordinates by the position of its owner. *)
Definition translate (b : CollisionBox.t) (dx dy : Q) : CollisionBox.t :=
  CollisionBox.new (CollisionBox.x b + dx) (CollisionBox.y b + dy)
    (CollisionBox.width b) (CollisionBox.height b).

Definition tRexBoxes (tRex : Trex.t) : list CollisionBox.t :=
  if Trex.ducking tRex
  then Trex.collisionBoxes_DUCKING else Trex.collisionBoxes_RUNNING.

(** Some collision box of the T-rex overlaps some collision box of the
    obstacle, both in world coordinates. *)
Definition some_boxes_overlap (obstacle : Obstacle.t) (tRex : Trex.t) : Prop :=
  exists tb ob,
    In tb (tRexBoxes tRex) /\
    In ob (Obstacle.collisionBoxes obstacle) /\
    overlaps (translate tb (Trex.xPos tRex) (Trex.yPos tRex))
             (translate ob (Obstacle.xPos obstacle) (Obstacle.yPos obstacle)).

(** A T-rex of the default configuration standing at [x], [y]. *)
Definition tRex_at (x y : Q) (ducking : bool) : Trex.t :=
  Trex.mk Trex.default_config x y 93 63 0
    (Trex.animFrames_frames (if ducking then Trex.DUCKING else Trex.RUNNING))
    0 0 0 0
    (Trex.animFrames_msPerFrame (if ducking then Trex.DUCKING else Trex.RUNNING))
    (if ducking then Trex.DUCKING else Trex.RUNNING)
    false ducking 0 false false 0 false false.

(** A single obstacle of the [n]-th type of the table at [x]. *)
Definition obstacle_at (tc : ObstacleType.t) (x y : Q) : Obstacle.t :=
  Obstacle.mk tc 0.6 1 600 false x y (ObstacleType.width tc)
    (ObstacleType.collisionBoxes tc) 0 0 0 0 false.

Definition CACTUS_SMALL : ObstacleType.t :=
  nth 0 Obstacle.types (ObstacleType.mk "" 0 0 (inl 0) [] 0 0 0 [] None None None).
Definition PTERODACTYL : ObstacleType.t := nth 2 Obstacle.types CACTUS_SMALL.

(** ** Worlds *)

(** The world in which [Math.random()] returns the fractional parts of
    the numbers of [l], then of [d] for ever; the clock stands at 0. *)
Definition world_of (l : list Q) (d : Q) : World :=
  mkWorld (fun k => nth k l d) 0 (fun _ => 0) 0.

(** The world [w] with the next-but-[n] value of [Math.random()] replaced. *)
Definition with_draw (w : World) (n : nat) (r : Q) : World :=
  mkWorld (fun k => if (k =? n + random_calls w)%nat then r else random w k)
    (random_calls w) (clock w) (clock_calls w).

(** A small cactus that has scrolled off the left edge and was flagged. *)
Definition removed_cactus : Obstacle.t :=
  Obstacle.update 100 6 (obstacle_at CACTUS_SMALL (-15) 105).

(** The number of calls of [Math.random()] that the constructor of an
    obstacle of type [tc] makes before it draws the gap: one for the size,
    one for the height of an obstacle of variable height and one for the
    sign of a speed offset. *)
Definition draws_before_gap (tc : ObstacleType.t) : nat :=
  (1 + (match ObstacleType.yPos tc with inr _ => 1 | inl _ => 0 end)
     + (if JS.truthy_opt (ObstacleType.speedOffset tc) then 1 else 0))%nat.

(** The fractional part, which is what [Math_random] returns. *)
Definition frac (q : Q) : Q := q - JS.Math_floor q.

(** ** The distance meter *)

(** The test under which [update] widens the display. *)
Definition widens (distance : Q) (m : DistanceMeter.t) : bool :=
  negb (DistanceMeter.acheivement m)
  && JS.gtb (DistanceMeter.getActualDistance m distance) (DistanceMeter.maxScore m)
  && JS.eqb (DistanceMeter.maxScoreUnits m)
       (DistanceMeter.MAX_DISTANCE_UNITS (DistanceMeter.config m)).

(** A sequence of calls [update(deltaTime, distance)]. *)
Fixpoint meter_updates (calls : list (Q * Q)) (m : DistanceMeter.t)
  : DistanceMeter.t :=
  match calls with
  | [] => m
  | (deltaTime, distance) :: rest =>
      meter_updates rest (DistanceMeter.meter (DistanceMeter.update deltaTime distance m))
  end.

(** [n] calls with the same arguments. *)
Definition meter_ticks (n : nat) (deltaTime distance : Q) (m : DistanceMeter.t)
  : DistanceMeter.t :=
  meter_updates (repeat (deltaTime, distance) n) m.

(** The meter of a new game on a canvas 600 pixels wide. *)
Definition meter0 : DistanceMeter.t :=
  DistanceMeter.new DistanceMeter.default_config 600.

(** ** Night mode *)

(** A sequence of calls [update(activated)]. *)
Fixpoint night_updates (acts : list bool) (o : NightMode.t) : IO NightMode.t :=
  match acts with
  | [] => ret o
  | activated :: rest =>
      o' <- NightMode.update activated o ;; night_updates rest o'
  end.

(** The night mode of a new horizon 600 pixels wide. *)
Definition night0 : NightMode.t :=
  fst (NightMode.new 600 (world_of [] 0)).

(** ** The T-rex *)

(** The height reached by the integration step of [updateJump]. *)
Definition integrated_yPos (deltaTime : Q) (o : Trex.t) : Q :=
  let framesElapsed := deltaTime / Trex.animFrames_msPerFrame (Trex.status o) in
  if Trex.speedDrop o
  then Trex.yPos o + JS.Math_round
         (Trex.jumpVelocity o * Trex.SPEED_DROP_COEFFICIENT (Trex.config o)
          * framesElapsed)
  else Trex.yPos o + JS.Math_round (Trex.jumpVelocity o * framesElapsed).

(** A T-rex of the default configuration in the air at height [y], falling
    with velocity [v], after [jumps] completed jumps. *)
Definition tRex_falling (y v : Q) (speedDrop : bool) (jumps : Q) : Trex.t :=
  Trex.mk Trex.default_config 50 y 93 63 0
    (Trex.animFrames_frames Trex.JUMPING) 0 0 0 0
    (Trex.animFrames_msPerFrame Trex.JUMPING) Trex.JUMPING
    true false v true speedDrop jumps false false.

(** ** The spawner *)

(** The type of the obstacle pushed last. *)
Definition lastPushed (h : Horizon.t) : string :=
  match rev (Horizon.obstacles h) with
  | o :: _ => ObstacleType.type (Obstacle.typeConfig o)
  | [] => ""%string
  end.

(** A sequence of calls [addNewObstacle(speed)], one for each speed of
    the list: the types of the obstacles pushed, in the order of the
    calls.  The sequence ends at the first call that does not return. *)
Fixpoint spawned (fuel : nat) (cfg : RunnerConfig.t) (IS_MOBILE : bool)
    (speeds : list Q) (h : Horizon.t) (w : World) : list string :=
  match speeds with
  | [] => []
  | speed :: rest =>
      match Horizon.addNewObstacle fuel cfg IS_MOBILE speed h w with
      | (Some h', w') =>
          lastPushed h' :: spawned fuel cfg IS_MOBILE rest h' w'
      | (None, _) => []
      end
  end.

(** Runs of identical consecutive entries, found by one pass from left
    to right: the entry seen last, the length of the run it ends and the
    length of the longest run so far. *)
Record RunScan := mkRunScan {
  last_type : option string;
  current : nat;
  best : nat
}.

Definition scan_step (s : RunScan) (ty : string) : RunScan :=
  let cur := match last_type s with
             | Some prev => if String.eqb prev ty then S (current s) else 1%nat
             | None => 1%nat
             end in
  mkRunScan (Some ty) cur (Nat.max (best s) cur).

Definition scan_runs (l : list string) : RunScan :=
  fold_left scan_step l (mkRunScan None 0 0).

(** The length of the longest run of identical consecutive entries. *)
Definition longestRun (l : list string) : nat := best (scan_runs l).



(** The horizon of a new game 600 pixels wide. *)
Definition horizon0 : Horizon.t :=
  fst (Horizon.new 2 600 0.6 (world_of [] 0)).

(** The fields of the T-rex that the animation bookkeeping of [update]
    never writes. *)
Definition core (o : Trex.t) : Trex.Status * Q * Q * bool * bool * bool * Q :=
  (Trex.status o, Trex.yPos o, Trex.groundYPos o, Trex.jumping o,
   Trex.ducking o, Trex.speedDrop o, Trex.jumpCount o).

(** The T-rex at the point where [updateJump] tests for the landing: the
    position and the velocity are integrated and the height flags set. *)
Definition before_landing (deltaTime : Q) (o : Trex.t) : Trex.t :=
  let framesElapsed := deltaTime / Trex.animFrames_msPerFrame (Trex.status o) in
  let o := Trex.set_yPos (integrated_yPos deltaTime o) o in
  let o := Trex.set_jumpVelocity
             (Trex.jumpVelocity o + Trex.GRAVITY (Trex.config o) * framesElapsed) o in
  let o := if JS.ltb (Trex.yPos o) (Trex.minJumpHeight o) || Trex.speedDrop o
           then Trex.set_reachedMinHeight true o else o in
  if JS.ltb (Trex.yPos o) (Trex.MAX_JUMP_HEIGHT (Trex.config o)) || Trex.speedDrop o
  then Trex.endJump o else o.

(** Values of [Math.random()] under which five calls push two small cacti,
    then draw a third one, which is sent back, then push two large cacti
    and at last a small one. *)
Definition draws_five : list Q :=
  [0; 0; 0;  0; 0; 0;  0; 0.5; 0; 0;  0.5; 0; 0;  0.5; 0; 0; 0].


(** ** The runner *)

(** A desktop page 600 pixels wide. *)
Definition desktop : Runner.Env :=
  Runner.mkEnv false false false 1280 600 0.

(** The runner of that page after [init()], or [None]. *)
Definition runner0 : option Runner.t :=
  fst (Runner.new 3 desktop (world_of [] 0)).

(** The same runner in play at the given speed. *)
Definition runner_at (speed : Q) : option Runner.t :=
  match runner0 with
  | Some r => Some (Runner.set_currentSpeed speed (Runner.set_playing true r))
  | None => None
  end.

(** One tick of the runner, when there is one. *)
Definition tick (r : option Runner.t) (w : World) : option Runner.t :=
  match r with
  | Some r => fst (Runner.update 3 desktop r w)
  | None => None
  end.

Definition speed_of (r : option Runner.t) : option Q :=
  match r with Some r => Some (Runner.currentSpeed r) | None => None end.

(** The configuration and the speed of a runner. *)
Definition pace (r : Runner.t) : RunnerConfig.t * Q :=
  (Runner.config r, Runner.currentSpeed r).

(** ** Vocabulary of the further properties *)

(** An obstacle and a T-rex moved by the same offset. *)
Definition moveObstacle (dx dy : Q) (o : Obstacle.t) : Obstacle.t :=
  Obstacle.mk (Obstacle.typeConfig o) (Obstacle.gapCoefficient o)
    (Obstacle.size o) (Obstacle.dimensions_WIDTH o) (Obstacle.remove o)
    (Obstacle.xPos o + dx) (Obstacle.yPos o + dy) (Obstacle.width o)
    (Obstacle.collisionBoxes o) (Obstacle.gap o) (Obstacle.speedOffset o)
    (Obstacle.currentFrame o) (Obstacle.timer o)
    (Obstacle.followingObstacleCreated o).

Definition moveTrex (dx dy : Q) (t : Trex.t) : Trex.t :=
  Trex.set_yPos (Trex.yPos t + dy) (Trex.set_xPos (Trex.xPos t + dx) t).

(** Whether [checkForCollision] reports a collision. *)
Definition crashes (o : Obstacle.t) (t : Trex.t) : bool :=
  match checkForCollision o t with Some _ => true | None => false end.

(** The world in which the next value of [Math.random()] is [r]. *)
Definition next_draw (r : Q) : World := world_of [r] 0.

(** The size that the constructor of an obstacle draws, and the size it
    keeps: groups are allowed from the speed [multipleSpeed] of the type. *)
Definition drawnSize (w : World) : Q :=
  JS.Math_floor (frac (random w (random_calls w))
                 * (Obstacle.MAX_OBSTACLE_LENGTH - 1 + 1)) + 1.

Definition keptSize (tc : ObstacleType.t) (speed : Q) (w : World) : Q :=
  if JS.gtb (drawnSize w) 1 && JS.gtb (ObstacleType.multipleSpeed tc) speed
  then 1 else drawnSize w.

(** The speed at which an obstacle scrolls: the horizon's speed, plus the
    offset of its own for a type that has one ([Obstacle.update]). *)
Definition scrollSpeed (speed : Q) (o : Obstacle.t) : Q :=
  if JS.truthy_opt (ObstacleType.speedOffset (Obstacle.typeConfig o))
  then JS.add speed (Obstacle.speedOffset o) else speed.

(** The pixels by which [Obstacle.update(deltaTime, speed)] moves the
    obstacle, before [Math.floor]: [(speed * FPS / 1000) * deltaTime] as
    the machine computes it. *)
Definition scrollStep (deltaTime speed : Q) (o : Obstacle.t) : Q :=
  JS.mul (JS.div (JS.mul (scrollSpeed speed o) FPS) 1000) deltaTime.

(** [n] frames of [deltaTime] at a constant speed. *)
Definition Obstacle_updates (n : nat) (deltaTime speed : Q) (o : Obstacle.t)
  : Obstacle.t :=
  Nat.iter n (Obstacle.update deltaTime speed) o.

(** The fields of the T-rex that describe its flight; the animation
    bookkeeping of [update] writes none of them. *)
Definition flight (o : Trex.t) : Trex.Config * Q * Q * Q * bool * Q * bool :=
  (Trex.config o, Trex.yPos o, Trex.groundYPos o, Trex.minJumpHeight o,
   Trex.jumping o, Trex.jumpVelocity o, Trex.reachedMinHeight o).

(** What every night mode satisfies: the opacity stays from 0 to below
    [1 + FADE_SPEED], the phase of the moon is an index of
    [NightMode.phases], there are [NUM_STARS] stars, and the moon is
    between just off the left edge and the right edge of the container. *)
Definition night_ok (o : NightMode.t) : Prop :=
  (0 <= NightMode.opacity o /\
   NightMode.opacity o < 1 + NightMode.FADE_SPEED) /\
  (exists k : nat, (k < List.length NightMode.phases)%nat /\
                   NightMode.currentPhase o == inject_Z (Z.of_nat k)) /\
  List.length (NightMode.stars o) = NightMode.NUM_STARS /\
  (- NightMode.WIDTH - NightMode.MOON_SPEED <= NightMode.xPos o /\
   NightMode.xPos o <= NightMode.containerWidth o).

(** The state of the game proper: every field of the runner but the
    time of the last tick, the request for the next one and the T-rex. *)
Definition game (r : Runner.t) :=
  (Runner.config r, Runner.dimensions_WIDTH r, Runner.distanceRan r,
   Runner.highestScore r, Runner.runningTime r, Runner.msPerFrame r,
   Runner.currentSpeed r,
   (Runner.activated r, Runner.playing r, Runner.crashed r, Runner.paused r),
   (Runner.inverted r, Runner.invertTimer r, Runner.invertTrigger r),
   (Runner.playingIntro r, Runner.playCount r),
   Runner.horizon r, Runner.distanceMeter r).

(** The distance run, with the frame time it is measured in, and the
    high score. *)
Definition odo (r : Runner.t) : Q * Q * Q :=
  (Runner.distanceRan r, Runner.msPerFrame r, Runner.highestScore r).

(** The value that the next call of [getTimeStamp()] returns. *)
Definition now_of (w : World) : Q := clock w (clock_calls w).

(** A runner on a canvas 600 pixels wide that has not started to play. *)
Definition idle_runner : Runner.t :=
  Runner.mk RunnerConfig.default 600 0 0 0 0 (1000 / FPS) 6
    false false false false false 0 false false 0 false 0
    (tRex_at 0 93 false) horizon0 meter0.

(** The same runner in play, its last tick at the time [1000 / 60]. *)
Definition playing_runner : Runner.t :=
  Runner.set_time (1000 / 60)
    (Runner.set_activated true (Runner.set_playing true idle_runner)).

(** The world in which the clock stands at [t] and [Math.random()]
    returns 0. *)
Definition clock_at (t : Q) : World := mkWorld (fun _ => 0) 0 (fun _ => t) 0.

(** The two segments of the horizon line abut, and the left one starts
    at or before the left edge of the canvas and ends after it, so that
    the two cover the canvas. *)
Definition line_ok (l : HorizonLine.t) : Prop :=
  (- HorizonLine.WIDTH < HorizonLine.xPos0 l /\ HorizonLine.xPos0 l <= 0 /\
   HorizonLine.xPos1 l == HorizonLine.xPos0 l + HorizonLine.WIDTH) \/
  (- HorizonLine.WIDTH < HorizonLine.xPos1 l /\ HorizonLine.xPos1 l <= 0 /\
   HorizonLine.xPos0 l == HorizonLine.xPos1 l + HorizonLine.WIDTH).

(** [n] frames of the horizon line. *)
Fixpoint line_updates (n : nat) (deltaTime speed : Q) (l : HorizonLine.t)
  : IO HorizonLine.t :=
  match n with
  | O => ret l
  | S k => l' <- HorizonLine.update deltaTime speed l ;;
           line_updates k deltaTime speed l'
  end.

(** What the first seconds of a game leave alone: the crash flag, the
    obstacles and the configuration. *)
Definition grace (r : Runner.t) : bool * list Obstacle.t * RunnerConfig.t :=
  (Runner.crashed r, Horizon.obstacles (Runner.horizon r), Runner.config r).
(** * Properties *)

(** ** Arithmetic on doubles *)

Lemma pow2_pos (e : Z) : 0 < JS.pow2 e.
Proof. apply Qpower_0_lt. reflexivity. Qed.

Lemma pow2_plus (a b : Z) : JS.pow2 (a + b) == JS.pow2 a * JS.pow2 b.
Proof. apply Qpower_plus. discriminate. Qed.

Lemma pow2_le (a b : Z) : (a <= b)%Z -> JS.pow2 a <= JS.pow2 b.
Proof. intro H. apply Qpower_le_compat_l; [exact H | discriminate]. Qed.

Lemma pow2_lt_inv (a b : Z) : JS.pow2 a < JS.pow2 b -> (a < b)%Z.
Proof. intro H. apply (Qpower_lt_compat_l_inv (2 # 1)); [exact H | reflexivity]. Qed.

Lemma pow2_Z (n : Z) : (0 <= n)%Z -> JS.pow2 n == inject_Z (2 ^ n).
Proof. intro H. unfold JS.pow2. rewrite Zpower_Qpower by exact H. reflexivity. Qed.

(** The bounds that [Z.log2] gives on a positive rational. *)
Lemma log2_bounds (q : Q) :
  0 < q ->
  let k := (Z.log2 (Qnum q) - Z.log2 (Zpos (Qden q)))%Z in
  JS.pow2 (k - 1) < q /\ q < JS.pow2 (k + 1).
Proof.
  intros Hq k. destruct q as [n d]. unfold k; clear k. cbn [Qnum Qden].
  assert (Hn : (0 < n)%Z).
  { unfold Qlt in Hq. cbn in Hq. lia. }
  destruct (Z.log2_spec n Hn) as [N1 N2].
  destruct (Z.log2_spec (Zpos d) ltac:(lia)) as [D1 D2].
  set (ln := Z.log2 n) in *. set (ld := Z.log2 (Zpos d)) in *.
  assert (Ln : (0 <= ln)%Z) by apply Z.log2_nonneg.
  assert (Ld : (0 <= ld)%Z) by apply Z.log2_nonneg.
  assert (E1 : JS.pow2 (ln - ld - 1) == inject_Z (2 ^ ln) / inject_Z (2 ^ Z.succ ld)).
  { replace (ln - ld - 1)%Z with (ln - Z.succ ld)%Z by lia.
    unfold JS.pow2. rewrite Qpower_minus by discriminate.
    fold (JS.pow2 ln). fold (JS.pow2 (Z.succ ld)).
    rewrite !pow2_Z by lia. reflexivity. }
  assert (E2 : JS.pow2 (ln - ld + 1) == inject_Z (2 ^ Z.succ ln) / inject_Z (2 ^ ld)).
  { replace (ln - ld + 1)%Z with (Z.succ ln - ld)%Z by lia.
    unfold JS.pow2. rewrite Qpower_minus by discriminate.
    fold (JS.pow2 ld). fold (JS.pow2 (Z.succ ln)).
    rewrite !pow2_Z by lia. reflexivity. }
  assert (Eq : n # d == inject_Z n / inject_Z (Zpos d)) by apply Qmake_Qdiv.
  assert (P1 : (0 < 2 ^ Z.succ ld)%Z) by (apply Z.pow_pos_nonneg; lia).
  assert (P2 : (0 < 2 ^ ld)%Z) by (apply Z.pow_pos_nonneg; lia).
  rewrite E1, E2, Eq. split.
  - apply Qlt_shift_div_l.
    + change 0 with (inject_Z 0). rewrite <- Zlt_Qlt. lia.
    + unfold Qdiv. rewrite <- Qmult_assoc, (Qmult_comm (/ _)), Qmult_assoc.
      apply Qlt_shift_div_r.
      * change 0 with (inject_Z 0). rewrite <- Zlt_Qlt. exact P1.
      * rewrite <- !inject_Z_mult. rewrite <- Zlt_Qlt. nia.
  - apply Qlt_shift_div_r.
    + change 0 with (inject_Z 0). rewrite <- Zlt_Qlt. lia.
    + unfold Qdiv. rewrite <- Qmult_assoc, (Qmult_comm (/ _)), Qmult_assoc.
      apply Qlt_shift_div_l.
      * change 0 with (inject_Z 0). rewrite <- Zlt_Qlt. exact P2.
      * rewrite <- !inject_Z_mult. rewrite <- Zlt_Qlt. nia.
Qed.

Lemma exponent_spec (q : Q) :
  0 < q -> JS.pow2 (JS.exponent q) <= q /\ q < JS.pow2 (JS.exponent q + 1).
Proof.
  intro Hq. destruct (log2_bounds q Hq) as [L U]. unfold JS.exponent. cbv zeta.
  set (k := (Z.log2 (Qnum q) - Z.log2 (Zpos (Qden q)))%Z) in *.
  destruct (Qle_bool (JS.pow2 k) q) eqn:E.
  - apply Qle_bool_iff in E. split; assumption.
  - split; [apply Qlt_le_weak; exact L|].
    replace (k - 1 + 1)%Z with k by lia.
    apply Qnot_le_lt. intro H. apply Qle_bool_iff in H. congruence.
Qed.

Lemma exponent_unique (q : Q) (e : Z) :
  JS.pow2 e <= q -> q < JS.pow2 (e + 1) -> JS.exponent q = e.
Proof.
  intros H1 H2.
  assert (Hq : 0 < q) by (eapply Qlt_le_trans; [apply (pow2_pos e) | exact H1]).
  destruct (exponent_spec q Hq) as [S1 S2].
  assert (A : (JS.exponent q < e + 1)%Z).
  { apply pow2_lt_inv. eapply Qle_lt_trans; [exact S1 | exact H2]. }
  assert (B : (e < JS.exponent q + 1)%Z).
  { apply pow2_lt_inv. eapply Qle_lt_trans; [exact H1 | exact S2]. }
  lia.
Qed.

Lemma exponent_proper (x y : Q) : 0 < x -> x == y -> JS.exponent x = JS.exponent y.
Proof.
  intros Hx E. destruct (exponent_spec x Hx) as [S1 S2].
  symmetry. apply exponent_unique; rewrite <- E; assumption.
Qed.

Lemma nearest_even_proper (x y : Q) : x == y -> JS.nearest_even x = JS.nearest_even y.
Proof.
  intro E. unfold JS.nearest_even. cbv zeta.
  assert (Ef : Qfloor x = Qfloor y) by (rewrite E; reflexivity).
  rewrite Ef.
  assert (Er : x - inject_Z (Qfloor y) == y - inject_Z (Qfloor y))
    by (rewrite E; reflexivity).
  assert (E1 : Qle_bool (x - inject_Z (Qfloor y)) (1 # 2)
               = Qle_bool (y - inject_Z (Qfloor y)) (1 # 2))
    by (rewrite Er; reflexivity).
  assert (E2 : Qeq_bool (x - inject_Z (Qfloor y)) (1 # 2)
               = Qeq_bool (y - inject_Z (Qfloor y)) (1 # 2))
    by (rewrite Er; reflexivity).
  rewrite E1, E2. reflexivity.
Qed.

Lemma nearest_even_bounds (q : Q) :
  q - (1 # 2) <= inject_Z (JS.nearest_even q) /\
  inject_Z (JS.nearest_even q) <= q + (1 # 2).
Proof.
  unfold JS.nearest_even. cbv zeta.
  pose proof (Qfloor_le q) as H1. pose proof (Qlt_floor q) as H2.
  rewrite inject_Z_plus in H2. change (inject_Z 1) with 1 in H2.
  destruct (Qle_bool (q - inject_Z (Qfloor q)) (1 # 2)) eqn:L.
  - apply Qle_bool_iff in L.
    destruct (Qeq_bool _ _) eqn:T.
    + apply Qeq_bool_iff in T.
      destruct (Z.even (Qfloor q)).
      * split; lra.
      * rewrite inject_Z_plus. change (inject_Z 1) with 1. split; lra.
    + split; lra.
  - assert (L' : (1 # 2) < q - inject_Z (Qfloor q)).
    { apply Qnot_le_lt. intro H. apply Qle_bool_iff in H. congruence. }
    rewrite inject_Z_plus. change (inject_Z 1) with 1. split; lra.
Qed.

Lemma nearest_even_nonneg (q : Q) : 0 <= q -> (0 <= JS.nearest_even q)%Z.
Proof.
  intro H. unfold JS.nearest_even. cbv zeta.
  assert (F : (0 <= Qfloor q)%Z).
  { rewrite <- (Qfloor_Z 0). apply Qfloor_resp_le. exact H. }
  destruct (Qle_bool _ _); [|lia].
  destruct (Qeq_bool _ _); [|lia].
  destruct (Z.even _); lia.
Qed.

Lemma round64_pos_nonneg (q : Q) : 0 < q -> 0 <= JS.round64_pos q.
Proof.
  intro H. unfold JS.round64_pos. cbv zeta.
  apply Qmult_le_0_compat; [|apply Qlt_le_weak, pow2_pos].
  change 0 with (inject_Z 0). rewrite <- Zle_Qle.
  apply nearest_even_nonneg.
  apply Qlt_le_weak. apply Qlt_shift_div_l; [apply pow2_pos|]. lra.
Qed.

Lemma round64_pos_proper (x y : Q) :
  0 < x -> x == y -> JS.round64_pos x = JS.round64_pos y.
Proof.
  intros Hx E. unfold JS.round64_pos. cbv zeta.
  rewrite (exponent_proper x y Hx E).
  rewrite (nearest_even_proper (x / _) (y / _)) by (rewrite E; reflexivity).
  reflexivity.
Qed.

Lemma round64_proper (x y : Q) : x == y -> JS.round64 x = JS.round64 y.
Proof.
  intro E. unfold JS.round64.
  assert (E1 : Qle_bool x 0 = Qle_bool y 0) by (rewrite E; reflexivity).
  assert (E2 : Qeq_bool x 0 = Qeq_bool y 0) by (rewrite E; reflexivity).
  rewrite E1, E2.
  destruct (Qle_bool y 0) eqn:L.
  - destruct (Qeq_bool y 0) eqn:Z0; [reflexivity|].
    apply Qle_bool_iff in L.
    assert (N : ~ y == 0) by (intro H; apply Qeq_bool_iff in H; congruence).
    rewrite (round64_pos_proper (- x) (- y)); [reflexivity | | rewrite E; reflexivity].
    rewrite E. lra.
  - apply round64_pos_proper; [|exact E].
    rewrite E. apply Qnot_le_lt. intro H. apply Qle_bool_iff in H. congruence.
Qed.

Lemma round64_nonneg (q : Q) : 0 <= q -> 0 <= JS.round64 q.
Proof.
  intro H. unfold JS.round64.
  destruct (Qle_bool q 0) eqn:L.
  - apply Qle_bool_iff in L.
    assert (E : Qeq_bool q 0 = true) by (apply Qeq_bool_iff; lra).
    rewrite E. apply Qle_refl.
  - apply round64_pos_nonneg.
    apply Qnot_le_lt. intro H'. apply Qle_bool_iff in H'. congruence.
Qed.

(** The relative error of rounding in the normal range. *)
Lemma round64_accuracy (q : Q) :
  JS.pow2 (-1022) <= q -> q - q * JS.pow2 (-53) <= JS.round64 q.
Proof.
  intro H.
  assert (Hq : 0 < q) by (eapply Qlt_le_trans; [apply (pow2_pos (-1022)) | exact H]).
  unfold JS.round64.
  assert (L : Qle_bool q 0 = false).
  { destruct (Qle_bool q 0) eqn:L; [|reflexivity].
    apply Qle_bool_iff in L. lra. }
  rewrite L. unfold JS.round64_pos. cbv zeta.
  destruct (exponent_spec q Hq) as [S1 S2].
  assert (He : (-1022 <= JS.exponent q)%Z).
  { assert (A : (-1022 < JS.exponent q + 1)%Z).
    { apply pow2_lt_inv. eapply Qle_lt_trans; [exact H | exact S2]. }
    lia. }
  rewrite Z.max_l by exact He.
  set (e := JS.exponent q) in *. set (p := (e - 52)%Z).
  destruct (nearest_even_bounds (q / JS.pow2 p)) as [B _].
  pose proof (pow2_pos p) as Pp.
  assert (M : (q / JS.pow2 p - (1 # 2)) * JS.pow2 p
              <= inject_Z (JS.nearest_even (q / JS.pow2 p)) * JS.pow2 p).
  { apply Qmult_le_compat_r; [exact B | apply Qlt_le_weak; exact Pp]. }
  assert (E1 : (q / JS.pow2 p - (1 # 2)) * JS.pow2 p == q - (1 # 2) * JS.pow2 p).
  { field. intro Z0. rewrite Z0 in Pp. apply (Qlt_irrefl 0 Pp). }
  assert (E2 : (1 # 2) * JS.pow2 p == JS.pow2 e * JS.pow2 (-53)).
  { unfold p. replace (e - 52)%Z with (e + -53 + 1)%Z by lia.
    rewrite !pow2_plus. change (JS.pow2 1) with (2 # 1). field. }
  rewrite E1, E2 in M.
  assert (E3 : JS.pow2 e * JS.pow2 (-53) <= q * JS.pow2 (-53)).
  { apply Qmult_le_compat_r; [exact S1 | apply Qlt_le_weak, pow2_pos]. }
  lra.
Qed.

(** [round64] against the doubles of the machine: on these operands,
    normal and subnormal, the rounded product, sum and quotient are those
    of [PrimFloat], and the literals 0.6 and 0.8 round to the doubles
    that they denote. *)
Example round64_agrees :
  forallb Double.agrees
    [ (9.5, 60); (570, 1000); (0.57, 100); (0.1, 0.2); (120, 0.6);
      (8.9970000000001153, 60); (539.82000000000687, 1000);
      (0.53982000000000685, 1.8524693416323723); (11, 0.06); (0.66, 100);
      (110.5, 72); (17, 6.5); (183, 1.5); (0.3333333333333333, 3);
      (-7.3, 1.1); (1e-310, 3); (1e-320, 0.3); (-1e-320, 0.7);
      (4.9e-324, 0.5); (4.9e-324, 0.75); (3e-308, 1.5);
      (2.2250738585072014e-308, 0.9999999999999999) ]%float = true /\
  JS.round64 0.6 == Double.value 0.6%float /\
  JS.round64 0.8 == Double.value 0.8%float.
Proof. split; [vm_compute; reflexivity|]. split; vm_compute; reflexivity. Qed.
(** ** Comparisons *)

Lemma ltb_lt (a b : Q) : JS.ltb a b = true <-> a < b.
Proof.
  unfold JS.ltb. rewrite negb_true_iff.
  split; intro H.
  - apply Qnot_le_lt. intro Hle. apply Qle_bool_iff in Hle. congruence.
  - destruct (Qle_bool b a) eqn:E; [|reflexivity].
    apply Qle_bool_iff in E. exfalso. apply (Qlt_not_le _ _ H E).
Qed.

Lemma ltb_ge (a b : Q) : JS.ltb a b = false <-> b <= a.
Proof.
  unfold JS.ltb. rewrite negb_false_iff. apply Qle_bool_iff.
Qed.

Lemma gtb_gt (a b : Q) : JS.gtb a b = true <-> b < a.
Proof. apply ltb_lt. Qed.

Lemma gtb_le (a b : Q) : JS.gtb a b = false <-> a <= b.
Proof. apply ltb_ge. Qed.

Lemma leb_le (a b : Q) : JS.leb a b = true <-> a <= b.
Proof. apply Qle_bool_iff. Qed.

Lemma leb_gt (a b : Q) : JS.leb a b = false <-> b < a.
Proof.
  unfold JS.leb. split; intro H.
  - apply Qnot_le_lt. intro Hle. apply Qle_bool_iff in Hle. congruence.
  - destruct (Qle_bool a b) eqn:E; [|reflexivity].
    apply Qle_bool_iff in E. exfalso. apply (Qlt_not_le _ _ H E).
Qed.

Lemma geb_ge (a b : Q) : JS.geb a b = true <-> b <= a.
Proof. apply Qle_bool_iff. Qed.

Lemma eqb_eq (a b : Q) : JS.eqb a b = true <-> a == b.
Proof. apply Qeq_bool_iff. Qed.

(** ** Collision detection *)

Lemma boxCompare_overlaps (a b : CollisionBox.t) :
  boxCompare a b = true <-> overlaps a b.
Proof.
  unfold boxCompare, overlaps.
  rewrite !andb_true_iff, !ltb_lt, !gtb_gt.
  split; intros; repeat match goal with H : _ /\ _ |- _ => destruct H end;
    repeat split; lra.
Qed.

(** Moving both boxes by the one-pixel inset does not change overlap. *)
Lemma overlaps_adjusted (tb ob : CollisionBox.t) (tRex : Trex.t)
      (obstacle : Obstacle.t) :
  overlaps (createAdjustedCollisionBox tb (tRexOuterBox tRex))
           (createAdjustedCollisionBox ob (obstacleOuterBox obstacle))
  <-> overlaps (translate tb (Trex.xPos tRex) (Trex.yPos tRex))
               (translate ob (Obstacle.xPos obstacle) (Obstacle.yPos obstacle)).
Proof.
  unfold overlaps, createAdjustedCollisionBox, translate, tRexOuterBox,
    obstacleOuterBox; simpl.
  split; intros (H1 & H2 & H3 & H4); repeat split; lra.
Qed.

Lemma firstCrash_inner_some tBox tRexBox obstacleBox collisionBoxes :
  firstCrash_inner tBox tRexBox obstacleBox collisionBoxes <> None <->
  exists ob, In ob collisionBoxes /\
    boxCompare (createAdjustedCollisionBox tBox tRexBox)
               (createAdjustedCollisionBox ob obstacleBox) = true.
Proof.
  induction collisionBoxes as [|oBox rest IH]; simpl.
  - split; [congruence | intros (ob & [] & _)].
  - destruct (boxCompare _ (createAdjustedCollisionBox oBox obstacleBox)) eqn:E.
    + split; [intros _; exists oBox; auto | congruence].
    + rewrite IH. split.
      * intros (ob & Hin & Hc). exists ob; auto.
      * intros (ob & [Heq | Hin] & Hc).
        -- subst ob. congruence.
        -- exists ob; auto.
Qed.

Lemma firstCrash_some tRexCollisionBoxes tRexBox obstacleBox collisionBoxes :
  firstCrash tRexCollisionBoxes tRexBox obstacleBox collisionBoxes <> None <->
  exists tb ob, In tb tRexCollisionBoxes /\ In ob collisionBoxes /\
    boxCompare (createAdjustedCollisionBox tb tRexBox)
               (createAdjustedCollisionBox ob obstacleBox) = true.
Proof.
  induction tRexCollisionBoxes as [|tBox rest IH]; simpl.
  - split; [congruence | intros (tb & ob & [] & _)].
  - destruct (firstCrash_inner tBox tRexBox obstacleBox collisionBoxes) eqn:E.
    + split; [intros _ | congruence].
      assert (Hs : firstCrash_inner tBox tRexBox obstacleBox collisionBoxes <> None)
        by congruence.
      apply firstCrash_inner_some in Hs. destruct Hs as (ob & Hin & Hc).
      exists tBox, ob; auto.
    + rewrite IH. split.
      * intros (tb & ob & Ht & Ho & Hc). exists tb, ob; auto.
      * intros (tb & ob & [Heq | Ht] & Ho & Hc).
        -- subst tb. exfalso.
           assert (Hs : firstCrash_inner tBox tRexBox obstacleBox collisionBoxes <> None).
           { apply firstCrash_inner_some. exists ob; auto. }
           congruence.
        -- exists tb, ob; auto.
Qed.

(** C1, as amended: [checkForCollision] reports a collision exactly when
    the outer bounding boxes of the T-rex and of the obstacle overlap and
    some collision box of the T-rex (the DUCKING set when ducking, the
    RUNNING set otherwise), moved by the position of the T-rex, overlaps
    some collision box of the obstacle, moved by the position of the
    obstacle, on both axes; otherwise it reports false. *)
Theorem checkForCollision_iff (obstacle : Obstacle.t) (tRex : Trex.t) :
  checkForCollision obstacle tRex <> None <->
  overlaps (tRexOuterBox tRex) (obstacleOuterBox obstacle) /\
  some_boxes_overlap obstacle tRex.
Proof.
  unfold checkForCollision, some_boxes_overlap.
  destruct (boxCompare (tRexOuterBox tRex) (obstacleOuterBox obstacle)) eqn:E.
  - rewrite firstCrash_some. apply boxCompare_overlaps in E.
    fold (tRexBoxes tRex).
    split.
    + intros (tb & ob & Ht & Ho & Hc). split; [exact E|].
      exists tb, ob. split; [exact Ht|]. split; [exact Ho|].
      apply overlaps_adjusted, boxCompare_overlaps, Hc.
    + intros (_ & tb & ob & Ht & Ho & Hc).
      exists tb, ob. split; [exact Ht|]. split; [exact Ho|].
      apply boxCompare_overlaps, overlaps_adjusted, Hc.
  - split; [congruence|].
    intros (Ho & _). apply boxCompare_overlaps in Ho. congruence.
Qed.

(** C1, counterexample: a ducking T-rex at x = 50 on the ground and a small
    cactus at x = 94.  The ducking box reaches the first box of the cactus,
    but the outer boxes do not meet and no collision is reported. *)
Lemma checkForCollision_misses_overlap :
  some_boxes_overlap (obstacle_at CACTUS_SMALL 94 105) (tRex_at 50 93 true) /\
  checkForCollision (obstacle_at CACTUS_SMALL 94 105) (tRex_at 50 93 true) = None.
Proof.
  split.
  - exists (CollisionBox.new 1 18 55 25), (CollisionBox.new 0 7 5 27).
    split; [left; reflexivity|].
    split; [left; reflexivity|].
    unfold overlaps, translate; simpl. repeat split; reflexivity.
  - reflexivity.
Qed.

(** ** Obstacles *)

(** C10: an obstacle whose [remove] flag is set is left unchanged, field by
    field, by [update(deltaTime, speed)], whatever the arguments. *)
Theorem Obstacle_update_removed (deltaTime speed : Q) (o : Obstacle.t) :
  Obstacle.remove o = true ->
  Obstacle.update deltaTime speed o = o.
Proof.
  intro H. unfold Obstacle.update. rewrite H. reflexivity.
Qed.

Lemma Obstacle_update_removed_witness :
  Obstacle.remove removed_cactus = true /\
  Obstacle.update (1000 / 60) 6 removed_cactus = removed_cactus.
Proof.
  split; [reflexivity|].
  apply (Obstacle_update_removed (1000 / 60) 6 removed_cactus). reflexivity.
Defined.

(** An obstacle that is still in play does move. *)
Example Obstacle_update_moves :
  Obstacle.xPos (Obstacle.update 100 6 (obstacle_at CACTUS_SMALL 300 105)) == 264.
Proof. reflexivity. Qed.

Lemma Math_random_range (w : World) :
  0 <= fst (Math_random w) /\ fst (Math_random w) < 1.
Proof.
  unfold Math_random, JS.Math_floor; simpl.
  pose proof (Qfloor_le (random w (random_calls w))) as H1.
  pose proof (Qlt_floor (random w (random_calls w))) as H2.
  rewrite inject_Z_plus in H2. change (inject_Z 1) with 1 in H2.
  split; lra.
Qed.

Lemma floor_scaled_range (r : Q) (n : Z) :
  0 <= r -> r < 1 -> (0 < n)%Z ->
  (0 <= Qfloor (r * inject_Z n) < n)%Z.
Proof.
  intros H0 H1 Hn.
  assert (Hq : 0 < inject_Z n).
  { change 0 with (inject_Z 0). rewrite <- Zlt_Qlt. exact Hn. }
  split.
  - change 0%Z with (Qfloor 0). apply Qfloor_resp_le. nra.
  - rewrite Zlt_Qlt.
    apply Qle_lt_trans with (r * inject_Z n); [apply Qfloor_le | nra].
Qed.

Lemma random_int_range (r : Q) (a b : Z) :
  0 <= r -> r < 1 -> (a <= b)%Z ->
  inject_Z a <= JS.Math_floor (r * (inject_Z b - inject_Z a + 1)) + inject_Z a
  /\ JS.Math_floor (r * (inject_Z b - inject_Z a + 1)) + inject_Z a <= inject_Z b.
Proof.
  intros H0 H1 Hab. unfold JS.Math_floor.
  assert (E : inject_Z b - inject_Z a + 1 == inject_Z (b - a + 1)).
  { unfold Z.sub. rewrite !inject_Z_plus, inject_Z_opp.
    change (inject_Z 1) with 1. lra. }
  rewrite E.
  destruct (floor_scaled_range r (b - a + 1) H0 H1 ltac:(lia)) as [L U].
  rewrite <- !inject_Z_plus. rewrite <- !Zle_Qle. lia.
Qed.

Ltac run_io :=
  cbn -[Qplus Qmult Qminus Qdiv Qopp Qfloor Qle_bool Qeq_bool JS.Math_floor
        JS.Math_round JS.Math_ceil JS.ltb JS.gtb JS.leb JS.geb JS.eqb
        JS.truthy JS.truthy_opt Obstacle.minGapOf Obstacle.maxGapOf
        Nat.eqb Nat.add at_index].

Lemma frac_range (q : Q) : 0 <= frac q /\ frac q < 1.
Proof.
  unfold frac, JS.Math_floor.
  pose proof (Qfloor_le q) as H1.
  pose proof (Qlt_floor q) as H2.
  rewrite inject_Z_plus in H2. change (inject_Z 1) with 1 in H2.
  split; lra.
Qed.

Lemma frac_small (q : Q) : 0 <= q -> q < 1 -> frac q == q.
Proof.
  intros H0 H1. unfold frac, JS.Math_floor.
  assert (E : Qfloor q = 0%Z).
  { pose proof (Qfloor_le q) as L. pose proof (Qlt_floor q) as U.
    assert (A : (Qfloor q < 1)%Z).
    { rewrite Zlt_Qlt. apply Qle_lt_trans with q; [exact L | exact H1]. }
    assert (B : (0 < Qfloor q + 1)%Z).
    { rewrite Zlt_Qlt. apply Qle_lt_trans with q; [exact H0 | exact U]. }
    lia. }
  rewrite E. change (inject_Z 0) with 0. lra.
Qed.

Lemma Math_floor_eq (a b : Q) : a == b -> JS.Math_floor a = JS.Math_floor b.
Proof. intro H. unfold JS.Math_floor. now rewrite H. Qed.

Lemma new_shape IS_MOBILE tc dims gc speed xoff w :
  let o := fst (Obstacle.new IS_MOBILE tc dims gc speed xoff w) in
  let lo := Obstacle.minGapOf (Obstacle.width o) tc gc speed in
  let hi := Obstacle.maxGapOf lo in
  let r := frac (random w (draws_before_gap tc + random_calls w)) in
  Obstacle.typeConfig o = tc /\
  Obstacle.gap o = JS.Math_floor (r * (hi - lo + 1)) + lo.
Proof.
  unfold Obstacle.new, Obstacle.init, Obstacle.getGap, draws_before_gap,
    getRandomNum, bind, ret, Math_random, frac.
  run_io.
  destruct (ObstacleType.yPos tc) eqn:Ey;
  destruct (JS.truthy_opt (ObstacleType.speedOffset tc)) eqn:Es;
  run_io; split; reflexivity.
Qed.

Ltac eqb_later :=
  repeat match goal with
         | |- context [(?a =? ?b)%nat] =>
             rewrite (proj2 (Nat.eqb_neq a b)) by lia
         end.

(** The size, and with it the width, is decided by the first draw. *)
Lemma new_width_with_draw IS_MOBILE tc dims gc speed xoff w r :
  Obstacle.width
    (fst (Obstacle.new IS_MOBILE tc dims gc speed xoff
            (with_draw w (draws_before_gap tc) r)))
  = Obstacle.width (fst (Obstacle.new IS_MOBILE tc dims gc speed xoff w)).
Proof.
  unfold Obstacle.new, Obstacle.init, Obstacle.getGap, draws_before_gap,
    getRandomNum, bind, ret, Math_random, with_draw.
  run_io.
  destruct (ObstacleType.yPos tc) eqn:Ey;
  destruct (JS.truthy_opt (ObstacleType.speedOffset tc)) eqn:Es;
  run_io; eqb_later; reflexivity.
Qed.

Lemma Math_round_int (q : Q) : JS.Math_round q = inject_Z (Qfloor (q + (1 # 2))).
Proof. reflexivity. Qed.

Lemma maxGap_ge_minGap (m : Z) :
  (0 <= m)%Z -> (m <= Qfloor (JS.mul (inject_Z m) 1.5 + (1 # 2)))%Z.
Proof.
  intro H. rewrite <- (Qfloor_Z m) at 1. apply Qfloor_resp_le.
  assert (H0 : 0 <= inject_Z m)
    by (change 0 with (inject_Z 0); now rewrite <- Zle_Qle).
  unfold JS.mul.
  destruct (Z.eq_dec m 0) as [-> | Hm].
  - pose proof (round64_nonneg (inject_Z 0 * 1.5) ltac:(discriminate)) as R.
    change (inject_Z 0) with 0 in *. lra.
  - assert (H1 : 1 <= inject_Z m).
    { change 1 with (inject_Z 1). rewrite <- Zle_Qle. lia. }
    assert (Hn : JS.pow2 (-1022) <= inject_Z m * 1.5).
    { assert (P : JS.pow2 (-1022) <= 1)
        by (change 1 with (JS.pow2 0); apply pow2_le; lia).
      lra. }
    pose proof (round64_accuracy _ Hn) as A.
    assert (U : JS.pow2 (-53) <= 1 # 3) by (vm_compute; discriminate).
    pose proof (pow2_pos (-53)) as U0.
    nra.
Qed.

Lemma minGap_nonneg (w : Q) (tc : ObstacleType.t) (gc speed : Q) :
  0 <= w -> 0 <= ObstacleType.minGap tc -> 0 <= gc -> 0 <= speed ->
  (0 <= Qfloor (JS.add (JS.mul w speed) (JS.mul (ObstacleType.minGap tc) gc)
                + (1 # 2)))%Z.
Proof.
  intros Hw Hg Hc Hs. change 0%Z with (Qfloor 0). apply Qfloor_resp_le.
  assert (A : 0 <= JS.mul w speed) by (apply round64_nonneg; nra).
  assert (B : 0 <= JS.mul (ObstacleType.minGap tc) gc)
    by (apply round64_nonneg; nra).
  assert (C : 0 <= JS.add (JS.mul w speed) (JS.mul (ObstacleType.minGap tc) gc))
    by (apply round64_nonneg; lra).
  lra.
Qed.

(** The width of a constructed obstacle is a non-negative multiple of the
    width of its type. *)
Lemma new_width_nonneg IS_MOBILE tc dims gc speed xoff w :
  0 <= ObstacleType.width tc ->
  0 <= Obstacle.width (fst (Obstacle.new IS_MOBILE tc dims gc speed xoff w)).
Proof.
  intro Hw.
  unfold Obstacle.new, Obstacle.init, Obstacle.getGap,
    getRandomNum, bind, ret, Math_random.
  run_io.
  assert (Hs : 0 <= (if JS.gtb
              (JS.Math_floor
                 ((random w (random_calls w) -
                   JS.Math_floor (random w (random_calls w))) *
                  (Obstacle.MAX_OBSTACLE_LENGTH - 1 + 1)) + 1) 1 &&
              JS.gtb (ObstacleType.multipleSpeed tc) speed
           then 1
           else JS.Math_floor
                  ((random w (random_calls w) -
                    JS.Math_floor (random w (random_calls w))) *
                   (Obstacle.MAX_OBSTACLE_LENGTH - 1 + 1)) + 1)).
  { destruct (_ && _); [lra|].
    destruct (frac_range (random w (random_calls w))) as [F0 F1]. unfold frac in *.
    unfold JS.Math_floor at 1.
    assert (0 <= Qfloor ((random w (random_calls w) -
                    JS.Math_floor (random w (random_calls w))) *
                   (Obstacle.MAX_OBSTACLE_LENGTH - 1 + 1)))%Z.
    { change 0%Z with (Qfloor 0). apply Qfloor_resp_le.
      unfold Obstacle.MAX_OBSTACLE_LENGTH. nra. }
    rewrite Zle_Qle in H. change (inject_Z 0) with 0 in H. lra. }
  destruct (ObstacleType.yPos tc) eqn:Ey;
  destruct (JS.truthy_opt (ObstacleType.speedOffset tc)) eqn:Es;
  run_io; nra.
Qed.

(** C4: the gap stored by the constructor of an obstacle lies between
    [minGap = round(width * speed + type.minGap * gapCoefficient)] and
    [maxGap = round(1.5 * minGap)], the products and the sum being those
    of the machine; every integer of that range is the gap for a
    suitable value of the draw; and for speed 6, type minimum gap 120,
    coefficient 0.6 (the rational, or the double nearest to it) and
    width 17 the gap lies in [174, 261]. *)
Theorem obstacle_gap_range (IS_MOBILE : bool) (tc : ObstacleType.t)
    (dims gc speed : Q) (xoff : option Q) (w : World) :
  0 <= ObstacleType.width tc -> 0 <= ObstacleType.minGap tc ->
  0 <= gc -> 0 <= speed ->
  let o := fst (Obstacle.new IS_MOBILE tc dims gc speed xoff w) in
  let minGap :=
    JS.Math_round
      (JS.add (JS.mul (Obstacle.width o) speed)
              (JS.mul (ObstacleType.minGap tc) gc)) in
  let maxGap := JS.Math_round (JS.mul minGap 1.5) in
  (minGap <= Obstacle.gap o /\ Obstacle.gap o <= maxGap) /\
  (forall v : Z, minGap <= inject_Z v -> inject_Z v <= maxGap ->
     exists r : Q,
       (0 <= r /\ r < 1) /\
       let o' := fst (Obstacle.new IS_MOBILE tc dims gc speed xoff
                        (with_draw w (draws_before_gap tc) r)) in
       Obstacle.width o' = Obstacle.width o /\
       Obstacle.typeConfig o' = tc /\
       Obstacle.gap o' == inject_Z v) /\
  (Obstacle.width o == 17 -> ObstacleType.minGap tc == 120 ->
   gc == 0.6 \/ gc == JS.round64 0.6 -> speed == 6 ->
   174 <= Obstacle.gap o /\ Obstacle.gap o <= 261).
Proof.
  intros Hw Hg Hc Hs o minGap maxGap.
  pose proof (new_width_nonneg IS_MOBILE tc dims gc speed xoff w Hw) as Hwo.
  fold o in Hwo.
  set (a := Qfloor (JS.add (JS.mul (Obstacle.width o) speed)
                           (JS.mul (ObstacleType.minGap tc) gc) + (1 # 2))).
  set (b := Qfloor (JS.mul (inject_Z a) 1.5 + (1 # 2))).
  assert (Ea : minGap = inject_Z a) by reflexivity.
  assert (Eb : maxGap = inject_Z b) by reflexivity.
  assert (Ha : (0 <= a)%Z) by (apply minGap_nonneg; assumption).
  assert (Hab : (a <= b)%Z) by (apply maxGap_ge_minGap; exact Ha).
  destruct (new_shape IS_MOBILE tc dims gc speed xoff w) as [_ Hgap].
  fold o in Hgap.
  change (Obstacle.minGapOf (Obstacle.width o) tc gc speed) with minGap in Hgap.
  change (Obstacle.maxGapOf minGap) with maxGap in Hgap.
  assert (Hrange : minGap <= Obstacle.gap o /\ Obstacle.gap o <= maxGap).
  { rewrite Hgap, Eb, Ea.
    destruct (frac_range (random w (draws_before_gap tc + random_calls w))).
    apply random_int_range; assumption. }
  split; [exact Hrange|]. split.
  - intros v Hlo Hhi. rewrite Ea in Hlo. rewrite Eb in Hhi.
    rewrite <- Zle_Qle in Hlo, Hhi.
    set (r := inject_Z (v - a) / inject_Z (b - a + 1)).
    assert (Hd : 0 < inject_Z (b - a + 1)).
    { change 0 with (inject_Z 0). rewrite <- Zlt_Qlt. lia. }
    assert (Hn0 : 0 <= inject_Z (v - a)).
    { change 0 with (inject_Z 0). rewrite <- Zle_Qle. lia. }
    assert (Hn1 : inject_Z (v - a) < inject_Z (b - a + 1)).
    { rewrite <- Zlt_Qlt. lia. }
    assert (Hr0 : 0 <= r).
    { unfold r. apply Qle_shift_div_l; [exact Hd | lra]. }
    assert (Hr1 : r < 1).
    { unfold r. apply Qlt_shift_div_r; [exact Hd | lra]. }
    exists r. split; [split; assumption|].
    pose proof (new_width_with_draw IS_MOBILE tc dims gc speed xoff w r) as Ew.
    destruct (new_shape IS_MOBILE tc dims gc speed xoff
                (with_draw w (draws_before_gap tc) r)) as [Et Hgap'].
    cbv zeta. split; [exact Ew|]. split; [exact Et|].
    rewrite Hgap', Ew. fold o.
    change (Obstacle.minGapOf (Obstacle.width o) tc gc speed) with minGap.
    change (Obstacle.maxGapOf minGap) with maxGap.
    unfold with_draw at 1. cbn [random random_calls].
    rewrite Nat.eqb_refl.
    rewrite Eb, Ea.
    assert (E : frac r * (inject_Z b - inject_Z a + 1) == inject_Z (v - a)).
    { rewrite (frac_small r Hr0 Hr1). unfold r.
      assert (E1 : inject_Z b - inject_Z a + 1 == inject_Z (b - a + 1)).
      { unfold Z.sub. rewrite !inject_Z_plus, inject_Z_opp.
        change (inject_Z 1) with 1. lra. }
      rewrite E1. field. lra. }
    rewrite (Math_floor_eq _ _ E). unfold JS.Math_floor. rewrite Qfloor_Z.
    unfold Z.sub. rewrite inject_Z_plus, inject_Z_opp. lra.
  - intros Ew Eg Ec Es.
    assert (E1 : JS.mul (Obstacle.width o) speed = JS.mul 17 6).
    { unfold JS.mul. apply round64_proper. rewrite Ew, Es. reflexivity. }
    assert (Va : minGap == 174).
    { unfold minGap. rewrite E1. destruct Ec as [Ec | Ec].
      - assert (E2 : JS.mul (ObstacleType.minGap tc) gc = JS.mul 120 0.6).
        { unfold JS.mul. apply round64_proper. rewrite Eg, Ec. reflexivity. }
        rewrite E2. vm_compute. reflexivity.
      - assert (E2 : JS.mul (ObstacleType.minGap tc) gc
                     = JS.mul 120 (JS.round64 0.6)).
        { unfold JS.mul. apply round64_proper. rewrite Eg, Ec. reflexivity. }
        rewrite E2. vm_compute. reflexivity. }
    assert (Vb : maxGap == 261).
    { unfold maxGap.
      assert (E3 : JS.mul minGap 1.5 = JS.mul 174 1.5).
      { unfold JS.mul. apply round64_proper. rewrite Va. reflexivity. }
      rewrite E3. vm_compute. reflexivity. }
    destruct Hrange as [L U]. rewrite Va in L. rewrite Vb in U.
    split; assumption.
Qed.

Lemma obstacle_gap_range_witness :
  let o := fst (Obstacle.new false CACTUS_SMALL 600 0.6 6 (Some 17)
                  (world_of [] 0)) in
  Obstacle.width o == 17 /\ 174 <= Obstacle.gap o /\ Obstacle.gap o <= 261.
Proof.
  cbv zeta.
  destruct (obstacle_gap_range false CACTUS_SMALL 600 0.6 6 (Some 17)
              (world_of [] 0)) as (_ & _ & I).
  - unfold CACTUS_SMALL; simpl; lra.
  - unfold CACTUS_SMALL; simpl; lra.
  - lra.
  - lra.
  - split; [reflexivity|].
    apply I; [reflexivity | reflexivity | left; reflexivity | reflexivity].
Defined.

(** The gap formula at a tie.  For width 17, speed 6.5 and the double
    nearest to 0.6 the machine computes 17 * 6.5 + 120 * 0.6 = 182.5,
    the product 120 * 0.6 rounding to 72, and the range is [183, 275];
    on exact rationals the sum would fall short of the tie. *)
Example gap_range_at_a_tie :
  Obstacle.minGapOf 17 CACTUS_SMALL (JS.round64 0.6) 6.5 == 183 /\
  Obstacle.maxGapOf 183 == 275 /\
  JS.Math_round (17 * 6.5 + 120 * JS.round64 0.6) == 182.
Proof. vm_compute. repeat split; reflexivity. Qed.

(** ** The distance meter *)

Lemma update_maxScoreUnits (deltaTime distance : Q) (m : DistanceMeter.t) :
  DistanceMeter.maxScoreUnits
    (DistanceMeter.meter (DistanceMeter.update deltaTime distance m))
  = if widens distance m then DistanceMeter.maxScoreUnits m + 1
    else DistanceMeter.maxScoreUnits m.
Proof.
  unfold DistanceMeter.update, widens.
  destruct (DistanceMeter.acheivement m); simpl.
  - destruct (JS.leb _ _); [|reflexivity].
    destruct (JS.ltb _ _); [reflexivity|].
    destruct (JS.gtb _ _); reflexivity.
  - destruct (JS.gtb (DistanceMeter.getActualDistance m distance) 0);
      simpl; reflexivity.
Qed.

Lemma update_config (deltaTime distance : Q) (m : DistanceMeter.t) :
  DistanceMeter.config
    (DistanceMeter.meter (DistanceMeter.update deltaTime distance m))
  = DistanceMeter.config m.
Proof.
  unfold DistanceMeter.update.
  destruct (DistanceMeter.acheivement m); simpl.
  - destruct (JS.leb _ _); [|reflexivity].
    destruct (JS.ltb _ _); [reflexivity|].
    destruct (JS.gtb _ _); reflexivity.
  - destruct (JS.gtb (DistanceMeter.getActualDistance m distance) 0);
      simpl; reflexivity.
Qed.

Lemma update_maxScoreUnits_le (deltaTime distance : Q) (m : DistanceMeter.t) :
  DistanceMeter.maxScoreUnits m <=
  DistanceMeter.maxScoreUnits
    (DistanceMeter.meter (DistanceMeter.update deltaTime distance m)).
Proof.
  rewrite update_maxScoreUnits. destruct (widens distance m); lra.
Qed.

(** C6, as amended: the digit width never decreases over a sequence of
    calls of [update]; a call widens it by one exactly when it is made
    outside the achievement flash with a real distance above [maxScore]
    while the width still equals [MAX_DISTANCE_UNITS], and leaves it
    unchanged otherwise; so the width of a new meter grows at most once,
    from 5 to 6. *)
Theorem maxScoreUnits_grows_once :
  (forall deltaTime distance m,
     DistanceMeter.maxScoreUnits
       (DistanceMeter.meter (DistanceMeter.update deltaTime distance m))
     = if widens distance m then DistanceMeter.maxScoreUnits m + 1
       else DistanceMeter.maxScoreUnits m) /\
  (forall calls m,
     DistanceMeter.maxScoreUnits m <=
     DistanceMeter.maxScoreUnits (meter_updates calls m)) /\
  (forall calls canvasWidth,
     let units := DistanceMeter.maxScoreUnits
                    (meter_updates calls
                       (DistanceMeter.new DistanceMeter.default_config canvasWidth)) in
     units == 5 \/ units == 6).
Proof.
  split; [exact update_maxScoreUnits|]. split.
  - induction calls as [|[dt d] rest IH]; intro m; simpl.
    + lra.
    + apply Qle_trans with
        (DistanceMeter.maxScoreUnits
           (DistanceMeter.meter (DistanceMeter.update dt d m))).
      * apply update_maxScoreUnits_le.
      * apply IH.
  - intros calls canvasWidth.
    assert (G : forall m,
               DistanceMeter.config m = DistanceMeter.default_config ->
               DistanceMeter.maxScoreUnits m == 5 \/
               DistanceMeter.maxScoreUnits m == 6 ->
               DistanceMeter.maxScoreUnits (meter_updates calls m) == 5 \/
               DistanceMeter.maxScoreUnits (meter_updates calls m) == 6).
    { induction calls as [|[dt d] rest IH]; intros m Hc Hu; simpl.
      - exact Hu.
      - apply IH.
        + rewrite update_config. exact Hc.
        + rewrite update_maxScoreUnits. unfold widens. rewrite Hc.
          destruct Hu as [Hu | Hu].
          * destruct (_ && _ && _); [right | left]; rewrite Hu; reflexivity.
          * assert (E : JS.eqb (DistanceMeter.maxScoreUnits m)
                          (DistanceMeter.MAX_DISTANCE_UNITS
                             DistanceMeter.default_config) = false).
            { destruct (JS.eqb _ _) eqn:E; [|reflexivity].
              apply eqb_eq in E. rewrite Hu in E. discriminate E. }
            rewrite E, andb_false_r. right. exact Hu. }
    cbv zeta. apply G; [reflexivity | left; reflexivity].
Qed.

(** C6, counterexample: a meter that has already widened to six digits
    (maximum 999999) is shown the real distance 1000001 outside the flash;
    the width stays six. *)
Lemma maxScoreUnits_second_boundary :
  let m1 := DistanceMeter.meter (DistanceMeter.update 16 4000040 meter0) in
  let m2 := DistanceMeter.meter (DistanceMeter.update 16 40000040 m1) in
  DistanceMeter.acheivement m1 = false /\
  DistanceMeter.maxScoreUnits m1 == 6 /\
  DistanceMeter.maxScore m1 == 999999 /\
  DistanceMeter.getActualDistance m1 40000040 == 1000001 /\
  DistanceMeter.maxScoreUnits m2 == 6.
Proof. cbv zeta. repeat split; vm_compute; reflexivity. Qed.

(** While the flash counter has not passed [FLASH_ITERATIONS], a call of
    [update] keeps the achievement flag: the flag is cleared only by a
    call that finds the counter above [FLASH_ITERATIONS]. *)
Lemma flash_continues (deltaTime distance : Q) (m : DistanceMeter.t) :
  DistanceMeter.acheivement m = true ->
  DistanceMeter.flashIterations m
    <= DistanceMeter.FLASH_ITERATIONS (DistanceMeter.config m) ->
  DistanceMeter.acheivement
    (DistanceMeter.meter (DistanceMeter.update deltaTime distance m)) = true.
Proof.
  intros Ha Hi. unfold DistanceMeter.update. rewrite Ha. simpl.
  apply leb_le in Hi. rewrite Hi.
  destruct (JS.ltb _ _); [reflexivity|].
  destruct (JS.gtb _ _); reflexivity.
Qed.

(** C7, the code at the failing input: the meter enters the achievement
    state at real distance 100 and is then updated every 125 ms.  A cycle
    takes five calls, the first of which suppresses painting.  After three
    complete cycles the flag is still set and a fourth cycle runs; the flag
    is cleared by the call after the fourth cycle, so that the flash lasts
    [FLASH_ITERATIONS + 1 = 4] cycles. *)
Theorem flash_lasts_four_cycles :
  let entered := DistanceMeter.update 125 4000 meter0 in
  let m0 := DistanceMeter.meter entered in
  DistanceMeter.FLASH_ITERATIONS DistanceMeter.default_config == 3 /\
  DistanceMeter.playSound entered = true /\
  DistanceMeter.acheivement m0 = true /\
  DistanceMeter.flashIterations m0 == 0 /\
  map (fun n => DistanceMeter.paint
                  (DistanceMeter.update 125 4000 (meter_ticks n 125 4000 m0)))
      (seq 0 5) = [false; true; true; true; true] /\
  DistanceMeter.flashIterations (meter_ticks 15 125 4000 m0) == 3 /\
  DistanceMeter.acheivement (meter_ticks 15 125 4000 m0) = true /\
  DistanceMeter.paint
    (DistanceMeter.update 125 4000 (meter_ticks 15 125 4000 m0)) = false /\
  DistanceMeter.flashIterations (meter_ticks 20 125 4000 m0) == 4 /\
  DistanceMeter.acheivement (meter_ticks 20 125 4000 m0) = true /\
  DistanceMeter.acheivement (meter_ticks 21 125 4000 m0) = false.
Proof. cbv zeta. repeat split; vm_compute; reflexivity. Qed.

(** ** Night mode *)

Lemma NightMode_update_opacity (activated : bool) (o : NightMode.t) (w : World) :
  let o' := fst (NightMode.update activated o w) in
  0 <= NightMode.opacity o' /\
  (NightMode.opacity o < 1 + NightMode.FADE_SPEED ->
   NightMode.opacity o' < 1 + NightMode.FADE_SPEED).
Proof.
  cbv zeta. unfold NightMode.update, bind, ret, NightMode.FADE_SPEED.
  set (op := if activated && (JS.ltb (NightMode.opacity o) 1
                              || JS.eqb (NightMode.opacity o) 0)
             then NightMode.opacity o + 0.035
             else if JS.gtb (NightMode.opacity o) 0
                  then NightMode.opacity o - 0.035
                  else NightMode.opacity o).
  assert (Hop : NightMode.opacity o < 1 + 0.035 -> op < 1 + 0.035).
  { intro H. unfold op.
    destruct activated; simpl.
    - destruct (JS.ltb (NightMode.opacity o) 1) eqn:E1; simpl.
      + apply ltb_lt in E1. lra.
      + destruct (JS.eqb (NightMode.opacity o) 0) eqn:E0.
        * apply eqb_eq in E0. lra.
        * destruct (JS.gtb _ _); lra.
    - destruct (JS.gtb _ _); lra. }
  destruct (JS.gtb op 0) eqn:E; simpl.
  - apply gtb_gt in E. split; [lra | exact Hop].
  - split; [lra | intros _; lra].
Qed.

(** Over any sequence of calls on a fresh night mode the opacity stays at
    or above 0 and below [1 + FADE_SPEED]. *)
Lemma NightMode_opacity_bounds (acts : list bool) (o : NightMode.t) (w : World) :
  0 <= NightMode.opacity o < 1 + NightMode.FADE_SPEED ->
  0 <= NightMode.opacity (fst (night_updates acts o w))
    < 1 + NightMode.FADE_SPEED.
Proof.
  revert o w. induction acts as [|a rest IH]; intros o w H; simpl.
  - exact H.
  - unfold bind.
    destruct (NightMode.update a o w) as [o' w'] eqn:E.
    apply IH.
    pose proof (NightMode_update_opacity a o w) as P. rewrite E in P.
    simpl in P. destruct P as [P0 P1]. split; [exact P0 | apply P1, H].
Qed.

(** C8, the code at the failing input: twenty-nine calls of
    [update(true)] on a fresh night mode raise the opacity, in steps of
    [FADE_SPEED = 0.035], from 0 to 1.015: the call made at opacity 0.98
    still passes the test [opacity < 1]. *)
Theorem NightMode_opacity_exceeds_one :
  NightMode.opacity night0 == 0 /\
  NightMode.opacity
    (fst (night_updates (repeat true 28) night0 (world_of [] 0))) == 0.98 /\
  NightMode.opacity
    (fst (night_updates (repeat true 29) night0 (world_of [] 0))) == 1.015 /\
  1 < NightMode.opacity
        (fst (night_updates (repeat true 29) night0 (world_of [] 0))).
Proof. repeat split; vm_compute; reflexivity. Qed.


(** ** The T-rex *)

Lemma bind_run {A B} (m : IO A) (f : A -> IO B) (w : World) :
  bind m f w = f (fst (m w)) (snd (m w)).
Proof. unfold bind. destruct (m w). reflexivity. Qed.

Lemma core_set_timer v o : core (Trex.set_timer v o) = core o.
Proof. destruct o; reflexivity. Qed.
Lemma core_set_currentFrame v o : core (Trex.set_currentFrame v o) = core o.
Proof. destruct o; reflexivity. Qed.
Lemma core_set_msPerFrame v o : core (Trex.set_msPerFrame v o) = core o.
Proof. destruct o; reflexivity. Qed.
Lemma core_set_currentAnimFrames v o :
  core (Trex.set_currentAnimFrames v o) = core o.
Proof. destruct o; reflexivity. Qed.
Lemma core_set_xPos v o : core (Trex.set_xPos v o) = core o.
Proof. destruct o; reflexivity. Qed.
Lemma core_set_status s o :
  core (Trex.set_status s o)
  = (s, Trex.yPos o, Trex.groundYPos o, Trex.jumping o, Trex.ducking o,
     Trex.speedDrop o, Trex.jumpCount o).
Proof. destruct o; reflexivity. Qed.

Lemma core_draw o : core (Trex.draw o) = core o.
Proof.
  unfold Trex.draw.
  destruct (Trex.ducking o && negb (Trex.Status_eqb (Trex.status o) Trex.CRASHED));
    [reflexivity|].
  destruct (Trex.ducking o && Trex.Status_eqb (Trex.status o) Trex.CRASHED);
    [apply core_set_xPos | reflexivity].
Qed.

Lemma Status_eqb_neq (a b : Trex.Status) : a <> b -> Trex.Status_eqb a b = false.
Proof. destruct a, b; intro H; try reflexivity; congruence. Qed.

Lemma core_status o c : core o = c -> Trex.status o = fst (fst (fst (fst (fst (fst c))))).
Proof. intros <-. reflexivity. Qed.

(** What [update] leaves alone when the status is not WAITING. *)
Lemma update_frame_core (deltaTime : Q) (os : option Trex.Status) (o : Trex.t)
    (w : World) :
  match os with Some s => s | None => Trex.status o end <> Trex.WAITING ->
  core (fst (Trex.update_frame deltaTime os o w))
  = (match os with Some s => s | None => Trex.status o end,
     Trex.yPos o, Trex.groundYPos o, Trex.jumping o, Trex.ducking o,
     Trex.speedDrop o, Trex.jumpCount o).
Proof.
  intro Hs. unfold Trex.update_frame.
  set (o1 := Trex.set_timer (Trex.timer o + deltaTime) o).
  assert (C1 : core o1 = core o) by apply core_set_timer.
  rewrite bind_run.
  set (m2 := match os with
             | Some s => _
             | None => ret o1
             end).
  assert (C2 : core (fst (m2 w))
               = (match os with Some s => s | None => Trex.status o end,
                  Trex.yPos o, Trex.groundYPos o, Trex.jumping o,
                  Trex.ducking o, Trex.speedDrop o, Trex.jumpCount o)).
  { unfold m2. destruct os as [s|].
    - rewrite (Status_eqb_neq s Trex.WAITING Hs). unfold ret, fst.
      rewrite core_set_currentAnimFrames, core_set_msPerFrame,
        core_set_currentFrame, core_set_status.
      unfold o1. destruct o; reflexivity.
    - unfold ret, fst. exact C1. }
  set (o2 := fst (m2 w)) in *. set (w2 := snd (m2 w)).
  set (o3 := if Trex.playingIntro o2 && _ then _ else o2).
  assert (C3 : core o3 = core o2).
  { unfold o3. destruct (Trex.playingIntro o2 && _);
      [apply core_set_xPos | reflexivity]. }
  rewrite bind_run.
  assert (S3 : Trex.Status_eqb (Trex.status o3) Trex.WAITING = false).
  { apply Status_eqb_neq. rewrite (core_status o3 _ (eq_trans C3 C2)). exact Hs. }
  rewrite S3. unfold ret. cbn [fst snd].
  match goal with
  | |- core (if ?c then _ else _) = _ => destruct c
  end.
  - rewrite core_set_timer, core_set_currentFrame, core_draw, C3. exact C2.
  - rewrite core_draw, C3. exact C2.
Qed.

Lemma core_fields o s y g j d sd jc :
  core o = (s, y, g, j, d, sd, jc) ->
  Trex.status o = s /\ Trex.yPos o = y /\ Trex.groundYPos o = g /\
  Trex.jumping o = j /\ Trex.ducking o = d /\ Trex.speedDrop o = sd /\
  Trex.jumpCount o = jc.
Proof.
  unfold core. intro H. inversion H. repeat split; reflexivity.
Qed.

Lemma core_set_speedDrop v o :
  core (Trex.set_speedDrop v o)
  = (Trex.status o, Trex.yPos o, Trex.groundYPos o, Trex.jumping o,
     Trex.ducking o, v, Trex.jumpCount o).
Proof. destruct o; reflexivity. Qed.

Lemma core_set_ducking v o :
  core (Trex.set_ducking v o)
  = (Trex.status o, Trex.yPos o, Trex.groundYPos o, Trex.jumping o,
     v, Trex.speedDrop o, Trex.jumpCount o).
Proof. destruct o; reflexivity. Qed.

Lemma core_set_jumpCount v o :
  core (Trex.set_jumpCount v o)
  = (Trex.status o, Trex.yPos o, Trex.groundYPos o, Trex.jumping o,
     Trex.ducking o, Trex.speedDrop o, v).
Proof. destruct o; reflexivity. Qed.

Lemma core_set_midair v o : core (Trex.set_midair v o) = core o.
Proof. destruct o; reflexivity. Qed.

(** [update(deltaTime)] with no speed drop pending. *)
Lemma update_core (deltaTime : Q) (o : Trex.t) (w : World) :
  Trex.status o <> Trex.WAITING ->
  Trex.speedDrop o = false ->
  core (fst (Trex.update deltaTime None o w)) = core o.
Proof.
  intros Hs Hd. unfold Trex.update. rewrite bind_run.
  pose proof (update_frame_core deltaTime None o w Hs) as C.
  set (o1 := fst (Trex.update_frame deltaTime None o w)) in *.
  destruct (core_fields _ _ _ _ _ _ _ _ C) as (_ & _ & _ & _ & _ & H6 & _).
  rewrite H6, Hd. cbn [andb]. unfold ret. cbn [fst].
  rewrite C. unfold core. rewrite Hd. reflexivity.
Qed.

(** [reset()] puts the T-rex on the ground; a speed drop that is still
    active is turned into a duck by the [update] that [reset] calls. *)
Lemma reset_core (o : Trex.t) (w : World) :
  core (fst (Trex.reset o w))
  = (if Trex.speedDrop o then Trex.DUCKING else Trex.RUNNING,
     Trex.groundYPos o, Trex.groundYPos o, false, Trex.speedDrop o, false, 0).
Proof.
  unfold Trex.reset.
  set (o1 := Trex.set_ducking false
               (Trex.set_jumping false
                  (Trex.set_jumpVelocity 0 (Trex.set_yPos (Trex.groundYPos o) o)))).
  assert (C1 : core o1 = (Trex.status o, Trex.groundYPos o, Trex.groundYPos o,
                          false, false, Trex.speedDrop o, Trex.jumpCount o))
    by (unfold o1; destruct o; reflexivity).
  rewrite bind_run. unfold ret at 1. cbn [fst].
  rewrite core_set_jumpCount.
  assert (G : forall x, core x
                = (if Trex.speedDrop o then Trex.DUCKING else Trex.RUNNING,
                   Trex.groundYPos o, Trex.groundYPos o, false,
                   Trex.speedDrop o, false, Trex.jumpCount o) ->
              (Trex.status (Trex.set_speedDrop false (Trex.set_midair false x)),
               Trex.yPos (Trex.set_speedDrop false (Trex.set_midair false x)),
               Trex.groundYPos (Trex.set_speedDrop false (Trex.set_midair false x)),
               Trex.jumping (Trex.set_speedDrop false (Trex.set_midair false x)),
               Trex.ducking (Trex.set_speedDrop false (Trex.set_midair false x)),
               Trex.speedDrop (Trex.set_speedDrop false (Trex.set_midair false x)), 0)
              = (if Trex.speedDrop o then Trex.DUCKING else Trex.RUNNING,
                 Trex.groundYPos o, Trex.groundYPos o, false,
                 Trex.speedDrop o, false, 0)).
  { intros x Cx.
    destruct (core_fields _ _ _ _ _ _ _ _ Cx) as (X1 & X2 & X3 & X4 & X5 & X6 & X7).
    destruct x; cbn in *. congruence. }
  apply G. clear G.
  unfold Trex.update. rewrite bind_run.
  assert (Hr : Trex.RUNNING <> Trex.WAITING) by discriminate.
  pose proof (update_frame_core 0 (Some Trex.RUNNING) o1 w Hr) as C2.
  set (o2 := fst (Trex.update_frame 0 (Some Trex.RUNNING) o1 w)) in *.
  set (w2 := snd (Trex.update_frame 0 (Some Trex.RUNNING) o1 w)).
  destruct (core_fields _ _ _ _ _ _ _ _ C1) as (A1 & A2 & A3 & A4 & A5 & A6 & A7).
  rewrite A2, A3, A4, A5, A6, A7 in C2.
  destruct (core_fields _ _ _ _ _ _ _ _ C2) as (B1 & B2 & B3 & B4 & B5 & B6 & B7).
  rewrite B6, B2, B3.
  assert (Ey : JS.eqb (Trex.groundYPos o) (Trex.groundYPos o) = true)
    by apply Qeq_bool_refl.
  rewrite Ey, andb_true_r.
  destruct (Trex.speedDrop o) eqn:Ed.
  - unfold Trex.setDuck_with.
    assert (C3 : core (Trex.set_speedDrop false o2)
                 = (Trex.RUNNING, Trex.groundYPos o, Trex.groundYPos o, false,
                    false, false, Trex.jumpCount o)).
    { rewrite core_set_speedDrop. congruence. }
    destruct (core_fields _ _ _ _ _ _ _ _ C3) as (D1 & D2 & D3 & D4 & D5 & D6 & D7).
    rewrite D1. cbn [Trex.Status_eqb negb andb].
    rewrite bind_run. unfold ret. cbn [fst].
    rewrite core_set_ducking.
    assert (Hk : Trex.DUCKING <> Trex.WAITING) by discriminate.
    pose proof (update_frame_core 0 (Some Trex.DUCKING)
                  (Trex.set_speedDrop false o2) w2 Hk) as C4.
    rewrite D2, D3, D4, D5, D6, D7 in C4.
    destruct (core_fields _ _ _ _ _ _ _ _ C4) as (E1 & E2 & E3 & E4 & E5 & E6 & E7).
    rewrite E1, E2, E3, E4, E6, E7. reflexivity.
  - unfold ret. cbn [fst]. exact C2.
Qed.

Lemma core_set_jumpVelocity v o : core (Trex.set_jumpVelocity v o) = core o.
Proof. destruct o; reflexivity. Qed.
Lemma core_set_reachedMinHeight v o :
  core (Trex.set_reachedMinHeight v o) = core o.
Proof. destruct o; reflexivity. Qed.
Lemma core_set_yPos v o :
  core (Trex.set_yPos v o)
  = (Trex.status o, v, Trex.groundYPos o, Trex.jumping o, Trex.ducking o,
     Trex.speedDrop o, Trex.jumpCount o).
Proof. destruct o; reflexivity. Qed.
Lemma core_endJump o : core (Trex.endJump o) = core o.
Proof.
  unfold Trex.endJump. destruct (_ && _); [apply core_set_jumpVelocity | reflexivity].
Qed.

Lemma before_landing_core (deltaTime : Q) (o : Trex.t) :
  core (before_landing deltaTime o)
  = (Trex.status o, integrated_yPos deltaTime o, Trex.groundYPos o,
     Trex.jumping o, Trex.ducking o, Trex.speedDrop o, Trex.jumpCount o).
Proof.
  unfold before_landing. cbv zeta.
  match goal with |- core (if ?c then _ else _) = _ => destruct c end;
    rewrite ?core_endJump;
    match goal with |- core (if ?c then _ else _) = _ => destruct c end;
    rewrite ?core_set_reachedMinHeight, core_set_jumpVelocity, core_set_yPos;
    reflexivity.
Qed.

Lemma updateJump_unfold (deltaTime : Q) (o : Trex.t) :
  Trex.updateJump deltaTime o
  = (o' <- (if JS.gtb (Trex.yPos (before_landing deltaTime o))
                  (Trex.groundYPos (before_landing deltaTime o))
            then o'' <- Trex.reset (before_landing deltaTime o) ;;
                 ret (Trex.set_jumpCount (Trex.jumpCount o'' + 1) o'')
            else ret (before_landing deltaTime o)) ;;
     Trex.update deltaTime None o').
Proof.
  unfold Trex.updateJump, before_landing, integrated_yPos.
  destruct (Trex.speedDrop o); reflexivity.
Qed.

(** The T-rex after a call of [updateJump] that lands. *)
Lemma updateJump_landing_core (deltaTime : Q) (o : Trex.t) (w : World) :
  Trex.groundYPos o < integrated_yPos deltaTime o ->
  core (fst (Trex.updateJump deltaTime o w))
  = (if Trex.speedDrop o then Trex.DUCKING else Trex.RUNNING,
     Trex.groundYPos o, Trex.groundYPos o, false, Trex.speedDrop o, false,
     0 + 1).
Proof.
  intro Hl. rewrite updateJump_unfold.
  pose proof (before_landing_core deltaTime o) as C0.
  set (o4 := before_landing deltaTime o) in *.
  destruct (core_fields _ _ _ _ _ _ _ _ C0) as (A1 & A2 & A3 & A4 & A5 & A6 & A7).
  rewrite A2, A3.
  apply gtb_gt in Hl. rewrite Hl.
  rewrite bind_run, bind_run. unfold ret at 1. cbn [fst snd].
  pose proof (reset_core o4 w) as C1. rewrite A3, A6 in C1.
  set (o5 := fst (Trex.reset o4 w)) in *.
  set (w5 := snd (Trex.reset o4 w)).
  destruct (core_fields _ _ _ _ _ _ _ _ C1) as (B1 & B2 & B3 & B4 & B5 & B6 & B7).
  set (o6 := Trex.set_jumpCount (Trex.jumpCount o5 + 1) o5).
  assert (C2 : core o6
               = (if Trex.speedDrop o then Trex.DUCKING else Trex.RUNNING,
                  Trex.groundYPos o, Trex.groundYPos o, false,
                  Trex.speedDrop o, false, 0 + 1)).
  { unfold o6. rewrite core_set_jumpCount. congruence. }
  destruct (core_fields _ _ _ _ _ _ _ _ C2) as (D1 & D2 & D3 & D4 & D5 & D6 & D7).
  rewrite update_core; [exact C2 | | exact D6].
  rewrite D1. destruct (Trex.speedDrop o); discriminate.
Qed.



(** The count of jumps after a landing: [reset()] sets it to 0 and
    [updateJump] then adds 1, whatever it was before the call. *)
Lemma updateJump_landing_jumpCount (deltaTime : Q) (o : Trex.t) (w : World) :
  Trex.groundYPos o < integrated_yPos deltaTime o ->
  Trex.jumpCount (fst (Trex.updateJump deltaTime o w)) = 0 + 1.
Proof.
  intro Hl.
  destruct (core_fields _ _ _ _ _ _ _ _ (updateJump_landing_core deltaTime o w Hl))
    as (H1 & H2 & H3 & H4 & H5 & H6 & H7).
  exact H7.
Qed.


(** The second jump of a game: the count was 1 before the call and is 1,
    not 2, after the landing. *)
Example updateJump_second_landing :
  let o := tRex_falling 90 5 false 1 in
  Trex.groundYPos o < integrated_yPos (1000 / 60) o /\
  Trex.jumpCount o == 1 /\
  Trex.jumpCount (fst (Trex.updateJump (1000 / 60) o (world_of [] 0))) == 1.
Proof. cbv zeta. repeat split; vm_compute; reflexivity. Qed.
(** ** The spawner *)

Lemma new_typeConfig IS_MOBILE tc dims gc speed xoff w :
  Obstacle.typeConfig (fst (Obstacle.new IS_MOBILE tc dims gc speed xoff w)) = tc.
Proof. apply new_shape. Qed.

(** What a call of [addNewObstacle] that returns has done. *)
Lemma addNewObstacle_some fuel cfg IS_MOBILE speed h w h' w' :
  Horizon.addNewObstacle fuel cfg IS_MOBILE speed h w = (Some h', w') ->
  exists tc o,
    Horizon.rejects cfg h speed tc = false /\
    Obstacle.typeConfig o = tc /\
    Horizon.obstacles h' = Horizon.obstacles h ++ [o] /\
    Horizon.obstacleHistory h' =
      Horizon.recordType cfg (ObstacleType.type tc) (Horizon.obstacleHistory h).
Proof.
  revert w. induction fuel as [|fuel IH]; intros w E;
    cbn [Horizon.addNewObstacle] in E.
  - discriminate E.
  - rewrite bind_run in E.
    destruct (at_index Obstacle.types _) as [tc|] eqn:Ei; [|discriminate E].
    destruct (Horizon.rejects cfg h speed tc) eqn:Er.
    + apply IH in E. exact E.
    + rewrite bind_run in E. unfold ret in E.
      injection E as Eh _. subst h'.
      exists tc. eexists. split; [exact Er|].
      split; [|split; cbn [Horizon.obstacles Horizon.obstacleHistory
                             Horizon.set_obstacles Horizon.set_obstacleHistory];
                 reflexivity].
      apply new_typeConfig.
Qed.

Lemma duplicateCount_repeat (ty : string) (n c : nat) :
  Horizon.duplicateCount (repeat ty n) ty c = (c + n)%nat.
Proof.
  revert c. induction n as [|n IH]; intro c; simpl.
  - lia.
  - rewrite String.eqb_refl, IH. lia.
Qed.


Lemma firstn_cons_firstn {A} (n : nat) (a : A) (l : list A) :
  firstn n (a :: firstn n l) = firstn n (a :: l).
Proof.
  destruct n as [|n]; [reflexivity|]. rewrite !firstn_cons. f_equal.
  rewrite firstn_firstn. f_equal. lia.
Qed.

Lemma firstn_repeat_le {A} (a : A) (n m : nat) :
  (n <= m)%nat -> firstn n (repeat a m) = repeat a n.
Proof.
  revert m. induction n as [|n IH]; intros m H; [reflexivity|].
  destruct m as [|m]; [lia|]. simpl. f_equal. apply IH. lia.
Qed.

(** The current run of the scan is a suffix of the sequence. *)
Lemma scan_current (l : list string) :
  match last_type (scan_runs l) with
  | Some ty => firstn (current (scan_runs l)) (rev l)
               = repeat ty (current (scan_runs l))
  | None => l = []
  end.
Proof.
  induction l as [|x l IH] using rev_ind; [reflexivity|].
  unfold scan_runs in *. rewrite fold_left_app, rev_app_distr. simpl.
  destruct (last_type (fold_left scan_step l (mkRunScan None 0 0))) as [prev|] eqn:E.
  - destruct (String.eqb prev x) eqn:Ex.
    + apply String.eqb_eq in Ex. subst prev. simpl. f_equal. exact IH.
    + reflexivity.
  - reflexivity.
Qed.

Lemma scan_runs_snoc (l : list string) (ty : string) :
  scan_runs (l ++ [ty]) = scan_step (scan_runs l) ty.
Proof. unfold scan_runs. rewrite fold_left_app. reflexivity. Qed.

(** One accepted push keeps the longest run within the bound and the
    history equal to the last pushes. *)
Lemma push_keeps_runs (cfg : RunnerConfig.t) (log history : list string)
    (ty : string) :
  let M := RunnerConfig.MAX_OBSTACLE_DUPLICATION cfg in
  history = firstn M (rev log) ->
  (longestRun log <= M)%nat ->
  (M <=? Horizon.duplicateCount history ty 0)%nat = false ->
  Horizon.recordType cfg ty history = firstn M (rev (log ++ [ty])) /\
  (longestRun (log ++ [ty]) <= M)%nat.
Proof.
  intros M Hh Hr Hd. apply Nat.leb_gt in Hd.
  assert (HM : (1 <= M)%nat) by lia.
  split.
  - unfold Horizon.recordType. fold M. rewrite rev_app_distr. simpl rev. simpl app.
    destruct (1 <? List.length (ty :: history))%nat eqn:El.
    + rewrite Hh. apply firstn_cons_firstn.
    + apply Nat.ltb_ge in El. simpl in El.
      destruct history as [|x r]; [|simpl in El; lia].
      destruct M as [|m]; [lia|].
      simpl. f_equal.
      destruct (rev log) as [|y r]; [now rewrite firstn_nil|].
      simpl in Hh. discriminate Hh.
  - unfold longestRun in *. rewrite scan_runs_snoc. unfold scan_step. simpl.
    apply Nat.max_lub; [exact Hr|].
    pose proof (scan_current log) as Hc.
    destruct (last_type (scan_runs log)) as [prev|]; [|exact HM].
    destruct (String.eqb prev ty) eqn:Ex; [|exact HM].
    apply String.eqb_eq in Ex. subst prev.
    destruct (Nat.le_gt_cases (S (current (scan_runs log))) M) as [Hle|Hgt];
      [exact Hle|].
    exfalso.
    assert (E : history = repeat ty M).
    { rewrite Hh.
      replace M with (Nat.min M (current (scan_runs log))) at 1 by lia.
      rewrite <- firstn_firstn, Hc.
      apply firstn_repeat_le. lia. }
    rewrite E, duplicateCount_repeat in Hd. lia.
Qed.

Lemma lastPushed_snoc (h : Horizon.t) (l : list Obstacle.t) (o : Obstacle.t) :
  Horizon.obstacles h = l ++ [o] ->
  lastPushed h = ObstacleType.type (Obstacle.typeConfig o).
Proof.
  intro E. unfold lastPushed. rewrite E, rev_app_distr. reflexivity.
Qed.

Lemma spawned_runs (fuel : nat) (cfg : RunnerConfig.t) (IS_MOBILE : bool)
    (speeds : list Q) :
  forall (h : Horizon.t) (w : World) (log : list string),
    Horizon.obstacleHistory h
      = firstn (RunnerConfig.MAX_OBSTACLE_DUPLICATION cfg) (rev log) ->
    (longestRun log <= RunnerConfig.MAX_OBSTACLE_DUPLICATION cfg)%nat ->
    (longestRun (log ++ spawned fuel cfg IS_MOBILE speeds h w)
     <= RunnerConfig.MAX_OBSTACLE_DUPLICATION cfg)%nat.
Proof.
  induction speeds as [|speed rest IH]; intros h w log Hh Hr; simpl.
  - rewrite app_nil_r. exact Hr.
  - destruct (Horizon.addNewObstacle fuel cfg IS_MOBILE speed h w)
      as [[h'|] w'] eqn:E.
    + destruct (addNewObstacle_some _ _ _ _ _ _ _ _ E)
        as (tc & o & Hrej & Ht & Ho & Hhist).
      rewrite (lastPushed_snoc h' _ o Ho), Ht.
      unfold Horizon.rejects in Hrej. apply orb_false_iff in Hrej.
      destruct Hrej as [Hdup _]. unfold Horizon.duplicateObstacleCheck in Hdup.
      destruct (push_keeps_runs cfg log (Horizon.obstacleHistory h)
                  (ObstacleType.type tc) Hh Hr Hdup) as [Hh' Hr'].
      change (log ++ ObstacleType.type tc :: spawned fuel cfg IS_MOBILE rest h' w')
        with (log ++ [ObstacleType.type tc] ++ spawned fuel cfg IS_MOBILE rest h' w').
      rewrite app_assoc. apply IH; [|exact Hr'].
      rewrite Hhist. exact Hh'.
    + rewrite app_nil_r. exact Hr.
Qed.

(** C3: whatever [Math.random()] returns and whatever the sequence of calls
    of [addNewObstacle], the types pushed on a horizon that starts with an
    empty history never show a run of more than [MAX_OBSTACLE_DUPLICATION]
    identical consecutive types. *)
Theorem spawned_runs_bounded (fuel : nat) (cfg : RunnerConfig.t)
    (IS_MOBILE : bool) (speeds : list Q) (h : Horizon.t) (w : World) :
  Horizon.obstacleHistory h = [] ->
  (longestRun (spawned fuel cfg IS_MOBILE speeds h w)
   <= RunnerConfig.MAX_OBSTACLE_DUPLICATION cfg)%nat.
Proof.
  intro Hh.
  apply (spawned_runs fuel cfg IS_MOBILE speeds h w []).
  - rewrite Hh. simpl. now rewrite firstn_nil.
  - apply Nat.le_0_l.
Qed.

Lemma spawned_runs_bounded_witness :
  spawned 5 RunnerConfig.default false [6; 6; 6; 6; 6] horizon0
    (world_of draws_five 0)
  = ["CACTUS_SMALL"; "CACTUS_SMALL"; "CACTUS_LARGE"; "CACTUS_LARGE";
     "CACTUS_SMALL"]%string /\
  Nat.le (longestRun (spawned 5 RunnerConfig.default false [6; 6; 6; 6; 6]
                        horizon0 (world_of draws_five 0))) 2.
Proof.
  split; [vm_compute; reflexivity|].
  apply (spawned_runs_bounded 5 RunnerConfig.default false [6; 6; 6; 6; 6]
           horizon0 (world_of draws_five 0)).
  reflexivity.
Defined.

(** *** Termination of the selection *)












(** ** The runner *)

Lemma pace_set_dimensions_WIDTH v r : pace (Runner.set_dimensions_WIDTH v r) = pace r.
Proof. destruct r; reflexivity. Qed.
Lemma pace_set_distanceRan v r : pace (Runner.set_distanceRan v r) = pace r.
Proof. destruct r; reflexivity. Qed.
Lemma pace_set_highestScore v r : pace (Runner.set_highestScore v r) = pace r.
Proof. destruct r; reflexivity. Qed.
Lemma pace_set_time v r : pace (Runner.set_time v r) = pace r.
Proof. destruct r; reflexivity. Qed.
Lemma pace_set_runningTime v r : pace (Runner.set_runningTime v r) = pace r.
Proof. destruct r; reflexivity. Qed.
Lemma pace_set_activated v r : pace (Runner.set_activated v r) = pace r.
Proof. destruct r; reflexivity. Qed.
Lemma pace_set_playing v r : pace (Runner.set_playing v r) = pace r.
Proof. destruct r; reflexivity. Qed.
Lemma pace_set_crashed v r : pace (Runner.set_crashed v r) = pace r.
Proof. destruct r; reflexivity. Qed.
Lemma pace_set_paused v r : pace (Runner.set_paused v r) = pace r.
Proof. destruct r; reflexivity. Qed.
Lemma pace_set_inverted v r : pace (Runner.set_inverted v r) = pace r.
Proof. destruct r; reflexivity. Qed.
Lemma pace_set_invertTimer v r : pace (Runner.set_invertTimer v r) = pace r.
Proof. destruct r; reflexivity. Qed.
Lemma pace_set_invertTrigger v r : pace (Runner.set_invertTrigger v r) = pace r.
Proof. destruct r; reflexivity. Qed.
Lemma pace_set_playingIntro v r : pace (Runner.set_playingIntro v r) = pace r.
Proof. destruct r; reflexivity. Qed.
Lemma pace_set_playCount v r : pace (Runner.set_playCount v r) = pace r.
Proof. destruct r; reflexivity. Qed.
Lemma pace_set_updatePending v r : pace (Runner.set_updatePending v r) = pace r.
Proof. destruct r; reflexivity. Qed.
Lemma pace_set_raqId v r : pace (Runner.set_raqId v r) = pace r.
Proof. destruct r; reflexivity. Qed.
Lemma pace_set_tRex v r : pace (Runner.set_tRex v r) = pace r.
Proof. destruct r; reflexivity. Qed.
Lemma pace_set_horizon v r : pace (Runner.set_horizon v r) = pace r.
Proof. destruct r; reflexivity. Qed.
Lemma pace_set_distanceMeter v r : pace (Runner.set_distanceMeter v r) = pace r.
Proof. destruct r; reflexivity. Qed.

Create Rewrite HintDb pace.

#[local] Hint Rewrite pace_set_dimensions_WIDTH pace_set_distanceRan pace_set_highestScore pace_set_time pace_set_runningTime pace_set_activated pace_set_playing pace_set_crashed pace_set_paused pace_set_inverted pace_set_invertTimer pace_set_invertTrigger pace_set_playingIntro pace_set_playCount pace_set_updatePending pace_set_raqId pace_set_tRex pace_set_horizon pace_set_distanceMeter : pace.

Lemma bindO_run {A B} (m : IO (option A)) (f : A -> IO (option B)) (w : World) :
  Runner.bindO m f w
  = match fst (m w) with
    | Some x => f x (snd (m w))
    | None => (None, snd (m w))
    end.
Proof.
  unfold Runner.bindO. rewrite bind_run. destruct (fst (m w)); reflexivity.
Qed.

Lemma pace_startGame r : pace (Runner.startGame r) = pace r.
Proof. unfold Runner.startGame. autorewrite with pace. reflexivity. Qed.

Lemma pace_stop r : pace (Runner.stop r) = pace r.
Proof. unfold Runner.stop. autorewrite with pace. reflexivity. Qed.

Lemma pace_scheduleNextUpdate r : pace (Runner.scheduleNextUpdate r) = pace r.
Proof.
  unfold Runner.scheduleNextUpdate. destruct (negb _);
    autorewrite with pace; reflexivity.
Qed.

Lemma pace_invert b r : pace (Runner.invert b r) = pace r.
Proof. unfold Runner.invert. destruct b; autorewrite with pace; reflexivity. Qed.

Lemma pace_updateInvert dt r : pace (Runner.updateInvert dt r) = pace r.
Proof.
  unfold Runner.updateInvert.
  destruct (JS.gtb _ _).
  - rewrite pace_invert. autorewrite with pace. reflexivity.
  - destruct (JS.truthy _); [autorewrite with pace; reflexivity|].
    destruct (JS.gtb _ _); [|reflexivity].
    cbv zeta. destruct (_ && _).
    + rewrite pace_invert. autorewrite with pace. reflexivity.
    + autorewrite with pace. reflexivity.
Qed.

Lemma pace_gameOver r w : pace (fst (Runner.gameOver r w)) = pace r.
Proof.
  unfold Runner.gameOver. cbv zeta. rewrite bind_run, bind_run.
  unfold ret. cbn [fst]. autorewrite with pace.
  destruct (JS.gtb _ _); autorewrite with pace; apply pace_stop.
Qed.

(** [playIntro()] of a runner that has not crashed. *)
Lemma pace_playIntro upd env r w r' :
  Runner.crashed r = false ->
  fst (Runner.playIntro_with upd env r w) = Some r' ->
  pace r' = pace r.
Proof.
  intros Hc. unfold Runner.playIntro_with. rewrite Hc. cbn [negb].
  rewrite andb_true_r.
  destruct (negb (Runner.activated r)).
  - destruct (_ || _); unfold ret; cbn [fst]; intro E; inversion E; subst.
    + rewrite pace_startGame. autorewrite with pace. reflexivity.
    + autorewrite with pace. reflexivity.
  - unfold ret; cbn [fst]; intro E; inversion E; subst. reflexivity.
Qed.

Lemma crashed_prefix (now : Q) (tr : Trex.t) (v : Q) (r : Runner.t) :
  Runner.crashed
    (Runner.set_runningTime v
       (Runner.set_tRex tr (Runner.set_time now (Runner.set_updatePending false r))))
  = Runner.crashed r.
Proof. destruct r; reflexivity. Qed.

Lemma pace_animateAndSchedule dt r w :
  pace (fst (Runner.animateAndSchedule dt r w)) = pace r.
Proof.
  unfold Runner.animateAndSchedule. destruct (_ || _).
  - rewrite bind_run. unfold ret. cbn [fst].
    rewrite pace_scheduleNextUpdate. autorewrite with pace. reflexivity.
  - reflexivity.
Qed.

Lemma pace_afterCollisionTest dt collision r w :
  pace (fst (Runner.afterCollisionTest dt collision r w))
  = match collision with
    | None => (Runner.config r,
               Runner.accelerate (Runner.config r) (Runner.currentSpeed r))
    | Some _ => pace r
    end.
Proof.
  unfold Runner.afterCollisionTest. destruct collision.
  - apply pace_gameOver.
  - unfold ret. cbn [fst]. destruct r; reflexivity.
Qed.

(** The speed after the block [if (this.playing) { ... }]: it has grown
    by one step of [accelerate], or it is unchanged (after a collision). *)
Lemma pace_whilePlaying upd fuel env dt r w r' dt' :
  Runner.crashed r = false ->
  fst (Runner.whilePlaying upd fuel env dt r w) = Some (r', dt') ->
  pace r' = pace r \/
  pace r' = (Runner.config r,
             Runner.accelerate (Runner.config r) (Runner.currentSpeed r)).
Proof.
  intros Hc. unfold Runner.whilePlaying. rewrite bind_run.
  set (m1 := if Trex.jumping (Runner.tRex r) then _ else _).
  set (tr := fst (m1 w)). set (w1 := snd (m1 w)).
  cbv zeta.
  set (r1 := Runner.set_runningTime _ (Runner.set_tRex tr r)).
  assert (P1 : pace r1 = pace r) by (unfold r1; autorewrite with pace; reflexivity).
  assert (C1 : Runner.crashed r1 = false) by (unfold r1; destruct r; exact Hc).
  rewrite bindO_run.
  set (m2 := if _ && _ then _ else _).
  destruct (fst (m2 w1)) as [r2|] eqn:E2; [|discriminate].
  assert (P2 : pace r2 = pace r).
  { rewrite <- P1. unfold m2 in E2. destruct (_ && _).
    - apply (pace_playIntro upd env r1 w1 r2 C1 E2).
    - unfold ret in E2. cbn [fst] in E2. inversion E2. reflexivity. }
  rewrite bindO_run.
  set (m3 := if Runner.playingIntro r2 then _ else _).
  destruct (fst (m3 (snd (m2 w1)))) as [h|] eqn:E3; [|discriminate].
  destruct (Runner.collisionTest _ _) as [collision|]; [|discriminate].
  rewrite bind_run. unfold ret. cbn [fst].
  intro E. inversion E; subst; clear E.
  rewrite pace_updateInvert, pace_set_distanceMeter, pace_afterCollisionTest.
  assert (P3 : pace (Runner.set_horizon h r2) = pace r)
    by (rewrite pace_set_horizon; exact P2).
  destruct collision.
  - left. exact P3.
  - right. unfold pace in P3. inversion P3. reflexivity.
Qed.

(** The speed after a tick of a runner that has not crashed. *)
Lemma update_pace fuel env r w r' :
  Runner.crashed r = false ->
  fst (Runner.update fuel env r w) = Some r' ->
  pace r' = pace r \/
  pace r' = (Runner.config r,
             Runner.accelerate (Runner.config r) (Runner.currentSpeed r)).
Proof.
  intros Hc. destruct fuel as [|fuel]; [discriminate|].
  cbn [Runner.update]. cbv zeta. rewrite bind_run.
  set (now := fst (getTimeStamp w)). set (w1 := snd (getTimeStamp w)).
  set (r1 := Runner.set_time now (Runner.set_updatePending false r)).
  assert (P1 : pace r1 = pace r) by (unfold r1; autorewrite with pace; reflexivity).
  assert (C1 : Runner.crashed r1 = false) by (unfold r1; destruct r; exact Hc).
  rewrite bindO_run.
  set (m := if Runner.playing r1 then _ else _).
  destruct (fst (m w1)) as [[r2 dt2]|] eqn:E; [|discriminate].
  rewrite bind_run. unfold ret. cbn [fst snd].
  intro E'. inversion E'; subst; clear E'.
  rewrite pace_animateAndSchedule.
  unfold m in E. destruct (Runner.playing r1).
  - destruct (pace_whilePlaying _ _ _ _ _ _ _ _ C1 E) as [H | H].
    + left. congruence.
    + right. rewrite H. unfold pace in P1. inversion P1. reflexivity.
  - unfold ret in E. cbn [fst] in E. inversion E; subst. left. exact P1.
Qed.

Lemma accelerate_ge cfg s :
  0 <= RunnerConfig.ACCELERATION cfg -> s <= Runner.accelerate cfg s.
Proof.
  intro H. unfold Runner.accelerate. destruct (JS.ltb _ _); lra.
Qed.

Lemma accelerate_bound cfg s :
  0 <= RunnerConfig.ACCELERATION cfg ->
  s < RunnerConfig.MAX_SPEED cfg + RunnerConfig.ACCELERATION cfg ->
  Runner.accelerate cfg s
  < RunnerConfig.MAX_SPEED cfg + RunnerConfig.ACCELERATION cfg.
Proof.
  intros H Hs. unfold Runner.accelerate.
  destruct (JS.ltb _ _) eqn:E; [apply ltb_lt in E; lra | exact Hs].
Qed.

(** A tick of a runner that has not crashed does not lower the speed, and
    keeps it below [MAX_SPEED + ACCELERATION]. *)
Lemma update_currentSpeed fuel env r w r' :
  Runner.crashed r = false ->
  0 <= RunnerConfig.ACCELERATION (Runner.config r) ->
  fst (Runner.update fuel env r w) = Some r' ->
  Runner.config r' = Runner.config r /\
  Runner.currentSpeed r <= Runner.currentSpeed r' /\
  (Runner.currentSpeed r
   < RunnerConfig.MAX_SPEED (Runner.config r)
     + RunnerConfig.ACCELERATION (Runner.config r) ->
   Runner.currentSpeed r'
   < RunnerConfig.MAX_SPEED (Runner.config r)
     + RunnerConfig.ACCELERATION (Runner.config r)).
Proof.
  intros Hc Ha E.
  destruct (update_pace fuel env r w r' Hc E) as [H | H];
    unfold pace in H;
    assert (H1 : Runner.config r' = Runner.config r) by congruence.
  - assert (H2 : Runner.currentSpeed r' = Runner.currentSpeed r) by congruence.
    rewrite H2. split; [exact H1|]. split; [lra | intro; assumption].
  - assert (H2 : Runner.currentSpeed r'
                 = Runner.accelerate (Runner.config r) (Runner.currentSpeed r))
      by congruence.
    rewrite H2. split; [exact H1|]. split.
    + apply accelerate_ge. exact Ha.
    + intro Hs. apply accelerate_bound; assumption.
Qed.

(** C2, the code at the failing input.  On the doubles of JavaScript a
    game of the default configuration that goes 7000 ticks without a
    collision has the speed 12.999999999997897, below [MAX_SPEED = 13], and
    the next tick raises it to 13.000999999997896.  In the model over the
    rationals a tick at speed 12.9995 gives 13.0005 in the same way. *)
Theorem currentSpeed_exceeds_MAX_SPEED :
  Double.ticks 7000 Double.SPEED = 0x1.9fffffffffb60p+3%float /\
  PrimFloat.ltb (Double.ticks 7000 Double.SPEED) Double.MAX_SPEED = true /\
  Double.ticks 7001 Double.SPEED = 0x1.a0083126e92edp+3%float /\
  PrimFloat.ltb Double.MAX_SPEED (Double.ticks 7001 Double.SPEED) = true /\
  speed_of (runner_at 12.9995) = Some 12.9995 /\
  match speed_of (tick (runner_at 12.9995) (world_of [] 0)) with
  | Some s => s == 13.0005 /\ RunnerConfig.MAX_SPEED RunnerConfig.default < s
  | None => False
  end.
Proof.
  split; [vm_compute; reflexivity|].
  split; [vm_compute; reflexivity|].
  split; [vm_compute; reflexivity|].
  split; [vm_compute; reflexivity|].
  split; [vm_compute; reflexivity|].
  vm_compute. split; reflexivity.
Qed.

Example runner0_speed : speed_of runner0 = Some 6.
Proof. vm_compute. reflexivity. Qed.

(** * Further properties of the code *)

(** ** Boxes and collisions *)

(** X1: the box test does not depend on the order of its arguments. *)
Theorem boxCompare_sym (a b : CollisionBox.t) :
  boxCompare a b = boxCompare b a.
Proof.
  apply eq_true_iff_eq. rewrite !boxCompare_overlaps.
  unfold overlaps. split; intros (H1 & H2 & H3 & H4); repeat split; assumption.
Qed.

Lemma firstCrash_inner_pair tBox tRexBox obstacleBox collisionBoxes a b :
  firstCrash_inner tBox tRexBox obstacleBox collisionBoxes = Some (a, b) ->
  exists ob, In ob collisionBoxes /\
    a = createAdjustedCollisionBox tBox tRexBox /\
    b = createAdjustedCollisionBox ob obstacleBox /\
    boxCompare a b = true.
Proof.
  induction collisionBoxes as [|oBox rest IH]; simpl; [discriminate|].
  destruct (boxCompare _ (createAdjustedCollisionBox oBox obstacleBox)) eqn:E.
  - intro H. inversion H; subst. exists oBox. repeat split; auto.
  - intro H. destruct (IH H) as (ob & Hin & Ha & Hb & Hc).
    exists ob. repeat split; auto.
Qed.

Lemma firstCrash_pair tRexCollisionBoxes tRexBox obstacleBox collisionBoxes a b :
  firstCrash tRexCollisionBoxes tRexBox obstacleBox collisionBoxes = Some (a, b) ->
  exists tb ob, In tb tRexCollisionBoxes /\ In ob collisionBoxes /\
    a = createAdjustedCollisionBox tb tRexBox /\
    b = createAdjustedCollisionBox ob obstacleBox /\
    boxCompare a b = true.
Proof.
  induction tRexCollisionBoxes as [|tBox rest IH]; simpl; [discriminate|].
  destruct (firstCrash_inner tBox tRexBox obstacleBox collisionBoxes)
    as [[a' b']|] eqn:E.
  - intro H. inversion H; subst.
    destruct (firstCrash_inner_pair _ _ _ _ _ _ E) as (ob & Hin & Ha & Hb & Hc).
    exists tBox, ob. repeat split; auto.
  - intro H. destruct (IH H) as (tb & ob & Ht & Ho & Ha & Hb & Hc).
    exists tb, ob. repeat split; auto.
Qed.

(** X2: the pair of boxes that [checkForCollision] returns consists of a
    collision box of the T-rex (of the set that its ducking state selects)
    and a collision box of the obstacle, each moved by the outer box of its
    owner, and the two boxes do overlap. *)
Theorem checkForCollision_pair (obstacle : Obstacle.t) (tRex : Trex.t)
    (a b : CollisionBox.t) :
  checkForCollision obstacle tRex = Some (a, b) ->
  exists tb ob,
    In tb (tRexBoxes tRex) /\
    In ob (Obstacle.collisionBoxes obstacle) /\
    a = createAdjustedCollisionBox tb (tRexOuterBox tRex) /\
    b = createAdjustedCollisionBox ob (obstacleOuterBox obstacle) /\
    overlaps a b.
Proof.
  unfold checkForCollision.
  destruct (boxCompare (tRexOuterBox tRex) (obstacleOuterBox obstacle));
    [|discriminate].
  fold (tRexBoxes tRex). intro H.
  destruct (firstCrash_pair _ _ _ _ _ _ H) as (tb & ob & Ht & Ho & Ha & Hb & Hc).
  exists tb, ob. split; [exact Ht|]. split; [exact Ho|].
  split; [exact Ha|]. split; [exact Hb|].
  apply boxCompare_overlaps. exact Hc.
Qed.

Lemma checkForCollision_pair_witness :
  exists tb ob,
    In tb Trex.collisionBoxes_RUNNING /\
    In ob (ObstacleType.collisionBoxes CACTUS_SMALL) /\
    overlaps (createAdjustedCollisionBox tb (tRexOuterBox (tRex_at 50 93 false)))
             (createAdjustedCollisionBox ob
                (obstacleOuterBox (obstacle_at CACTUS_SMALL 70 105))).
Proof.
  destruct (checkForCollision_pair (obstacle_at CACTUS_SMALL 70 105)
              (tRex_at 50 93 false)
              (CollisionBox.new (22 + (50 + 1)) (0 + (93 + 1)) 17 16)
              (CollisionBox.new (4 + (70 + 1)) (0 + (105 + 1)) 6 34))
    as (tb & ob & Ht & Ho & Ha & Hb & Hc).
  - reflexivity.
  - exists tb, ob. split; [exact Ht|]. split; [exact Ho|].
    rewrite <- Ha, <- Hb. exact Hc.
Defined.

Lemma crashes_iff (o : Obstacle.t) (t : Trex.t) :
  crashes o t = true <->
  overlaps (tRexOuterBox t) (obstacleOuterBox o) /\ some_boxes_overlap o t.
Proof.
  unfold crashes, checkForCollision, some_boxes_overlap.
  destruct (boxCompare (tRexOuterBox t) (obstacleOuterBox o)) eqn:E.
  - apply boxCompare_overlaps in E. fold (tRexBoxes t).
    destruct (firstCrash (tRexBoxes t) (tRexOuterBox t) (obstacleOuterBox o)
                (Obstacle.collisionBoxes o)) as [p|] eqn:F.
    + assert (Hs : firstCrash (tRexBoxes t) (tRexOuterBox t) (obstacleOuterBox o)
                     (Obstacle.collisionBoxes o) <> None) by congruence.
      apply firstCrash_some in Hs. destruct Hs as (tb & ob & Ht & Ho & Hc).
      split; [intros _ | reflexivity]. split; [exact E|].
      exists tb, ob. split; [exact Ht|]. split; [exact Ho|].
      apply overlaps_adjusted, boxCompare_overlaps, Hc.
    + split; [discriminate|]. intros (_ & tb & ob & Ht & Ho & Hc). exfalso.
      assert (Hs : firstCrash (tRexBoxes t) (tRexOuterBox t) (obstacleOuterBox o)
                     (Obstacle.collisionBoxes o) <> None).
      { apply firstCrash_some. exists tb, ob. split; [exact Ht|].
        split; [exact Ho|]. apply boxCompare_overlaps, overlaps_adjusted, Hc. }
      congruence.
  - split; [discriminate|]. intros (Ho & _).
    apply boxCompare_overlaps in Ho. congruence.
Qed.

(** X3: moving the obstacle and the T-rex by the same offset does not
    change whether a collision is reported. *)
Theorem crashes_translation (dx dy : Q) (o : Obstacle.t) (t : Trex.t) :
  crashes (moveObstacle dx dy o) (moveTrex dx dy t) = crashes o t.
Proof.
  apply eq_true_iff_eq. rewrite !crashes_iff.
  assert (Hb : tRexBoxes (moveTrex dx dy t) = tRexBoxes t)
    by (destruct t; reflexivity).
  unfold some_boxes_overlap. rewrite Hb.
  assert (Ho : overlaps (tRexOuterBox (moveTrex dx dy t))
                 (obstacleOuterBox (moveObstacle dx dy o))
               <-> overlaps (tRexOuterBox t) (obstacleOuterBox o)).
  { unfold overlaps, tRexOuterBox, obstacleOuterBox. destruct t, o; cbn.
    split; intros (H1 & H2 & H3 & H4); repeat split; lra. }
  assert (Hi : forall tb ob,
             overlaps (translate tb (Trex.xPos (moveTrex dx dy t))
                         (Trex.yPos (moveTrex dx dy t)))
                      (translate ob (Obstacle.xPos (moveObstacle dx dy o))
                         (Obstacle.yPos (moveObstacle dx dy o)))
             <-> overlaps (translate tb (Trex.xPos t) (Trex.yPos t))
                          (translate ob (Obstacle.xPos o) (Obstacle.yPos o))).
  { intros tb ob. unfold overlaps, translate. destruct t, o; cbn.
    split; intros (H1 & H2 & H3 & H4); repeat split; lra. }
  rewrite Ho. split; intros (H & tb & ob & Ht & Hob & Hc); (split; [exact H|]);
    exists tb, ob; (split; [exact Ht|]); (split; [exact Hob|]); apply Hi; exact Hc.
Qed.

(** X4: for a T-rex of the default size that is not ducking and a
    pterodactyl, the outer bounds check loses nothing: a collision is
    reported exactly when some collision box of the T-rex overlaps some
    collision box of the pterodactyl. *)
Theorem crashes_pterodactyl_exact (o : Obstacle.t) (t : Trex.t) :
  Trex.config t = Trex.default_config ->
  Trex.ducking t = false ->
  Obstacle.typeConfig o = PTERODACTYL ->
  Obstacle.size o == 1 ->
  Obstacle.collisionBoxes o = ObstacleType.collisionBoxes PTERODACTYL ->
  (crashes o t = true <-> some_boxes_overlap o t).
Proof.
  intros Hc Hd Ht Hs Hb. rewrite crashes_iff.
  split; [intros [_ H]; exact H|].
  intro H. split; [|exact H].
  destruct H as (tb & ob & Htb & Hob & Hov).
  unfold tRexBoxes in Htb. rewrite Hd in Htb. rewrite Hb in Hob.
  unfold overlaps, tRexOuterBox, obstacleOuterBox. rewrite Hc, Ht.
  unfold overlaps, translate in Hov. cbn in Hov |- *.
  cbn in Htb, Hob.
  repeat match goal with
         | H : _ \/ _ |- _ => destruct H as [H | H]
         | H : False |- _ => destruct H
         end; subst tb ob; cbn in Hov;
    destruct Hov as (H1 & H2 & H3 & H4); repeat split; lra.
Qed.

Lemma crashes_pterodactyl_exact_witness :
  crashes (obstacle_at PTERODACTYL 60 75) (tRex_at 50 93 false) = true <->
  some_boxes_overlap (obstacle_at PTERODACTYL 60 75) (tRex_at 50 93 false).
Proof.
  apply (crashes_pterodactyl_exact (obstacle_at PTERODACTYL 60 75)
           (tRex_at 50 93 false)); reflexivity.
Defined.

(** ** Random integers *)

(** X5: for integers [min <= max], [getRandomNum(min, max)] returns an
    integer between [min] and [max], and each of them is returned for some
    value of [Math.random()]. *)
Theorem getRandomNum_range (a b : Z) :
  (a <= b)%Z ->
  (forall w, exists z : Z,
     fst (getRandomNum (inject_Z a) (inject_Z b) w) == inject_Z z /\
     (a <= z <= b)%Z) /\
  (forall z : Z, (a <= z <= b)%Z ->
     exists r, (0 <= r /\ r < 1) /\
       fst (getRandomNum (inject_Z a) (inject_Z b) (next_draw r)) == inject_Z z).
Proof.
  intro Hab.
  assert (E1 : inject_Z b - inject_Z a + 1 == inject_Z (b - a + 1)).
  { unfold Z.sub. rewrite !inject_Z_plus, inject_Z_opp.
    change (inject_Z 1) with 1. lra. }
  split.
  - intro w. unfold getRandomNum. rewrite bind_run. unfold ret. cbn [fst].
    destruct (Math_random_range w) as [R0 R1].
    set (r := fst (Math_random w)) in *.
    exists (Qfloor (r * inject_Z (b - a + 1)) + a)%Z.
    destruct (floor_scaled_range r (b - a + 1) R0 R1 ltac:(lia)) as [L U].
    split; [|lia].
    rewrite (Math_floor_eq _ (r * inject_Z (b - a + 1)))
      by (rewrite E1; reflexivity).
    unfold JS.Math_floor.
    set (X := Qfloor (r * inject_Z (b - a + 1))).
    rewrite (inject_Z_plus X a). reflexivity.
  - intros z Hz.
    set (r := inject_Z (z - a) / inject_Z (b - a + 1)).
    assert (Hd : 0 < inject_Z (b - a + 1)).
    { change 0 with (inject_Z 0). rewrite <- Zlt_Qlt. lia. }
    assert (Hn0 : 0 <= inject_Z (z - a)).
    { change 0 with (inject_Z 0). rewrite <- Zle_Qle. lia. }
    assert (Hn1 : inject_Z (z - a) < inject_Z (b - a + 1)).
    { rewrite <- Zlt_Qlt. lia. }
    assert (Hr0 : 0 <= r).
    { unfold r. apply Qle_shift_div_l; [exact Hd | lra]. }
    assert (Hr1 : r < 1).
    { unfold r. apply Qlt_shift_div_r; [exact Hd | lra]. }
    exists r. split; [split; assumption|].
    unfold getRandomNum. rewrite bind_run. unfold ret. cbn [fst].
    change (fst (Math_random (next_draw r))) with (frac r).
    assert (E : frac r * (inject_Z b - inject_Z a + 1) == inject_Z (z - a)).
    { rewrite (frac_small r Hr0 Hr1), E1. unfold r. field. lra. }
    rewrite (Math_floor_eq _ _ E). unfold JS.Math_floor. rewrite Qfloor_Z.
    unfold Z.sub. rewrite inject_Z_plus, inject_Z_opp. lra.
Qed.

Lemma getRandomNum_range_witness :
  (exists z : Z,
     fst (getRandomNum (inject_Z 1) (inject_Z 3) (next_draw 0.5)) == inject_Z z /\
     (1 <= z <= 3)%Z) /\
  exists r, (0 <= r /\ r < 1) /\
    fst (getRandomNum (inject_Z 1) (inject_Z 3) (next_draw r)) == inject_Z 3.
Proof.
  destruct (getRandomNum_range 1 3) as [H1 H2]; [lia|].
  split; [apply H1 | apply H2; lia].
Defined.

(** ** Obstacles *)

Lemma new_fields IS_MOBILE tc dims gc speed xoff w :
  let o := fst (Obstacle.new IS_MOBILE tc dims gc speed xoff w) in
  Obstacle.size o = keptSize tc speed w /\
  Obstacle.width o = ObstacleType.width tc * keptSize tc speed w /\
  Obstacle.collisionBoxes o
  = (if JS.gtb (keptSize tc speed w) 1
     then Obstacle.adjustCollisionBoxes
            (ObstacleType.width tc * keptSize tc speed w)
            (ObstacleType.collisionBoxes tc)
     else ObstacleType.collisionBoxes tc) /\
  Obstacle.remove o = false /\
  Obstacle.xPos o
  = dims + match xoff with
           | Some v => if JS.truthy v then v else 0
           | None => 0
           end.
Proof.
  unfold Obstacle.new, Obstacle.init, Obstacle.getGap, keptSize, drawnSize,
    getRandomNum, bind, ret, Math_random, frac, Obstacle.cloneCollisionBoxes.
  run_io.
  assert (Hm : forall l : list CollisionBox.t,
             map (fun b => CollisionBox.new (CollisionBox.x b) (CollisionBox.y b)
                             (CollisionBox.width b) (CollisionBox.height b)) l = l).
  { induction l as [|b l IH]; [reflexivity|]. simpl. rewrite IH.
    destruct b; reflexivity. }
  rewrite Hm.
  destruct (ObstacleType.yPos tc) eqn:Ey;
  destruct (JS.truthy_opt (ObstacleType.speedOffset tc)) eqn:Es;
  run_io; repeat split; reflexivity.
Qed.

Lemma drawnSize_cases (w : World) :
  drawnSize w = inject_Z 0 + 1 \/ drawnSize w = inject_Z 1 + 1
  \/ drawnSize w = inject_Z 2 + 1.
Proof.
  unfold drawnSize, JS.Math_floor.
  destruct (frac_range (random w (random_calls w))) as [F0 F1].
  destruct (floor_scaled_range _ 3 F0 F1 ltac:(lia)) as [L U].
  assert (E : frac (random w (random_calls w)) * (Obstacle.MAX_OBSTACLE_LENGTH - 1 + 1)
              == frac (random w (random_calls w)) * inject_Z 3).
  { assert (E3 : Obstacle.MAX_OBSTACLE_LENGTH - 1 + 1 == inject_Z 3) by reflexivity.
    rewrite E3. reflexivity. }
  rewrite E.
  set (z := Qfloor _) in *.
  assert (Hz : z = 0%Z \/ z = 1%Z \/ z = 2%Z) by lia.
  destruct Hz as [-> | [-> | ->]]; auto.
Qed.

(** X6: a constructed obstacle of a type of the table is a group of one,
    two or three; it is a single one below the group speed of its type;
    its width is the type's width times the size; and each of its
    collision boxes lies between its left and right edge. *)
Theorem Obstacle_new_boxes_inside IS_MOBILE tc dims gc speed xoff w :
  In tc Obstacle.types ->
  let o := fst (Obstacle.new IS_MOBILE tc dims gc speed xoff w) in
  (Obstacle.size o == 1 \/ Obstacle.size o == 2 \/ Obstacle.size o == 3) /\
  (speed < ObstacleType.multipleSpeed tc -> Obstacle.size o == 1) /\
  Obstacle.width o == ObstacleType.width tc * Obstacle.size o /\
  List.length (Obstacle.collisionBoxes o)
  = List.length (ObstacleType.collisionBoxes tc) /\
  Forall (fun b => 0 <= CollisionBox.x b /\ 0 < CollisionBox.width b /\
                   CollisionBox.x b + CollisionBox.width b <= Obstacle.width o)
         (Obstacle.collisionBoxes o).
Proof.
  intros Hin o.
  destruct (new_fields IS_MOBILE tc dims gc speed xoff w)
    as (Hs & Hw & Hb & _).
  fold o in Hs, Hw, Hb. rewrite Hs, Hw, Hb. clear Hs Hw Hb o.
  unfold keptSize.
  assert (Hlt : speed < ObstacleType.multipleSpeed tc ->
                JS.gtb (ObstacleType.multipleSpeed tc) speed = true)
    by (intro H; apply gtb_gt; exact H).
  destruct (JS.gtb (ObstacleType.multipleSpeed tc) speed);
    [clear Hlt | assert (Hge : ~ speed < ObstacleType.multipleSpeed tc)
                   by (intro H; specialize (Hlt H); discriminate); clear Hlt];
  destruct (drawnSize_cases w) as [-> | [-> | ->]];
  simpl in Hin;
  destruct Hin as [<- | [<- | [<- | []]]];
  (split; [vm_compute; intuition discriminate|]);
  (split; [first [intro; reflexivity | intro H; exfalso; exact (Hge H)]|]);
  (split; [reflexivity|]);
  (split; [reflexivity|]);
  vm_compute; repeat constructor; discriminate.
Qed.

Lemma Obstacle_new_boxes_inside_witness :
  In CACTUS_SMALL Obstacle.types /\
  Forall (fun b => 0 <= CollisionBox.x b /\ 0 < CollisionBox.width b /\
                   CollisionBox.x b + CollisionBox.width b
                   <= Obstacle.width
                        (fst (Obstacle.new false CACTUS_SMALL 600 0.6 6 None
                                (world_of [0.9; 0.5] 0))))
         (Obstacle.collisionBoxes
            (fst (Obstacle.new false CACTUS_SMALL 600 0.6 6 None
                    (world_of [0.9; 0.5] 0)))).
Proof.
  split.
  - left. reflexivity.
  - apply (Obstacle_new_boxes_inside false CACTUS_SMALL 600 0.6 6 None
             (world_of [0.9; 0.5] 0)).
    left. reflexivity.
Defined.

Lemma Obstacle_update_fields (deltaTime speed : Q) (o : Obstacle.t) :
  Obstacle.remove o = false ->
  let o' := Obstacle.update deltaTime speed o in
  Obstacle.xPos o'
  = Obstacle.xPos o - JS.Math_floor (scrollStep deltaTime speed o) /\
  Obstacle.remove o' = negb (Obstacle.isVisible o') /\
  Obstacle.width o' = Obstacle.width o /\
  Obstacle.typeConfig o' = Obstacle.typeConfig o /\
  Obstacle.speedOffset o' = Obstacle.speedOffset o /\
  Obstacle.collisionBoxes o' = Obstacle.collisionBoxes o /\
  Obstacle.gap o' = Obstacle.gap o.
Proof.
  intros Hr. unfold Obstacle.update, scrollStep, scrollSpeed. rewrite Hr. cbn [negb].
  destruct (match ObstacleType.numFrames (Obstacle.typeConfig o) with
            | Some n => _ | None => _ end) as [tm cf].
  cbv zeta.
  unfold Obstacle.isVisible.
  cbn [Obstacle.xPos Obstacle.width].
  destruct (JS.gtb _ 0) eqn:V;
    cbn [negb Obstacle.xPos Obstacle.width Obstacle.remove
         Obstacle.typeConfig Obstacle.speedOffset Obstacle.collisionBoxes
         Obstacle.gap]; rewrite ?V; repeat split; reflexivity.
Qed.

(** X7: a frame never moves an obstacle to the right, given a
    non-negative frame time and scroll speed; it moves it by a whole
    number of pixels, flags it for removal exactly when its right edge
    has reached the left edge of the canvas, and leaves its width,
    collision boxes and gap alone. *)
Theorem Obstacle_update_leftwards (deltaTime speed : Q) (o : Obstacle.t) :
  Obstacle.remove o = false ->
  0 <= deltaTime ->
  0 <= scrollSpeed speed o ->
  let o' := Obstacle.update deltaTime speed o in
  Obstacle.xPos o' <= Obstacle.xPos o /\
  (exists k : Z, (0 <= k)%Z /\ Obstacle.xPos o - Obstacle.xPos o' == inject_Z k) /\
  (Obstacle.remove o' = true <-> Obstacle.xPos o' + Obstacle.width o' <= 0) /\
  Obstacle.width o' = Obstacle.width o /\
  Obstacle.collisionBoxes o' = Obstacle.collisionBoxes o /\
  Obstacle.gap o' = Obstacle.gap o.
Proof.
  intros Hr Hd Hs o'.
  destruct (Obstacle_update_fields deltaTime speed o Hr)
    as (Hx & Hrm & Hw & _ & _ & Hb & Hg).
  fold o' in Hx, Hrm, Hw, Hb, Hg.
  assert (Hp : 0 <= scrollStep deltaTime speed o).
  { unfold scrollStep, JS.mul, JS.div, FPS.
    assert (A : 0 <= JS.round64 (scrollSpeed speed o * 60))
      by (apply round64_nonneg; lra).
    assert (B : 0 <= JS.round64 (JS.round64 (scrollSpeed speed o * 60) / 1000)).
    { apply round64_nonneg. apply Qle_shift_div_l; [reflexivity | lra]. }
    apply round64_nonneg. apply Qmult_le_0_compat; assumption. }
  assert (Hk : (0 <= Qfloor (scrollStep deltaTime speed o))%Z).
  { rewrite <- (Qfloor_Z 0). apply Qfloor_resp_le. exact Hp. }
  assert (Hq : 0 <= JS.Math_floor (scrollStep deltaTime speed o)).
  { unfold JS.Math_floor. change 0 with (inject_Z 0). rewrite <- Zle_Qle. exact Hk. }
  split; [rewrite Hx; lra|].
  split.
  { exists (Qfloor (scrollStep deltaTime speed o)).
    split; [exact Hk|]. rewrite Hx. unfold JS.Math_floor. ring. }
  split.
  { rewrite Hrm, negb_true_iff. unfold Obstacle.isVisible. apply gtb_le. }
  auto.
Qed.

Lemma Obstacle_update_leftwards_witness :
  Obstacle.remove (obstacle_at CACTUS_SMALL 300 105) = false /\
  Obstacle.xPos (Obstacle.update (1000 / 60) 6 (obstacle_at CACTUS_SMALL 300 105))
  <= Obstacle.xPos (obstacle_at CACTUS_SMALL 300 105).
Proof.
  split; [reflexivity|].
  apply (Obstacle_update_leftwards (1000 / 60) 6 (obstacle_at CACTUS_SMALL 300 105));
    [reflexivity | discriminate | discriminate].
Defined.

Lemma Obstacle_update_removed_id (deltaTime speed : Q) (o : Obstacle.t) :
  Obstacle.remove o = true -> Obstacle.update deltaTime speed o = o.
Proof. intro H. unfold Obstacle.update. rewrite H. reflexivity. Qed.

Lemma Obstacle_updates_removed_id (n : nat) (deltaTime speed : Q) (o : Obstacle.t) :
  Obstacle.remove o = true -> Obstacle_updates n deltaTime speed o = o.
Proof.
  intro H. induction n as [|n IH]; [reflexivity|].
  unfold Obstacle_updates in *. simpl. rewrite IH.
  apply Obstacle_update_removed_id, H.
Qed.

Lemma Obstacle_updates_succ (n : nat) (deltaTime speed : Q) (o : Obstacle.t) :
  Obstacle_updates (S n) deltaTime speed o
  = Obstacle_updates n deltaTime speed (Obstacle.update deltaTime speed o).
Proof.
  unfold Obstacle_updates. rewrite Nat.iter_succ_r. reflexivity.
Qed.

(** X8: an obstacle that scrolls at least one pixel a frame leaves the
    canvas.  When the step [(speed * FPS / 1000) * deltaTime], as the
    machine computes it, is at least 1, then after as many frames as its
    right edge is pixels from the left edge of the canvas, and one more,
    the obstacle is flagged for removal. *)
Theorem Obstacle_updates_leave (n : nat) (deltaTime speed : Q) (o : Obstacle.t) :
  1 <= scrollStep deltaTime speed o ->
  Obstacle.xPos o + Obstacle.width o <= inject_Z (Z.of_nat n) ->
  Obstacle.remove (Obstacle_updates (S n) deltaTime speed o) = true.
Proof.
  revert o. induction n as [|n IH]; intros o Hs Hx.
  - destruct (Obstacle.remove o) eqn:Hr.
    + rewrite Obstacle_updates_removed_id; assumption.
    + destruct (Obstacle_update_fields deltaTime speed o Hr)
        as (Ex & Erm & Ew & _).
      unfold Obstacle_updates. simpl. rewrite Erm, negb_true_iff.
      unfold Obstacle.isVisible. apply gtb_le. rewrite Ex, Ew.
      assert (H1 : 1 <= JS.Math_floor (scrollStep deltaTime speed o)).
      { unfold JS.Math_floor. change 1 with (inject_Z 1). rewrite <- Zle_Qle.
        rewrite <- (Qfloor_Z 1). apply Qfloor_resp_le. exact Hs. }
      change (inject_Z (Z.of_nat 0)) with 0 in Hx. lra.
  - rewrite Obstacle_updates_succ.
    destruct (Obstacle.remove o) eqn:Hr.
    + rewrite Obstacle_update_removed_id by assumption.
      rewrite Obstacle_updates_removed_id; assumption.
    + destruct (Obstacle_update_fields deltaTime speed o Hr)
        as (Ex & Erm & Ew & Etc & Eso & _).
      apply IH.
      * unfold scrollStep, scrollSpeed in *. rewrite Etc, Eso. exact Hs.
      * rewrite Ex, Ew.
        assert (H1 : 1 <= JS.Math_floor (scrollStep deltaTime speed o)).
        { unfold JS.Math_floor. change 1 with (inject_Z 1). rewrite <- Zle_Qle.
          rewrite <- (Qfloor_Z 1). apply Qfloor_resp_le. exact Hs. }
        rewrite Nat2Z.inj_succ in Hx. unfold Z.succ in Hx.
        rewrite inject_Z_plus in Hx. change (inject_Z 1) with 1 in Hx. lra.
Qed.

Lemma Obstacle_updates_leave_witness :
  1 <= scrollStep (1000 / 60) 6 (obstacle_at CACTUS_SMALL 3 105) /\
  Obstacle.remove
    (Obstacle_updates 21 (1000 / 60) 6 (obstacle_at CACTUS_SMALL 3 105)) = true.
Proof.
  split; [vm_compute; discriminate|].
  apply (Obstacle_updates_leave 20 (1000 / 60) 6 (obstacle_at CACTUS_SMALL 3 105));
    [vm_compute; discriminate | discriminate].
Defined.

(** The step on doubles.  A frame of 100 ms at speed 9.5 is 57 pixels
    on exact rationals; the machine computes 9.5 * 60 / 1000 as
    0.56999999999999995 and moves the obstacle by 56. *)
Example update_100_ms :
  let o := obstacle_at CACTUS_SMALL 300 105 in
  (9.5 * FPS / 1000) * 100 == 57 /\
  Obstacle.xPos (Obstacle.update 100 9.5 o) == Obstacle.xPos o - 56.
Proof. cbv zeta. split; vm_compute; reflexivity. Qed.

(** The step at the edge.  At speed 8.9970000000001153 and a frame of
    1.8524693416323723 ms the product is at least 1 on exact rationals,
    but the product the machine computes is below 1: [Math.floor] gives 0
    and the obstacle does not move. *)
Example scrollStep_below_one :
  let speed := JS.round64 (89970000000001153 # 10000000000000000) in
  let deltaTime := JS.round64 (18524693416323723 # 10000000000000000) in
  let o := obstacle_at CACTUS_SMALL 300 105 in
  1 <= (speed * FPS / 1000) * deltaTime /\
  scrollStep deltaTime speed o < 1 /\
  Obstacle.xPos (Obstacle.update deltaTime speed o) == Obstacle.xPos o.
Proof.
  cbv zeta. split; [vm_compute; discriminate|].
  split; vm_compute; reflexivity.
Qed.

(** ** The flight of the T-rex *)

Lemma flight_set_timer v o : flight (Trex.set_timer v o) = flight o.
Proof. destruct o; reflexivity. Qed.
Lemma flight_set_currentFrame v o : flight (Trex.set_currentFrame v o) = flight o.
Proof. destruct o; reflexivity. Qed.
Lemma flight_set_msPerFrame v o : flight (Trex.set_msPerFrame v o) = flight o.
Proof. destruct o; reflexivity. Qed.
Lemma flight_set_currentAnimFrames v o :
  flight (Trex.set_currentAnimFrames v o) = flight o.
Proof. destruct o; reflexivity. Qed.
Lemma flight_set_xPos v o : flight (Trex.set_xPos v o) = flight o.
Proof. destruct o; reflexivity. Qed.
Lemma flight_set_status v o : flight (Trex.set_status v o) = flight o.
Proof. destruct o; reflexivity. Qed.
Lemma flight_set_blinkDelay v o : flight (Trex.set_blinkDelay v o) = flight o.
Proof. destruct o; reflexivity. Qed.
Lemma flight_set_blinkCount v o : flight (Trex.set_blinkCount v o) = flight o.
Proof. destruct o; reflexivity. Qed.
Lemma flight_set_animStartTime v o : flight (Trex.set_animStartTime v o) = flight o.
Proof. destruct o; reflexivity. Qed.
Lemma flight_set_ducking v o : flight (Trex.set_ducking v o) = flight o.
Proof. destruct o; reflexivity. Qed.
Lemma flight_set_speedDrop v o : flight (Trex.set_speedDrop v o) = flight o.
Proof. destruct o; reflexivity. Qed.
Lemma flight_set_jumpCount v o : flight (Trex.set_jumpCount v o) = flight o.
Proof. destruct o; reflexivity. Qed.
Lemma flight_set_midair v o : flight (Trex.set_midair v o) = flight o.
Proof. destruct o; reflexivity. Qed.

Create Rewrite HintDb flight.
#[local] Hint Rewrite flight_set_timer flight_set_currentFrame
  flight_set_msPerFrame flight_set_currentAnimFrames flight_set_xPos
  flight_set_status flight_set_blinkDelay flight_set_blinkCount
  flight_set_animStartTime flight_set_ducking flight_set_speedDrop
  flight_set_jumpCount flight_set_midair : flight.

Lemma flight_draw o : flight (Trex.draw o) = flight o.
Proof.
  unfold Trex.draw.
  destruct (Trex.ducking o && negb (Trex.Status_eqb (Trex.status o) Trex.CRASHED));
    [reflexivity|].
  destruct (Trex.ducking o && Trex.Status_eqb (Trex.status o) Trex.CRASHED);
    [apply flight_set_xPos | reflexivity].
Qed.

Lemma flight_setBlinkDelay o w : flight (fst (Trex.setBlinkDelay o w)) = flight o.
Proof.
  unfold Trex.setBlinkDelay. rewrite bind_run. unfold ret. cbn [fst].
  apply flight_set_blinkDelay.
Qed.

Lemma flight_blink time o w : flight (fst (Trex.blink time o w)) = flight o.
Proof.
  unfold Trex.blink.
  destruct (JS.geb _ _); [|reflexivity].
  destruct (JS.eqb _ _).
  - rewrite bind_run. unfold ret. cbn [fst].
    rewrite flight_set_blinkCount, flight_set_animStartTime,
      flight_setBlinkDelay. apply flight_draw.
  - unfold ret. cbn [fst]. apply flight_draw.
Qed.

Lemma flight_update_frame (deltaTime : Q) (os : option Trex.Status) (o : Trex.t)
    (w : World) :
  flight (fst (Trex.update_frame deltaTime os o w)) = flight o.
Proof.
  unfold Trex.update_frame.
  set (o1 := Trex.set_timer (Trex.timer o + deltaTime) o).
  assert (C1 : flight o1 = flight o) by apply flight_set_timer.
  rewrite bind_run.
  set (m2 := match os with
             | Some s => _
             | None => ret o1
             end).
  assert (C2 : flight (fst (m2 w)) = flight o).
  { unfold m2. destruct os as [s|]; [|exact C1].
    destruct (Trex.Status_eqb s Trex.WAITING).
    - rewrite bind_run. rewrite flight_setBlinkDelay.
      autorewrite with flight. exact C1.
    - unfold ret. cbn [fst]. autorewrite with flight. exact C1. }
  set (o2 := fst (m2 w)) in *. set (w2 := snd (m2 w)).
  set (o3 := if Trex.playingIntro o2 && _ then _ else o2).
  assert (C3 : flight o3 = flight o).
  { unfold o3. destruct (Trex.playingIntro o2 && _);
      [rewrite flight_set_xPos|]; exact C2. }
  rewrite bind_run.
  set (m4 := if Trex.Status_eqb (Trex.status o3) Trex.WAITING then _ else _).
  assert (C4 : flight (fst (m4 w2)) = flight o).
  { unfold m4. destruct (Trex.Status_eqb (Trex.status o3) Trex.WAITING).
    - rewrite bind_run. rewrite flight_blink. exact C3.
    - unfold ret. cbn [fst]. rewrite flight_draw. exact C3. }
  set (o4 := fst (m4 w2)) in *.
  unfold ret. cbn [fst].
  destruct (JS.geb (Trex.timer o4) (Trex.msPerFrame o4));
    autorewrite with flight; exact C4.
Qed.

Lemma flight_setDuck_with_frame (b : bool) (o : Trex.t) (w : World) :
  flight (fst (Trex.setDuck_with Trex.update_frame b o w)) = flight o.
Proof.
  unfold Trex.setDuck_with.
  destruct (b && negb (Trex.Status_eqb (Trex.status o) Trex.DUCKING)).
  - rewrite bind_run. unfold ret. cbn [fst].
    rewrite flight_set_ducking. apply flight_update_frame.
  - destruct (Trex.Status_eqb (Trex.status o) Trex.DUCKING).
    + rewrite bind_run. unfold ret. cbn [fst].
      rewrite flight_set_ducking. apply flight_update_frame.
    + reflexivity.
Qed.

Lemma flight_update (deltaTime : Q) (os : option Trex.Status) (o : Trex.t)
    (w : World) :
  flight (fst (Trex.update deltaTime os o w)) = flight o.
Proof.
  unfold Trex.update. rewrite bind_run.
  pose proof (flight_update_frame deltaTime os o w) as C.
  set (o1 := fst (Trex.update_frame deltaTime os o w)) in *.
  destruct (Trex.speedDrop o1 && JS.eqb (Trex.yPos o1) (Trex.groundYPos o1)).
  - rewrite flight_setDuck_with_frame, flight_set_speedDrop. exact C.
  - unfold ret. cbn [fst]. exact C.
Qed.

Lemma flight_fields o c y g m j v r :
  flight o = (c, y, g, m, j, v, r) ->
  Trex.config o = c /\ Trex.yPos o = y /\ Trex.groundYPos o = g /\
  Trex.minJumpHeight o = m /\ Trex.jumping o = j /\ Trex.jumpVelocity o = v /\
  Trex.reachedMinHeight o = r.
Proof.
  unfold flight. intro H. inversion H. repeat split; reflexivity.
Qed.

(** X9: the animation step [update(deltaTime, opt_status)] of the T-rex
    is no part of its physics: whatever the status asked for, the time
    and the values of the clock and of [Math.random()], it leaves the
    height, the ground level, the jump velocity, the [jumping] and
    [reachedMinHeight] flags, the minimum jump height and the
    configuration as they were. *)
Theorem Trex_update_keeps_flight (deltaTime : Q) (os : option Trex.Status)
    (o : Trex.t) (w : World) :
  let o' := fst (Trex.update deltaTime os o w) in
  Trex.yPos o' = Trex.yPos o /\
  Trex.groundYPos o' = Trex.groundYPos o /\
  Trex.jumpVelocity o' = Trex.jumpVelocity o /\
  Trex.jumping o' = Trex.jumping o /\
  Trex.reachedMinHeight o' = Trex.reachedMinHeight o /\
  Trex.minJumpHeight o' = Trex.minJumpHeight o /\
  Trex.config o' = Trex.config o.
Proof.
  cbv zeta.
  destruct (flight_fields _ _ _ _ _ _ _ _ (flight_update deltaTime os o w))
    as (H1 & H2 & H3 & H4 & H5 & H6 & H7).
  repeat split; assumption.
Qed.

Lemma update_core_some (deltaTime : Q) (s : Trex.Status) (o : Trex.t) (w : World) :
  s <> Trex.WAITING ->
  Trex.speedDrop o = false ->
  core (fst (Trex.update deltaTime (Some s) o w))
  = (s, Trex.yPos o, Trex.groundYPos o, Trex.jumping o, Trex.ducking o,
     false, Trex.jumpCount o).
Proof.
  intros Hs Hd. unfold Trex.update. rewrite bind_run.
  pose proof (update_frame_core deltaTime (Some s) o w Hs) as C.
  set (o1 := fst (Trex.update_frame deltaTime (Some s) o w)) in *.
  destruct (core_fields _ _ _ _ _ _ _ _ C) as (_ & _ & _ & _ & _ & H6 & _).
  rewrite H6, Hd. cbn [andb]. unfold ret. cbn [fst].
  rewrite C, Hd. reflexivity.
Qed.

(** X10: a T-rex that is not jumping takes off: [startJump(speed)]
    leaves it at its height with status JUMPING, [jumping] set, the
    height flag and the speed drop cleared, and the upward velocity
    [INIITAL_JUMP_VELOCITY - speed / 10], so the jump is the stronger
    the faster the game runs. *)
Theorem startJump_takes_off (speed : Q) (o : Trex.t) (w : World) :
  Trex.jumping o = false ->
  Trex.speedDrop o = false ->
  let o' := fst (Trex.startJump speed o w) in
  Trex.status o' = Trex.JUMPING /\
  Trex.jumping o' = true /\
  Trex.yPos o' = Trex.yPos o /\
  Trex.jumpVelocity o'
  = Trex.INIITAL_JUMP_VELOCITY (Trex.config o) - speed / 10 /\
  Trex.reachedMinHeight o' = false /\
  Trex.speedDrop o' = false /\
  Trex.ducking o' = Trex.ducking o.
Proof.
  intros Hj Hd. cbv zeta. unfold Trex.startJump. rewrite Hj. cbn [negb].
  rewrite bind_run. unfold ret. cbn [fst].
  assert (Hs : Trex.JUMPING <> Trex.WAITING) by discriminate.
  pose proof (update_core_some 0 Trex.JUMPING o w Hs Hd) as C.
  pose proof (flight_update 0 (Some Trex.JUMPING) o w) as F.
  set (o1 := fst (Trex.update 0 (Some Trex.JUMPING) o w)) in *.
  clearbody o1.
  destruct (core_fields _ _ _ _ _ _ _ _ C) as (C1 & C2 & _ & _ & C5 & _ & _).
  destruct (flight_fields _ _ _ _ _ _ _ _ F) as (F1 & _).
  rewrite <- F1, <- C2, <- C5, <- C1.
  destruct o1; repeat split; reflexivity.
Qed.

Lemma startJump_takes_off_witness :
  Trex.jumping (tRex_at 50 93 false) = false /\
  Trex.jumpVelocity (fst (Trex.startJump 6 (tRex_at 50 93 false) (world_of [] 0)))
  = Trex.INIITAL_JUMP_VELOCITY (Trex.config (tRex_at 50 93 false)) - 6 / 10.
Proof.
  split; [reflexivity|].
  destruct (startJump_takes_off 6 (tRex_at 50 93 false) (world_of [] 0))
    as (_ & _ & _ & H4 & _); [reflexivity | reflexivity | exact H4].
Defined.

Lemma flight_reset (o : Trex.t) (w : World) :
  flight (fst (Trex.reset o w))
  = (Trex.config o, Trex.groundYPos o, Trex.groundYPos o, Trex.minJumpHeight o,
     false, 0, Trex.reachedMinHeight o).
Proof.
  unfold Trex.reset. rewrite bind_run. unfold ret. cbn [fst].
  autorewrite with flight. rewrite flight_update.
  destruct o; reflexivity.
Qed.

(** X11: [updateJump] never leaves the T-rex below the ground: whatever
    its state, the frame time and the world, its height after the call is
    at or above ground level (heights grow downwards), and the ground
    level is the one from before. *)
Theorem updateJump_not_below_ground (deltaTime : Q) (o : Trex.t) (w : World) :
  Trex.yPos (fst (Trex.updateJump deltaTime o w)) <= Trex.groundYPos o /\
  Trex.groundYPos (fst (Trex.updateJump deltaTime o w)) = Trex.groundYPos o.
Proof.
  rewrite updateJump_unfold, bind_run.
  pose proof (before_landing_core deltaTime o) as C0.
  set (bl := before_landing deltaTime o) in *.
  destruct (core_fields _ _ _ _ _ _ _ _ C0) as (_ & _ & A3 & _).
  set (m := if JS.gtb (Trex.yPos bl) (Trex.groundYPos bl) then _ else _).
  destruct (flight_fields _ _ _ _ _ _ _ _
              (flight_update deltaTime None (fst (m w)) (snd (m w))))
    as (_ & F2 & F3 & _).
  rewrite F2, F3. unfold m.
  destruct (JS.gtb (Trex.yPos bl) (Trex.groundYPos bl)) eqn:G.
  - rewrite bind_run. unfold ret. cbn [fst].
    set (o5 := fst (Trex.reset bl w)).
    pose proof (flight_reset bl w) as R. fold o5 in R.
    rewrite <- (flight_set_jumpCount (Trex.jumpCount o5 + 1) o5) in R.
    destruct (flight_fields _ _ _ _ _ _ _ _ R) as (_ & R2 & R3 & _).
    rewrite R2, R3, A3. split; [apply Qle_refl | reflexivity].
  - unfold ret. cbn [fst]. apply gtb_le in G. rewrite A3 in *.
    split; [exact G | reflexivity].
Qed.

(** X12: [endJump] caps the upward velocity: once the minimum height has
    been reached the T-rex does not rise faster than [DROP_VELOCITY]
    after the call; the call changes no other field than the velocity,
    and a second call changes nothing. *)
Theorem endJump_caps (o : Trex.t) :
  (Trex.reachedMinHeight o = true ->
   Trex.DROP_VELOCITY (Trex.config o) <= Trex.jumpVelocity (Trex.endJump o)) /\
  Trex.endJump o = Trex.set_jumpVelocity (Trex.jumpVelocity (Trex.endJump o)) o /\
  Trex.endJump (Trex.endJump o) = Trex.endJump o.
Proof.
  unfold Trex.endJump.
  destruct (Trex.reachedMinHeight o) eqn:R; cbn [andb].
  - destruct (JS.ltb (Trex.jumpVelocity o) (Trex.DROP_VELOCITY (Trex.config o))) eqn:L.
    + split; [intros _; destruct o; apply Qle_refl|].
      split; [destruct o; reflexivity|].
      destruct o; cbn in *. rewrite R. cbn [andb].
      assert (E : JS.ltb (Trex.DROP_VELOCITY config) (Trex.DROP_VELOCITY config) = false)
        by (apply ltb_ge, Qle_refl).
      rewrite E. reflexivity.
    + split; [intros _; apply ltb_ge in L; exact L|].
      split; [destruct o; reflexivity|].
      rewrite R, L. reflexivity.
  - split; [discriminate|].
    split; [destruct o; reflexivity|].
    rewrite R. reflexivity.
Qed.

Lemma setDuck_down (o : Trex.t) (w : World) :
  Trex.status o <> Trex.DUCKING ->
  Trex.speedDrop o = false ->
  core (fst (Trex.setDuck true o w))
  = (Trex.DUCKING, Trex.yPos o, Trex.groundYPos o, Trex.jumping o, true,
     false, Trex.jumpCount o) /\
  flight (fst (Trex.setDuck true o w)) = flight o.
Proof.
  intros Hs Hd.
  unfold Trex.setDuck, Trex.setDuck_with.
  rewrite (Status_eqb_neq _ _ Hs). cbn [negb andb].
  rewrite bind_run. unfold ret. cbn [fst].
  assert (Hk : Trex.DUCKING <> Trex.WAITING) by discriminate.
  pose proof (update_core_some 0 Trex.DUCKING o w Hk Hd) as C.
  pose proof (flight_update 0 (Some Trex.DUCKING) o w) as F.
  set (oa := fst (Trex.update 0 (Some Trex.DUCKING) o w)) in *.
  clearbody oa.
  rewrite core_set_ducking, flight_set_ducking.
  destruct (core_fields _ _ _ _ _ _ _ _ C) as (A1 & A2 & A3 & A4 & A5 & A6 & A7).
  split; [congruence | exact F].
Qed.

Lemma setDuck_up (o : Trex.t) (w : World) :
  Trex.status o = Trex.DUCKING ->
  Trex.speedDrop o = false ->
  core (fst (Trex.setDuck false o w))
  = (Trex.RUNNING, Trex.yPos o, Trex.groundYPos o, Trex.jumping o, false,
     false, Trex.jumpCount o) /\
  flight (fst (Trex.setDuck false o w)) = flight o.
Proof.
  intros Hs Hd.
  unfold Trex.setDuck, Trex.setDuck_with.
  rewrite Hs. cbn [negb andb Trex.Status_eqb].
  rewrite bind_run. unfold ret. cbn [fst].
  assert (Hk : Trex.RUNNING <> Trex.WAITING) by discriminate.
  pose proof (update_core_some 0 Trex.RUNNING o w Hk Hd) as C.
  pose proof (flight_update 0 (Some Trex.RUNNING) o w) as F.
  set (oa := fst (Trex.update 0 (Some Trex.RUNNING) o w)) in *.
  clearbody oa.
  rewrite core_set_ducking, flight_set_ducking.
  destruct (core_fields _ _ _ _ _ _ _ _ C) as (A1 & A2 & A3 & A4 & A5 & A6 & A7).
  split; [congruence | exact F].
Qed.

(** X13: ducking and standing up again.  For a T-rex that is not
    ducking, with no speed drop pending, [setDuck(true)] gives the status
    DUCKING with [ducking] set, and [setDuck(false)] after it gives the
    status RUNNING with [ducking] cleared; neither call moves the T-rex
    vertically or touches its jump state. *)
Theorem setDuck_round_trip (o : Trex.t) (w : World) :
  Trex.status o <> Trex.DUCKING ->
  Trex.speedDrop o = false ->
  let o1 := fst (Trex.setDuck true o w) in
  let o2 := fst (Trex.setDuck false o1 (snd (Trex.setDuck true o w))) in
  (Trex.status o1 = Trex.DUCKING /\ Trex.ducking o1 = true) /\
  (Trex.status o2 = Trex.RUNNING /\ Trex.ducking o2 = false) /\
  Trex.yPos o2 = Trex.yPos o /\
  Trex.jumping o2 = Trex.jumping o /\
  Trex.jumpVelocity o2 = Trex.jumpVelocity o.
Proof.
  intros Hs Hd o1 o2.
  destruct (setDuck_down o w Hs Hd) as [C1 F1]. fold o1 in C1, F1.
  destruct (core_fields _ _ _ _ _ _ _ _ C1) as (B1 & B2 & B3 & B4 & B5 & B6 & B7).
  destruct (setDuck_up o1 (snd (Trex.setDuck true o w)) B1 B6) as [C2 F2].
  fold o2 in C2, F2. clearbody o2. clearbody o1.
  destruct (core_fields _ _ _ _ _ _ _ _ C2) as (D1 & D2 & D3 & D4 & D5 & D6 & D7).
  rewrite F1 in F2.
  destruct (flight_fields _ _ _ _ _ _ _ _ F2) as (G1 & G2 & G3 & G4 & G5 & G6 & G7).
  repeat split; assumption.
Qed.

Lemma setDuck_round_trip_witness :
  Trex.status (tRex_at 50 93 false) <> Trex.DUCKING /\
  Trex.status (fst (Trex.setDuck true (tRex_at 50 93 false) (world_of [] 0)))
  = Trex.DUCKING.
Proof.
  split; [discriminate|].
  destruct (setDuck_round_trip (tRex_at 50 93 false) (world_of [] 0))
    as ((H1 & _) & _); [discriminate | reflexivity |].
  exact H1.
Defined.




(** X15: [reset()] puts the T-rex on the ground at rest: at ground
    level, with no velocity, not jumping, no speed drop, the count of
    jumps at 0.  Its status is RUNNING, except that a T-rex that was in a
    speed drop when [reset()] was called comes out of it ducking. *)
Theorem Trex_reset_on_ground (o : Trex.t) (w : World) :
  let o' := fst (Trex.reset o w) in
  Trex.yPos o' = Trex.groundYPos o /\
  Trex.jumpVelocity o' = 0 /\
  Trex.jumping o' = false /\
  Trex.speedDrop o' = false /\
  Trex.jumpCount o' = 0 /\
  Trex.status o' = (if Trex.speedDrop o then Trex.DUCKING else Trex.RUNNING) /\
  Trex.ducking o' = Trex.speedDrop o.
Proof.
  cbv zeta.
  destruct (core_fields _ _ _ _ _ _ _ _ (reset_core o w))
    as (C1 & C2 & C3 & C4 & C5 & C6 & C7).
  destruct (flight_fields _ _ _ _ _ _ _ _ (flight_reset o w))
    as (F1 & F2 & F3 & F4 & F5 & F6 & F7).
  repeat split; assumption.
Qed.

(** ** The distance meter *)

(** X16: the score shown grows with the distance run.  For a
    non-negative [COEFFICIENT], [getActualDistance] returns a whole
    number that is 0 for the distance 0 and never smaller for a longer
    distance than for a shorter one. *)
Theorem getActualDistance_monotone (m : DistanceMeter.t) (d1 d2 : Q) :
  0 <= DistanceMeter.COEFFICIENT (DistanceMeter.config m) ->
  0 <= d1 -> d1 <= d2 ->
  DistanceMeter.getActualDistance m 0 == 0 /\
  0 <= DistanceMeter.getActualDistance m d1 /\
  DistanceMeter.getActualDistance m d1 <= DistanceMeter.getActualDistance m d2 /\
  exists z : Z, DistanceMeter.getActualDistance m d2 = inject_Z z.
Proof.
  intros Hc H1 H12.
  assert (R : forall d, DistanceMeter.getActualDistance m d
                        = JS.Math_round (d * DistanceMeter.COEFFICIENT
                                               (DistanceMeter.config m))).
  { intro d. unfold DistanceMeter.getActualDistance, JS.truthy.
    destruct (Qeq_bool d 0) eqn:E; [|reflexivity].
    cbn [negb]. apply Qeq_bool_iff in E.
    unfold JS.Math_round.
    assert (E' : d * DistanceMeter.COEFFICIENT (DistanceMeter.config m) + (1 # 2)
                 == 1 # 2) by (rewrite E; ring).
    rewrite E'. reflexivity. }
  assert (M : forall a b, a <= b -> JS.Math_round a <= JS.Math_round b).
  { intros a b Hab. unfold JS.Math_round. rewrite <- Zle_Qle.
    apply Qfloor_resp_le. lra. }
  split.
  { unfold DistanceMeter.getActualDistance. reflexivity. }
  split.
  { rewrite R. change 0 with (JS.Math_round 0). apply M. nra. }
  split.
  { rewrite !R. apply M. nra. }
  rewrite R. unfold JS.Math_round. eexists. reflexivity.
Qed.

Lemma getActualDistance_monotone_witness :
  0 <= DistanceMeter.COEFFICIENT (DistanceMeter.config meter0) /\
  DistanceMeter.getActualDistance meter0 3990
  <= DistanceMeter.getActualDistance meter0 4010.
Proof.
  split; [discriminate|].
  destruct (getActualDistance_monotone meter0 3990 4010) as (_ & _ & H & _);
    [discriminate | discriminate | discriminate |].
  exact H.
Defined.

(** X17: the achievement sound.  [update] returns [playSound] exactly on
    the calls that start a flash: the flag [acheivement] is clear before
    the call and set after it; and that happens exactly when the score
    is positive and a multiple of [ACHIEVEMENT_DISTANCE].  While a flash
    runs no sound is asked for. *)
Theorem update_playSound (deltaTime distance : Q) (m : DistanceMeter.t) :
  let u := DistanceMeter.update deltaTime distance m in
  let score := DistanceMeter.getActualDistance m distance in
  (DistanceMeter.playSound u = true <->
   DistanceMeter.acheivement m = false /\
   DistanceMeter.acheivement (DistanceMeter.meter u) = true) /\
  (DistanceMeter.playSound u = true <->
   DistanceMeter.acheivement m = false /\ 0 < score /\
   JS.rem score (DistanceMeter.ACHIEVEMENT_DISTANCE (DistanceMeter.config m)) == 0).
Proof.
  cbv zeta. unfold DistanceMeter.update.
  destruct (DistanceMeter.acheivement m) eqn:A; cbn [negb].
  - assert (P : forall u, DistanceMeter.playSound u = false ->
              (DistanceMeter.playSound u = true <->
               true = false /\
               DistanceMeter.acheivement (DistanceMeter.meter u) = true) /\
              (DistanceMeter.playSound u = true <->
               true = false /\ 0 < DistanceMeter.getActualDistance m distance /\
               JS.rem (DistanceMeter.getActualDistance m distance)
                 (DistanceMeter.ACHIEVEMENT_DISTANCE (DistanceMeter.config m)) == 0)).
    { intros u Hu. rewrite Hu. split; split; intro H;
        try discriminate; destruct H; discriminate. }
    apply P.
    destruct (JS.leb _ _); [|reflexivity].
    destruct (JS.ltb _ _); [reflexivity|].
    destruct (JS.gtb _ _); reflexivity.
  - destruct (JS.gtb (DistanceMeter.getActualDistance m distance) 0) eqn:G.
    + apply gtb_gt in G.
      cbn [DistanceMeter.playSound DistanceMeter.meter DistanceMeter.acheivement].
      destruct (JS.eqb _ 0) eqn:E.
      * unfold JS.eqb in E. apply Qeq_bool_iff in E. rewrite ?A. tauto.
      * assert (N : ~ JS.rem (DistanceMeter.getActualDistance m distance)
                        (DistanceMeter.ACHIEVEMENT_DISTANCE (DistanceMeter.config m))
                      == 0).
        { intro H. apply Qeq_bool_iff in H. unfold JS.eqb in E. congruence. }
        rewrite ?A. split; split; intro H; try discriminate;
          destruct H as [H1 H2]; try discriminate. tauto.
    + apply gtb_le in G.
      cbn [DistanceMeter.playSound DistanceMeter.meter DistanceMeter.acheivement].
      rewrite ?A. split; split; intro H; try discriminate;
        destruct H as [H1 H2]; try discriminate.
      destruct H2 as [H2 _]. exfalso. apply (Qlt_not_le _ _ H2 G).
Qed.

(** X18: [reset()] of the distance meter clears the achievement flag.  It
    puts the display back to the string of zeros when no flash was
    running; called during a flash it leaves the digits of the last
    score in place. *)
Theorem DistanceMeter_reset_digits (m : DistanceMeter.t) :
  DistanceMeter.acheivement (DistanceMeter.reset m) = false /\
  (DistanceMeter.acheivement m = false ->
   DistanceMeter.digits (DistanceMeter.reset m)
   = split_chars (DistanceMeter.defaultString m)) /\
  (DistanceMeter.acheivement m = true ->
   DistanceMeter.digits (DistanceMeter.reset m) = DistanceMeter.digits m).
Proof.
  unfold DistanceMeter.reset. cbv zeta.
  split; [reflexivity|].
  cbn [DistanceMeter.digits].
  unfold DistanceMeter.update.
  split; intro A; rewrite A; cbn [negb].
  - assert (G : JS.gtb (DistanceMeter.getActualDistance m 0) 0 = false)
      by reflexivity.
    rewrite G. reflexivity.
  - destruct (JS.leb _ _); [|reflexivity].
    destruct (JS.ltb _ _); [reflexivity|].
    destruct (JS.gtb _ _); reflexivity.
Qed.

(** ** Night mode *)

Lemma placeStars_from_length (seg : Q) (n i : nat) (w : World) :
  List.length (fst (NightMode.placeStars_from seg i n w)) = n.
Proof.
  revert i w. induction n as [|n IH]; intros i w; [reflexivity|].
  cbn [NightMode.placeStars_from].
  rewrite !bind_run. unfold ret. cbn [fst List.length].
  rewrite IH. reflexivity.
Qed.

Lemma placeStars_fields (o : NightMode.t) (w : World) :
  let o' := fst (NightMode.placeStars o w) in
  NightMode.xPos o' = NightMode.xPos o /\
  NightMode.currentPhase o' = NightMode.currentPhase o /\
  NightMode.opacity o' = NightMode.opacity o /\
  NightMode.containerWidth o' = NightMode.containerWidth o /\
  List.length (NightMode.stars o') = NightMode.NUM_STARS.
Proof.
  cbv zeta. unfold NightMode.placeStars. rewrite bind_run. unfold ret.
  cbn [fst NightMode.xPos NightMode.currentPhase NightMode.opacity
       NightMode.containerWidth NightMode.stars].
  rewrite placeStars_from_length. repeat split; reflexivity.
Qed.

Lemma NightMode_update_fields (activated : bool) (o : NightMode.t) (w : World) :
  let o' := fst (NightMode.update activated o w) in
  let phase' :=
    if activated && JS.eqb (NightMode.opacity o) 0 then
      if JS.geb (NightMode.currentPhase o + 1)
           (inject_Z (Z.of_nat (List.length NightMode.phases)))
      then 0 else NightMode.currentPhase o + 1
    else NightMode.currentPhase o in
  NightMode.currentPhase o' = phase' /\
  NightMode.containerWidth o' = NightMode.containerWidth o /\
  (NightMode.xPos o' = NightMode.xPos o \/
   NightMode.xPos o' = NightMode.updateXPos o (NightMode.xPos o) NightMode.MOON_SPEED) /\
  (List.length (NightMode.stars o') = List.length (NightMode.stars o) \/
   List.length (NightMode.stars o') = NightMode.NUM_STARS).
Proof.
  cbv zeta. unfold NightMode.update. rewrite bind_run. unfold ret at 3.
  cbn [fst NightMode.xPos NightMode.currentPhase NightMode.containerWidth
       NightMode.stars].
  destruct (JS.gtb _ 0).
  - unfold ret.
    cbn [fst NightMode.xPos NightMode.currentPhase NightMode.containerWidth
         NightMode.stars].
    repeat split; [right; reflexivity|].
    left. destruct (NightMode.drawStars o); [apply length_map | reflexivity].
  - match goal with
    | |- context [NightMode.placeStars ?x w] =>
        destruct (placeStars_fields x w) as (P1 & P2 & P3 & P4 & P5)
    end.
    split; [exact P2|]. split; [exact P4|].
    split; [left; exact P1 | right; exact P5].
Qed.

Lemma night_ok_update (activated : bool) (o : NightMode.t) (w : World) :
  night_ok o -> night_ok (fst (NightMode.update activated o w)).
Proof.
  intros ((O1 & O2) & (k & Hk & Ek) & Hs & (X1 & X2)).
  pose proof (NightMode_update_opacity activated o w) as [Q1 Q2].
  destruct (NightMode_update_fields activated o w) as (F1 & F2 & F3 & F4).
  set (o' := fst (NightMode.update activated o w)) in *. clearbody o'.
  unfold night_ok.
  split; [split; [exact Q1 | exact (Q2 O2)]|].
  split.
  { rewrite F1. destruct (activated && JS.eqb (NightMode.opacity o) 0).
    - destruct (JS.geb _ _) eqn:G.
      + exists 0%nat. split; [cbn; lia | reflexivity].
      + assert (G' : ~ inject_Z (Z.of_nat (List.length NightMode.phases))
                       <= NightMode.currentPhase o + 1).
        { intro H'. apply Qle_bool_iff in H'. unfold JS.geb in G. congruence. }
        exists (S k). split.
        * destruct (Nat.eq_dec (S k) (List.length NightMode.phases)) as [E|E];
            [|lia].
          exfalso. apply G'. rewrite <- E, Ek, Nat2Z.inj_succ.
          unfold Z.succ. rewrite inject_Z_plus. apply Qle_refl.
        * rewrite Ek, Nat2Z.inj_succ. unfold Z.succ. rewrite inject_Z_plus.
          reflexivity.
    - exists k. split; assumption. }
  split.
  { destruct F4 as [F4 | F4]; congruence. }
  rewrite F2.
  destruct F3 as [-> | ->]; [split; assumption|].
  unfold NightMode.updateXPos.
  destruct (JS.ltb (NightMode.xPos o) (- NightMode.WIDTH)) eqn:L.
  - split; [|apply Qle_refl]. eapply Qle_trans; [exact X1 | exact X2].
  - apply ltb_ge in L. unfold NightMode.MOON_SPEED in *. split; lra.
Qed.

Lemma night_ok_new (containerWidth : Q) (w : World) :
  30 <= containerWidth -> night_ok (fst (NightMode.new containerWidth w)).
Proof.
  intro H. unfold NightMode.new.
  match goal with
  | |- context [NightMode.placeStars ?x w] =>
      destruct (placeStars_fields x w) as (P1 & P2 & P3 & P4 & P5)
  end.
  unfold night_ok. rewrite P1, P2, P3, P4, P5.
  cbn [NightMode.xPos NightMode.currentPhase NightMode.opacity
       NightMode.containerWidth].
  split; [split; [apply Qle_refl | reflexivity]|].
  split; [exists 0%nat; split; [cbn; lia | reflexivity]|].
  split; [reflexivity|].
  unfold NightMode.WIDTH, NightMode.MOON_SPEED. split; lra.
Qed.

(** X19: what holds of the night mode at every frame.  From its
    construction for a container at least 30 pixels wide, through any
    sequence of calls of [update] with night switched on or off, the
    opacity stays from 0 to below 1 + FADE_SPEED; the phase of the moon
    is an index of the table [NightMode.phases]; there are NUM_STARS
    stars; and the moon is between just off the left edge and the right
    edge of the container. *)
Theorem NightMode_invariant (containerWidth : Q) (acts : list bool)
    (w w' : World) :
  30 <= containerWidth ->
  let o := fst (night_updates acts (fst (NightMode.new containerWidth w)) w') in
  (0 <= NightMode.opacity o /\
   NightMode.opacity o < 1 + NightMode.FADE_SPEED) /\
  (exists k : nat, (k < List.length NightMode.phases)%nat /\
                   NightMode.currentPhase o == inject_Z (Z.of_nat k)) /\
  List.length (NightMode.stars o) = NightMode.NUM_STARS /\
  (- NightMode.WIDTH - NightMode.MOON_SPEED <= NightMode.xPos o /\
   NightMode.xPos o <= containerWidth).
Proof.
  intros H o.
  assert (I : forall acts o w, night_ok o ->
              night_ok (fst (night_updates acts o w)) /\
              NightMode.containerWidth (fst (night_updates acts o w))
              = NightMode.containerWidth o).
  { clear. induction acts as [|a rest IH]; intros o w Ho.
    - split; [exact Ho | reflexivity].
    - cbn [night_updates]. rewrite bind_run.
      destruct (IH (fst (NightMode.update a o w)) (snd (NightMode.update a o w))
                  (night_ok_update a o w Ho)) as [I1 I2].
      split; [exact I1|]. rewrite I2.
      apply (NightMode_update_fields a o w). }
  destruct (I acts _ w' (night_ok_new containerWidth w H)) as [I1 I2].
  fold o in I1, I2.
  assert (Ec : NightMode.containerWidth (fst (NightMode.new containerWidth w))
               = containerWidth).
  { unfold NightMode.new.
    match goal with
    | |- context [NightMode.placeStars ?x w] =>
        destruct (placeStars_fields x w) as (_ & _ & _ & P4 & _)
    end.
    exact P4. }
  rewrite Ec in I2. unfold night_ok in I1. rewrite I2 in I1. exact I1.
Qed.

Lemma NightMode_invariant_witness :
  30 <= 600 /\
  List.length (NightMode.stars
    (fst (night_updates [true; true; false] (fst (NightMode.new 600 (world_of [] 0)))
            (world_of [] 0)))) = NightMode.NUM_STARS.
Proof.
  split; [discriminate|].
  destruct (NightMode_invariant 600 [true; true; false] (world_of [] 0)
              (world_of [] 0)) as (_ & _ & H & _); [discriminate|].
  exact H.
Defined.

(** ** The horizon *)

Lemma at_index_In {A} (l : list A) (i : Q) (a : A) :
  at_index l i = Some a -> In a l.
Proof.
  unfold at_index. destruct (_ && _); [|discriminate].
  apply nth_error_In.
Qed.

(** What a call of [addNewObstacle] that returns has pushed. *)
Lemma addNewObstacle_spawned fuel cfg IS_MOBILE speed h w h' :
  fst (Horizon.addNewObstacle fuel cfg IS_MOBILE speed h w) = Some h' ->
  exists tc w1,
    In tc Obstacle.types /\
    Horizon.rejects cfg h speed tc = false /\
    h' = Horizon.set_obstacleHistory
           (Horizon.recordType cfg (ObstacleType.type tc)
              (Horizon.obstacleHistory h))
           (Horizon.set_obstacles
              (Horizon.obstacles h
               ++ [fst (Obstacle.new IS_MOBILE tc (Horizon.dimensions_WIDTH h)
                          (Horizon.gapCoefficient h) speed
                          (Some (ObstacleType.width tc)) w1)]) h).
Proof.
  revert w. induction fuel as [|fuel IH]; intros w E; simpl in E.
  - discriminate E.
  - rewrite bind_run in E.
    destruct (at_index Obstacle.types _) as [tc|] eqn:Ei; [|discriminate E].
    destruct (Horizon.rejects cfg h speed tc) eqn:Er.
    + apply IH in E. exact E.
    + rewrite bind_run in E. unfold ret in E. cbn [fst] in E.
      inversion E; subst; clear E.
      eexists tc, _. split; [exact (at_index_In _ _ _ Ei)|].
      split; [exact Er | reflexivity].
Qed.

Lemma recordType_length (cfg : RunnerConfig.t) (ty : string) (l : list string) :
  (List.length (Horizon.recordType cfg ty l)
   <= Nat.max 1 (RunnerConfig.MAX_OBSTACLE_DUPLICATION cfg))%nat.
Proof.
  unfold Horizon.recordType. cbv zeta.
  destruct (1 <? List.length (ty :: l))%nat eqn:E.
  - rewrite length_firstn. lia.
  - apply Nat.ltb_ge in E. lia.
Qed.

(** X20: what [addNewObstacle] spawns.  A call that returns has pushed
    exactly one obstacle, behind the ones there were.  Its type is an
    entry of the table whose minimum speed the game has reached (so no
    pterodactyl below its speed) and that the duplicate check admits; it
    starts unflagged, its own width beyond the right edge of the canvas;
    and the history of types keeps at most MAX_OBSTACLE_DUPLICATION
    entries (one, if that setting is 0). *)
Theorem addNewObstacle_spawns fuel cfg IS_MOBILE speed h w h' :
  fst (Horizon.addNewObstacle fuel cfg IS_MOBILE speed h w) = Some h' ->
  exists o,
    Horizon.obstacles h' = Horizon.obstacles h ++ [o] /\
    In (Obstacle.typeConfig o) Obstacle.types /\
    ObstacleType.minSpeed (Obstacle.typeConfig o) <= speed /\
    Horizon.duplicateObstacleCheck cfg h
      (ObstacleType.type (Obstacle.typeConfig o)) = false /\
    Obstacle.remove o = false /\
    Obstacle.xPos o
    = Horizon.dimensions_WIDTH h + ObstacleType.width (Obstacle.typeConfig o) /\
    (List.length (Horizon.obstacleHistory h')
     <= Nat.max 1 (RunnerConfig.MAX_OBSTACLE_DUPLICATION cfg))%nat.
Proof.
  intro E.
  destruct (addNewObstacle_spawned _ _ _ _ _ _ _ E) as (tc & w1 & Hin & Hr & ->).
  eexists. split; [destruct h; reflexivity|].
  rewrite new_typeConfig.
  destruct (new_fields IS_MOBILE tc (Horizon.dimensions_WIDTH h)
              (Horizon.gapCoefficient h) speed (Some (ObstacleType.width tc)) w1)
    as (_ & _ & _ & Frm & Fx).
  unfold Horizon.rejects in Hr. apply orb_false_iff in Hr. destruct Hr as [Hd Hs].
  split; [exact Hin|].
  split; [apply ltb_ge; exact Hs|].
  split; [exact Hd|].
  split; [exact Frm|].
  split.
  - rewrite Fx. simpl in Hin.
    destruct Hin as [<- | [<- | [<- | []]]]; reflexivity.
  - destruct h; apply recordType_length.
Qed.

Lemma addNewObstacle_spawns_witness :
  exists h',
    fst (Horizon.addNewObstacle 1 RunnerConfig.default false 6 horizon0
           (world_of [] 0)) = Some h' /\
    exists o, Horizon.obstacles h' = Horizon.obstacles horizon0 ++ [o].
Proof.
  eexists. split; [vm_compute; reflexivity|].
  destruct (addNewObstacle_spawns 1 RunnerConfig.default false 6 horizon0
              (world_of [] 0) _ eq_refl) as (o & H & _).
  exists o. exact H.
Defined.

Lemma markFollowing_length (n : nat) (l : list Obstacle.t) :
  List.length (Horizon.markFollowing n l) = List.length l.
Proof.
  revert n. induction l as [|o l IH]; intros n; [destruct n; reflexivity|].
  destruct n; simpl; [reflexivity | rewrite IH; reflexivity].
Qed.

(** X21: after [updateObstacles] there is an obstacle.  A call that
    returns leaves the list of obstacles non-empty, so that the
    [obstacles[0]] which [Runner.update] hands to the collision check is
    defined, and it has added at most one obstacle to those that were
    there. *)
Theorem updateObstacles_nonempty fuel cfg IS_MOBILE deltaTime speed h w h' :
  fst (Horizon.updateObstacles fuel cfg IS_MOBILE deltaTime speed h w) = Some h' ->
  (0 < List.length (Horizon.obstacles h'))%nat /\
  (List.length (Horizon.obstacles h') <= S (List.length (Horizon.obstacles h)))%nat.
Proof.
  unfold Horizon.updateObstacles. cbv zeta.
  set (updated := map (Obstacle.update deltaTime speed) (Horizon.obstacles h)).
  set (uo := skipn (List.length (filter Obstacle.remove updated)) updated).
  assert (Hlen : (List.length uo <= List.length (Horizon.obstacles h))%nat).
  { unfold uo. rewrite length_skipn. unfold updated. rewrite length_map. lia. }
  assert (Ho : Horizon.obstacles (Horizon.set_obstacles uo h) = uo)
    by (destruct h; reflexivity).
  set (h1 := Horizon.set_obstacles uo h) in *. clearbody h1.
  destruct (rev uo) as [|lastObstacle rest] eqn:Er.
  - intro E. apply addNewObstacle_spawned in E.
    destruct E as (tc & w1 & _ & _ & ->).
    assert (Eo : forall l hist, Horizon.obstacles
                   (Horizon.set_obstacleHistory hist (Horizon.set_obstacles l h1)) = l)
      by (intros; destruct h1; reflexivity).
    rewrite Eo, Ho, length_app. cbn [List.length]. lia.
  - assert (Hpos : (0 < List.length uo)%nat).
    { rewrite <- length_rev, Er. cbn [List.length]. lia. }
    destruct (_ && _).
    + rewrite bind_run. unfold ret. cbn [fst].
      destruct (fst (Horizon.addNewObstacle fuel cfg IS_MOBILE speed h1 w))
        as [h2|] eqn:E; [|discriminate].
      intro E'. inversion E'; subst; clear E'.
      apply addNewObstacle_spawned in E.
      destruct E as (tc & w1 & _ & _ & ->).
      assert (Eo : forall l l' hist, Horizon.obstacles
                     (Horizon.set_obstacles l'
                        (Horizon.set_obstacleHistory hist
                           (Horizon.set_obstacles l h1))) = l')
        by (intros; destruct h1; reflexivity).
      assert (Eo2 : forall l hist, Horizon.obstacles
                     (Horizon.set_obstacleHistory hist (Horizon.set_obstacles l h1)) = l)
        by (intros; destruct h1; reflexivity).
      rewrite Eo, markFollowing_length, Eo2, Ho, length_app.
      cbn [List.length]. lia.
    + unfold ret. cbn [fst]. intro E. inversion E; subst; clear E.
      rewrite Ho. lia.
Qed.

Lemma updateObstacles_nonempty_witness :
  exists h',
    fst (Horizon.updateObstacles 1 RunnerConfig.default false (1000 / 60) 6
           horizon0 (world_of [] 0)) = Some h' /\
    (0 < List.length (Horizon.obstacles h'))%nat.
Proof.
  eexists. split; [vm_compute; reflexivity|].
  destruct (updateObstacles_nonempty 1 RunnerConfig.default false (1000 / 60) 6
              horizon0 (world_of [] 0) _ eq_refl) as (H & _).
  exact H.
Defined.

(** ** Clouds *)

Lemma fst_ret {A} (a : A) (w : World) : fst (ret a w) = a.
Proof. reflexivity. Qed.

Lemma set_clouds_clouds (l : list Cloud.t) (h : Horizon.t) :
  Horizon.clouds (Horizon.set_clouds l h) = l.
Proof. destruct h; reflexivity. Qed.

Lemma addCloud_clouds (h : Horizon.t) (w : World) :
  Horizon.clouds (fst (Horizon.addCloud h w))
  = Horizon.clouds h ++ [fst (Cloud.new (Horizon.dimensions_WIDTH h) w)].
Proof.
  unfold Horizon.addCloud. rewrite bind_run. unfold ret. cbn [fst].
  apply set_clouds_clouds.
Qed.

(** X22: the sky never holds more than MAX_CLOUDS clouds.  A call of
    [updateClouds] on a horizon with at most six clouds leaves at most
    six, and adds at most one cloud to those that were there. *)
Theorem updateClouds_bounded (deltaTime speed : Q) (h : Horizon.t) (w : World) :
  (List.length (Horizon.clouds h) <= 6)%nat ->
  let h' := fst (Horizon.updateClouds deltaTime speed h w) in
  (List.length (Horizon.clouds h') <= 6)%nat /\
  (List.length (Horizon.clouds h') <= S (List.length (Horizon.clouds h)))%nat.
Proof.
  intros Hn. cbv zeta. unfold Horizon.updateClouds. cbv zeta.
  destruct (rev (Horizon.clouds h)) as [|c0 r0] eqn:E0.
  - assert (H0 : List.length (Horizon.clouds h) = 0%nat)
      by (rewrite <- length_rev, E0; reflexivity).
    rewrite addCloud_clouds, length_app. cbn [List.length]. lia.
  - set (moved := map _ (Horizon.clouds h)).
    assert (Hm : List.length moved = List.length (Horizon.clouds h))
      by (unfold moved; apply length_map).
    rewrite bind_run, !fst_ret, !set_clouds_clouds.
    match goal with
    | |- context [filter ?f (Horizon.clouds (fst (?m w)))] =>
        set (hm := fst (m w));
        assert (Hb : (List.length (Horizon.clouds hm) <= 6)%nat /\
                     (List.length (Horizon.clouds hm)
                      <= S (List.length (Horizon.clouds h)))%nat)
    end.
    { unfold hm. destruct (rev moved) as [|lastCloud r1].
      - unfold ret. cbn [fst]. rewrite set_clouds_clouds. lia.
      - destruct (JS.ltb (inject_Z (Z.of_nat (List.length moved))) Horizon.MAX_CLOUDS)
          eqn:L; cbn [andb].
        + apply ltb_lt in L. unfold Horizon.MAX_CLOUDS in L.
          change 6 with (inject_Z 6) in L. rewrite <- Zlt_Qlt in L.
          destruct (JS.gtb _ _).
          * rewrite bind_run. destruct (JS.gtb _ _).
            -- rewrite addCloud_clouds, set_clouds_clouds, length_app.
               cbn [List.length]. lia.
            -- unfold ret. cbn [fst]. rewrite set_clouds_clouds. lia.
          * unfold ret. cbn [fst]. rewrite set_clouds_clouds. lia.
        + unfold ret. cbn [fst]. rewrite set_clouds_clouds. lia. }
    clearbody hm.
    destruct Hb as [Hb1 Hb2].
    match goal with
    | |- context [filter ?f ?l] => pose proof (filter_length_le f l) as Hf
    end.
    split; lia.
Qed.

Lemma updateClouds_bounded_witness :
  (List.length (Horizon.clouds horizon0) <= 6)%nat /\
  (List.length (Horizon.clouds
     (fst (Horizon.updateClouds (1000 / 60) 6 horizon0 (world_of [] 0)))) <= 6)%nat.
Proof.
  split; [vm_compute; lia|].
  destruct (updateClouds_bounded (1000 / 60) 6 horizon0 (world_of [] 0)) as [H _];
    [vm_compute; lia|].
  exact H.
Defined.

Lemma getRandomNum_between (a b : Z) (w : World) :
  (a <= b)%Z ->
  exists z : Z, fst (getRandomNum (inject_Z a) (inject_Z b) w) == inject_Z z
                /\ (a <= z <= b)%Z.
Proof.
  intro Hab.
  assert (E1 : inject_Z b - inject_Z a + 1 == inject_Z (b - a + 1)).
  { unfold Z.sub. rewrite !inject_Z_plus, inject_Z_opp.
    change (inject_Z 1) with 1. lra. }
  unfold getRandomNum. rewrite bind_run. unfold ret. cbn [fst].
  destruct (Math_random_range w) as [R0 R1].
  set (r := fst (Math_random w)) in *.
  exists (Qfloor (r * inject_Z (b - a + 1)) + a)%Z.
  destruct (floor_scaled_range r (b - a + 1) R0 R1 ltac:(lia)) as [L U].
  split; [|lia].
  rewrite (Math_floor_eq _ (r * inject_Z (b - a + 1)))
    by (rewrite E1; reflexivity).
  unfold JS.Math_floor.
  set (X := Qfloor (r * inject_Z (b - a + 1))).
  rewrite (inject_Z_plus X a). reflexivity.
Qed.

(** X23: a new cloud starts at the right edge of its container,
    unflagged, at a whole height from MAX_SKY_LEVEL = 30 to
    MIN_SKY_LEVEL = 71 and with a whole gap from MIN_CLOUD_GAP = 100 to
    MAX_CLOUD_GAP = 400, whatever [Math.random()] returns. *)
Theorem Cloud_new_range (containerWidth : Q) (w : World) :
  let c := fst (Cloud.new containerWidth w) in
  Cloud.xPos c = containerWidth /\
  Cloud.remove c = false /\
  (exists y : Z, Cloud.yPos c == inject_Z y /\ (30 <= y <= 71)%Z) /\
  (exists g : Z, Cloud.cloudGap c == inject_Z g /\ (100 <= g <= 400)%Z).
Proof.
  cbv zeta. unfold Cloud.new. rewrite !bind_run. unfold ret.
  cbn [fst Cloud.xPos Cloud.remove Cloud.yPos Cloud.cloudGap].
  split; [reflexivity|]. split; [reflexivity|].
  split.
  - apply (getRandomNum_between 30%Z 71%Z). lia.
  - apply (getRandomNum_between 100%Z 400%Z). lia.
Qed.

(** ** The runner *)

(** X24: [setSpeed] never sets more than it was asked for.  With [s]
    the speed asked for (the argument, or the current speed when there is
    none or it is 0), the speed after the call is at most [s]; on a
    canvas of the default width or wider it is [s] itself, and on a
    narrower one it is the smaller of [s] and [s] scaled by the width and
    MOBILE_SPEED_COEFFICIENT. *)
Theorem setSpeed_never_faster (opt_speed : option Q) (r : Runner.t) :
  let s := match opt_speed with
           | Some v => if JS.truthy v then v else Runner.currentSpeed r
           | None => Runner.currentSpeed r
           end in
  let r' := Runner.setSpeed opt_speed r in
  Runner.currentSpeed r' <= s /\
  (DEFAULT_WIDTH <= Runner.dimensions_WIDTH r -> Runner.currentSpeed r' = s) /\
  (Runner.dimensions_WIDTH r < DEFAULT_WIDTH ->
   Runner.currentSpeed r'
   <= s * Runner.dimensions_WIDTH r / DEFAULT_WIDTH
      * RunnerConfig.MOBILE_SPEED_COEFFICIENT (Runner.config r)) /\
  Runner.config r' = Runner.config r /\
  Runner.distanceRan r' = Runner.distanceRan r.
Proof.
  cbv zeta. unfold Runner.setSpeed. cbv zeta.
  destruct (JS.ltb (Runner.dimensions_WIDTH r) DEFAULT_WIDTH) eqn:L.
  - apply ltb_lt in L.
    match goal with
    | |- context [JS.gtb ?a ?b] => destruct (JS.gtb a b) eqn:G
    end.
    + apply gtb_gt in G.
      split; [destruct r; apply Qle_refl|].
      split; [intro H; exfalso; apply (Qlt_not_le _ _ L H)|].
      split; [intros _; destruct r; apply Qlt_le_weak; exact G|].
      split; destruct r; reflexivity.
    + apply gtb_le in G.
      split; [destruct r; exact G|].
      split; [intro H; exfalso; apply (Qlt_not_le _ _ L H)|].
      split; [intros _; destruct r; apply Qle_refl|].
      split; destruct r; reflexivity.
  - apply ltb_ge in L.
    assert (N : ~ Runner.dimensions_WIDTH r < DEFAULT_WIDTH)
      by (intro H; apply (Qlt_not_le _ _ H L)).
    destruct opt_speed as [v|].
    + destruct (JS.truthy v).
      * split; [destruct r; apply Qle_refl|].
        split; [intros _; destruct r; reflexivity|].
        split; [intro H; exfalso; exact (N H)|].
        split; destruct r; reflexivity.
      * split; [apply Qle_refl|].
        split; [reflexivity|].
        split; [intro H; exfalso; exact (N H)|].
        split; reflexivity.
    + split; [apply Qle_refl|].
      split; [reflexivity|].
      split; [intro H; exfalso; exact (N H)|].
      split; reflexivity.
Qed.

(** X25: the end of a game.  After [gameOver()] the runner is crashed,
    not playing, paused, with no frame requested, and the flash of the
    distance meter is off.  The high score is the larger of the old one
    and the distance run, rounded up, so it never goes down; the
    distance run, the speed and the configuration are as they were. *)
Theorem gameOver_ends_the_game (r : Runner.t) (w : World) :
  let r' := fst (Runner.gameOver r w) in
  let score := JS.Math_ceil (Runner.distanceRan r) in
  Runner.crashed r' = true /\
  Runner.playing r' = false /\
  Runner.paused r' = true /\
  Runner.isRunning r' = false /\
  DistanceMeter.acheivement (Runner.distanceMeter r') = false /\
  Runner.highestScore r'
  = (if JS.gtb score (Runner.highestScore r) then score
     else Runner.highestScore r) /\
  (Runner.highestScore r <= Runner.highestScore r' /\
   score <= Runner.highestScore r') /\
  Runner.distanceRan r' = Runner.distanceRan r /\
  Runner.currentSpeed r' = Runner.currentSpeed r /\
  Runner.config r' = Runner.config r.
Proof.
  cbv zeta. unfold Runner.gameOver. cbv zeta. rewrite bind_run, bind_run.
  unfold ret. cbn [fst].
  set (tr := fst (Trex.update 100 (Some Trex.CRASHED) _ w)). clearbody tr.
  set (now := fst (getTimeStamp _)). clearbody now.
  assert (D : forall x m, Runner.distanceRan
                (Runner.set_tRex x (Runner.set_distanceMeter m
                   (Runner.set_crashed true (Runner.stop r))))
              = Runner.distanceRan r)
    by (intros; destruct r; reflexivity).
  assert (H : forall x m, Runner.highestScore
                (Runner.set_tRex x (Runner.set_distanceMeter m
                   (Runner.set_crashed true (Runner.stop r))))
              = Runner.highestScore r)
    by (intros; destruct r; reflexivity).
  rewrite D, H.
  destruct (JS.gtb (JS.Math_ceil (Runner.distanceRan r)) (Runner.highestScore r))
    eqn:G.
  - apply gtb_gt in G.
    repeat split; try (destruct r; reflexivity).
    + destruct r; cbn. apply Qlt_le_weak. exact G.
    + destruct r; cbn. apply Qle_refl.
  - apply gtb_le in G.
    repeat split; try (destruct r; reflexivity).
    + destruct r; cbn. apply Qle_refl.
    + destruct r; cbn. exact G.
Qed.

Lemma game_set_time v r : game (Runner.set_time v r) = game r.
Proof. destruct r; reflexivity. Qed.
Lemma game_set_updatePending v r : game (Runner.set_updatePending v r) = game r.
Proof. destruct r; reflexivity. Qed.
Lemma game_set_raqId v r : game (Runner.set_raqId v r) = game r.
Proof. destruct r; reflexivity. Qed.
Lemma game_set_tRex v r : game (Runner.set_tRex v r) = game r.
Proof. destruct r; reflexivity. Qed.

Lemma game_animateAndSchedule dt r w :
  game (fst (Runner.animateAndSchedule dt r w)) = game r.
Proof.
  unfold Runner.animateAndSchedule. destruct (_ || _); [|reflexivity].
  rewrite bind_run. unfold ret. cbn [fst].
  unfold Runner.scheduleNextUpdate. destruct (negb _).
  - rewrite game_set_raqId, game_set_updatePending. apply game_set_tRex.
  - apply game_set_tRex.
Qed.

(** X26: a game that is not playing stands still.  A tick of a runner
    that is not playing (paused, crashed, or not yet started) returns,
    and changes nothing of the game: the distance run, the speed, the
    running time, the high score, the horizon with its obstacles, the
    distance meter and the flags are as before.  Only the clock, the
    request for the next frame and the animation of the T-rex move. *)
Theorem update_idle (fuel : nat) (env : Runner.Env) (r : Runner.t) (w : World) :
  Runner.playing r = false ->
  exists r', fst (Runner.update (S fuel) env r w) = Some r' /\
    Runner.distanceRan r' = Runner.distanceRan r /\
    Runner.currentSpeed r' = Runner.currentSpeed r /\
    Runner.runningTime r' = Runner.runningTime r /\
    Runner.highestScore r' = Runner.highestScore r /\
    Runner.horizon r' = Runner.horizon r /\
    Runner.distanceMeter r' = Runner.distanceMeter r /\
    Runner.playing r' = false /\
    Runner.crashed r' = Runner.crashed r /\
    Trex.yPos (Runner.tRex r') = Trex.yPos (Runner.tRex r).
Proof.
  intro Hp. cbn [Runner.update]. cbv zeta. rewrite bind_run.
  set (now := fst (getTimeStamp w)). set (w1 := snd (getTimeStamp w)).
  set (r1 := Runner.set_time now (Runner.set_updatePending false r)).
  assert (G1 : game r1 = game r)
    by (unfold r1; rewrite game_set_time; apply game_set_updatePending).
  assert (T1 : Runner.tRex r1 = Runner.tRex r) by (unfold r1; destruct r; reflexivity).
  assert (P1 : Runner.playing r1 = false) by (unfold r1; destruct r; exact Hp).
  rewrite bindO_run, P1. cbv beta iota. rewrite fst_ret. cbv beta iota.
  rewrite bind_run. cbn [fst snd].
  match goal with
  | |- context [Runner.animateAndSchedule ?dt r1 ?ww] =>
      pose proof (game_animateAndSchedule dt r1 ww) as G2;
      assert (Y : Trex.yPos (Runner.tRex (fst (Runner.animateAndSchedule dt r1 ww)))
                  = Trex.yPos (Runner.tRex r));
      [|set (r' := fst (Runner.animateAndSchedule dt r1 ww)) in *; clearbody r']
  end.
  { unfold Runner.animateAndSchedule.
    destruct (_ || _); [|rewrite fst_ret, T1; reflexivity].
    rewrite bind_run, fst_ret.
    assert (E : forall x, Runner.tRex (Runner.scheduleNextUpdate (Runner.set_tRex x r1)) = x).
    { intro x. unfold Runner.scheduleNextUpdate. destruct (negb _);
        destruct r1; reflexivity. }
    rewrite E, T1.
    match goal with
    | |- Trex.yPos (fst (Trex.update ?dt None _ ?ww)) = _ =>
        destruct (flight_fields _ _ _ _ _ _ _ _
                    (flight_update dt None (Runner.tRex r) ww)) as (_ & Fy & _)
    end.
    exact Fy. }
  exists r'. split; [reflexivity|].
  rewrite G1 in G2. unfold game in G2. inversion G2.
  repeat split; try reflexivity; try assumption. congruence.
Qed.

Lemma update_idle_witness :
  Runner.playing idle_runner = false /\
  exists r', fst (Runner.update 1 desktop idle_runner (world_of [] 0)) = Some r'.
Proof.
  split; [reflexivity|].
  destruct (update_idle 0 desktop idle_runner (world_of [] 0))
    as (r' & H & _); [reflexivity|].
  exists r'. exact H.
Defined.

Lemma odo_set_time v r : odo (Runner.set_time v r) = odo r.
Proof. destruct r; reflexivity. Qed.
Lemma odo_set_runningTime v r : odo (Runner.set_runningTime v r) = odo r.
Proof. destruct r; reflexivity. Qed.
Lemma odo_set_currentSpeed v r : odo (Runner.set_currentSpeed v r) = odo r.
Proof. destruct r; reflexivity. Qed.
Lemma odo_set_activated v r : odo (Runner.set_activated v r) = odo r.
Proof. destruct r; reflexivity. Qed.
Lemma odo_set_playing v r : odo (Runner.set_playing v r) = odo r.
Proof. destruct r; reflexivity. Qed.
Lemma odo_set_crashed v r : odo (Runner.set_crashed v r) = odo r.
Proof. destruct r; reflexivity. Qed.
Lemma odo_set_paused v r : odo (Runner.set_paused v r) = odo r.
Proof. destruct r; reflexivity. Qed.
Lemma odo_set_inverted v r : odo (Runner.set_inverted v r) = odo r.
Proof. destruct r; reflexivity. Qed.
Lemma odo_set_invertTimer v r : odo (Runner.set_invertTimer v r) = odo r.
Proof. destruct r; reflexivity. Qed.
Lemma odo_set_invertTrigger v r : odo (Runner.set_invertTrigger v r) = odo r.
Proof. destruct r; reflexivity. Qed.
Lemma odo_set_playingIntro v r : odo (Runner.set_playingIntro v r) = odo r.
Proof. destruct r; reflexivity. Qed.
Lemma odo_set_playCount v r : odo (Runner.set_playCount v r) = odo r.
Proof. destruct r; reflexivity. Qed.
Lemma odo_set_updatePending v r : odo (Runner.set_updatePending v r) = odo r.
Proof. destruct r; reflexivity. Qed.
Lemma odo_set_raqId v r : odo (Runner.set_raqId v r) = odo r.
Proof. destruct r; reflexivity. Qed.
Lemma odo_set_tRex v r : odo (Runner.set_tRex v r) = odo r.
Proof. destruct r; reflexivity. Qed.
Lemma odo_set_horizon v r : odo (Runner.set_horizon v r) = odo r.
Proof. destruct r; reflexivity. Qed.
Lemma odo_set_distanceMeter v r : odo (Runner.set_distanceMeter v r) = odo r.
Proof. destruct r; reflexivity. Qed.

Create Rewrite HintDb odo.

#[local] Hint Rewrite odo_set_time odo_set_runningTime odo_set_currentSpeed odo_set_activated odo_set_playing odo_set_crashed odo_set_paused odo_set_inverted odo_set_invertTimer odo_set_invertTrigger odo_set_playingIntro odo_set_playCount odo_set_updatePending odo_set_raqId odo_set_tRex odo_set_horizon odo_set_distanceMeter : odo.

Lemma odo_startGame r : odo (Runner.startGame r) = odo r.
Proof. unfold Runner.startGame. autorewrite with odo. reflexivity. Qed.

Lemma odo_stop r : odo (Runner.stop r) = odo r.
Proof. unfold Runner.stop. autorewrite with odo. reflexivity. Qed.

Lemma odo_scheduleNextUpdate r : odo (Runner.scheduleNextUpdate r) = odo r.
Proof.
  unfold Runner.scheduleNextUpdate. destruct (negb _);
    autorewrite with odo; reflexivity.
Qed.

Lemma odo_invert b r : odo (Runner.invert b r) = odo r.
Proof. unfold Runner.invert. destruct b; autorewrite with odo; reflexivity. Qed.

Lemma odo_updateInvert dt r : odo (Runner.updateInvert dt r) = odo r.
Proof.
  unfold Runner.updateInvert.
  destruct (JS.gtb _ _).
  - rewrite odo_invert. autorewrite with odo. reflexivity.
  - destruct (JS.truthy _); [autorewrite with odo; reflexivity|].
    destruct (JS.gtb _ _); [|reflexivity].
    cbv zeta. destruct (_ && _).
    + rewrite odo_invert. autorewrite with odo. reflexivity.
    + autorewrite with odo. reflexivity.
Qed.

Lemma odo_gameOver r w :
  odo (fst (Runner.gameOver r w))
  = (Runner.distanceRan r, Runner.msPerFrame r,
     if JS.gtb (JS.Math_ceil (Runner.distanceRan r)) (Runner.highestScore r)
     then JS.Math_ceil (Runner.distanceRan r) else Runner.highestScore r).
Proof.
  unfold Runner.gameOver. cbv zeta. rewrite bind_run, bind_run.
  unfold ret. cbn [fst]. rewrite odo_set_time.
  set (tr := fst (Trex.update 100 (Some Trex.CRASHED) _ w)). clearbody tr.
  assert (D : forall x m, Runner.distanceRan
                (Runner.set_tRex x (Runner.set_distanceMeter m
                   (Runner.set_crashed true (Runner.stop r))))
              = Runner.distanceRan r)
    by (intros; destruct r; reflexivity).
  assert (H : forall x m, Runner.highestScore
                (Runner.set_tRex x (Runner.set_distanceMeter m
                   (Runner.set_crashed true (Runner.stop r))))
              = Runner.highestScore r)
    by (intros; destruct r; reflexivity).
  rewrite D, H.
  destruct (JS.gtb _ _); destruct r; reflexivity.
Qed.

Lemma odo_playIntro upd env r w r' :
  Runner.crashed r = false ->
  fst (Runner.playIntro_with upd env r w) = Some r' ->
  odo r' = odo r.
Proof.
  intros Hc. unfold Runner.playIntro_with. rewrite Hc. cbn [negb].
  rewrite andb_true_r.
  destruct (negb (Runner.activated r)).
  - destruct (_ || _); unfold ret; cbn [fst]; intro E; inversion E; subst.
    + rewrite odo_startGame. autorewrite with odo. reflexivity.
    + autorewrite with odo. reflexivity.
  - unfold ret; cbn [fst]; intro E; inversion E; subst. reflexivity.
Qed.

Lemma odo_animateAndSchedule dt r w :
  odo (fst (Runner.animateAndSchedule dt r w)) = odo r.
Proof.
  unfold Runner.animateAndSchedule. destruct (_ || _).
  - rewrite bind_run. unfold ret. cbn [fst].
    rewrite odo_scheduleNextUpdate. autorewrite with odo. reflexivity.
  - reflexivity.
Qed.

Lemma odo_afterCollisionTest dt collision r w :
  odo (fst (Runner.afterCollisionTest dt collision r w))
  = match collision with
    | None => (Runner.distanceRan r
               + Runner.currentSpeed r * dt / Runner.msPerFrame r,
               Runner.msPerFrame r, Runner.highestScore r)
    | Some _ =>
        (Runner.distanceRan r, Runner.msPerFrame r,
         if JS.gtb (JS.Math_ceil (Runner.distanceRan r)) (Runner.highestScore r)
         then JS.Math_ceil (Runner.distanceRan r) else Runner.highestScore r)
    end.
Proof.
  unfold Runner.afterCollisionTest. destruct collision.
  - apply odo_gameOver.
  - unfold ret. cbn [fst]. destruct r; reflexivity.
Qed.

(** The distance after the block [if (this.playing) { ... }]. *)
Lemma odo_whilePlaying upd fuel env dt r w r' dt' :
  Runner.crashed r = false ->
  fst (Runner.whilePlaying upd fuel env dt r w) = Some (r', dt') ->
  (dt' = dt \/ dt' = 0) /\
  (odo r' = (Runner.distanceRan r
             + Runner.currentSpeed r * dt' / Runner.msPerFrame r,
             Runner.msPerFrame r, Runner.highestScore r) \/
   odo r' = (Runner.distanceRan r, Runner.msPerFrame r,
             if JS.gtb (JS.Math_ceil (Runner.distanceRan r)) (Runner.highestScore r)
             then JS.Math_ceil (Runner.distanceRan r) else Runner.highestScore r)).
Proof.
  intros Hc. unfold Runner.whilePlaying. rewrite bind_run.
  set (m1 := if Trex.jumping (Runner.tRex r) then _ else _).
  set (tr := fst (m1 w)). set (w1 := snd (m1 w)).
  cbv zeta.
  set (r1 := Runner.set_runningTime _ (Runner.set_tRex tr r)).
  assert (P1 : pace r1 = pace r) by (unfold r1; autorewrite with pace; reflexivity).
  assert (O1 : odo r1 = odo r) by (unfold r1; autorewrite with odo; reflexivity).
  assert (C1 : Runner.crashed r1 = false) by (unfold r1; destruct r; exact Hc).
  rewrite bindO_run.
  set (m2 := if _ && _ then _ else _).
  destruct (fst (m2 w1)) as [r2|] eqn:E2; [|discriminate].
  assert (P2 : pace r2 = pace r).
  { rewrite <- P1. unfold m2 in E2. destruct (_ && _).
    - apply (pace_playIntro upd env r1 w1 r2 C1 E2).
    - unfold ret in E2. cbn [fst] in E2. inversion E2. reflexivity. }
  assert (O2 : odo r2 = odo r).
  { rewrite <- O1. unfold m2 in E2. destruct (_ && _).
    - apply (odo_playIntro upd env r1 w1 r2 C1 E2).
    - unfold ret in E2. cbn [fst] in E2. inversion E2. reflexivity. }
  rewrite bindO_run.
  set (m3 := if Runner.playingIntro r2 then _ else _).
  destruct (fst (m3 (snd (m2 w1)))) as [h|] eqn:E3; [|discriminate].
  destruct (Runner.collisionTest _ _) as [collision|]; [|discriminate].
  rewrite bind_run. unfold ret. cbn [fst].
  intro E. inversion E; subst; clear E.
  split.
  { destruct (Runner.playingIntro r2); [left; reflexivity|].
    destruct (negb (Runner.activated r2)); [right | left]; reflexivity. }
  rewrite odo_updateInvert, odo_set_distanceMeter, odo_afterCollisionTest.
  assert (F : Runner.distanceRan (Runner.set_horizon h r2) = Runner.distanceRan r /\
              Runner.msPerFrame (Runner.set_horizon h r2) = Runner.msPerFrame r /\
              Runner.highestScore (Runner.set_horizon h r2) = Runner.highestScore r /\
              Runner.currentSpeed (Runner.set_horizon h r2) = Runner.currentSpeed r).
  { pose proof (odo_set_horizon h r2) as O3. rewrite O2 in O3.
    pose proof (pace_set_horizon h r2) as P3. rewrite P2 in P3.
    unfold odo in O3. unfold pace in P3. inversion O3. inversion P3.
    repeat split; reflexivity. }
  destruct F as (F1 & F2 & F3 & F4). rewrite F1, F2, F3, F4.
  destruct collision; [right | left]; reflexivity.
Qed.

(** The distance after a tick of a runner that has not crashed. *)
Lemma odo_update fuel env r w r' :
  Runner.crashed r = false ->
  fst (Runner.update fuel env r w) = Some r' ->
  exists dt',
    (dt' = now_of w - (if JS.truthy (Runner.time r) then Runner.time r else now_of w)
     \/ dt' = 0) /\
    (odo r' = odo r \/
     odo r' = (Runner.distanceRan r
               + Runner.currentSpeed r * dt' / Runner.msPerFrame r,
               Runner.msPerFrame r, Runner.highestScore r) \/
     odo r' = (Runner.distanceRan r, Runner.msPerFrame r,
               if JS.gtb (JS.Math_ceil (Runner.distanceRan r)) (Runner.highestScore r)
               then JS.Math_ceil (Runner.distanceRan r) else Runner.highestScore r)).
Proof.
  intros Hc. destruct fuel as [|fuel]; [discriminate|].
  cbn [Runner.update]. cbv zeta. rewrite bind_run.
  change (fst (getTimeStamp w)) with (now_of w).
  set (now := now_of w). set (w1 := snd (getTimeStamp w)).
  set (r1 := Runner.set_time now (Runner.set_updatePending false r)).
  assert (P1 : pace r1 = pace r) by (unfold r1; autorewrite with pace; reflexivity).
  assert (O1 : odo r1 = odo r) by (unfold r1; autorewrite with odo; reflexivity).
  assert (C1 : Runner.crashed r1 = false) by (unfold r1; destruct r; exact Hc).
  assert (T1 : Runner.time (Runner.set_updatePending false r) = Runner.time r)
    by (destruct r; reflexivity).
  rewrite T1.
  rewrite bindO_run.
  set (m := if Runner.playing r1 then _ else _).
  destruct (fst (m w1)) as [[r2 dt2]|] eqn:E; [|discriminate].
  rewrite bind_run. unfold ret. cbn [fst snd].
  intro E'. inversion E'; subst; clear E'.
  rewrite odo_animateAndSchedule.
  unfold m in E. destruct (Runner.playing r1).
  - destruct (odo_whilePlaying _ _ _ _ _ _ _ _ C1 E) as [Hdt Ho].
    assert (F : Runner.distanceRan r1 = Runner.distanceRan r /\
                Runner.msPerFrame r1 = Runner.msPerFrame r /\
                Runner.highestScore r1 = Runner.highestScore r /\
                Runner.currentSpeed r1 = Runner.currentSpeed r)
      by (unfold r1; destruct r; repeat split; reflexivity).
    destruct F as (F1 & F2 & F3 & F4). rewrite F1, F2, F3, F4 in Ho.
    exists dt2. split; [exact Hdt|]. right. exact Ho.
  - unfold ret in E. cbn [fst] in E. inversion E; subst.
    exists 0. split; [right; reflexivity|]. left. exact O1.
Qed.

Lemma odo_fields r a b c :
  odo r = (a, b, c) ->
  Runner.distanceRan r = a /\ Runner.msPerFrame r = b /\ Runner.highestScore r = c.
Proof. unfold odo. intro H. inversion H. repeat split; reflexivity. Qed.

(** X27: the distance run never goes back.  For a runner that has not
    crashed, with a speed that is not negative, a positive frame time
    and a clock that has not gone back since the last tick, a tick that
    returns leaves the distance run at least what it was, and at most
    what it was plus the speed times the frames elapsed since the last
    tick; the high score is at least what it was. *)
Theorem update_distanceRan fuel env r w r' :
  Runner.crashed r = false ->
  fst (Runner.update fuel env r w) = Some r' ->
  0 <= Runner.currentSpeed r ->
  0 < Runner.msPerFrame r ->
  Runner.time r <= now_of w ->
  Runner.distanceRan r <= Runner.distanceRan r' /\
  Runner.distanceRan r'
  <= Runner.distanceRan r
     + Runner.currentSpeed r * (now_of w - Runner.time r) / Runner.msPerFrame r /\
  Runner.highestScore r <= Runner.highestScore r' /\
  Runner.msPerFrame r' = Runner.msPerFrame r.
Proof.
  intros Hc E Hs Hm Ht.
  destruct (odo_update fuel env r w r' Hc E) as (dt & Hdt & Ho).
  assert (Hd0 : 0 <= dt /\ dt <= now_of w - Runner.time r).
  { destruct Hdt as [-> | ->]; [|split; [apply Qle_refl | lra]].
    destruct (JS.truthy (Runner.time r)); split; lra. }
  destruct Hd0 as [Hd0 Hd1].
  assert (Hi : 0 < / Runner.msPerFrame r) by (apply Qinv_lt_0_compat; exact Hm).
  assert (Hg0 : 0 <= Runner.currentSpeed r * dt / Runner.msPerFrame r).
  { unfold Qdiv. apply Qmult_le_0_compat; [|apply Qlt_le_weak; exact Hi].
    apply Qmult_le_0_compat; assumption. }
  assert (Hg1 : Runner.currentSpeed r * dt / Runner.msPerFrame r
                <= Runner.currentSpeed r * (now_of w - Runner.time r)
                   / Runner.msPerFrame r).
  { unfold Qdiv. apply Qmult_le_compat_r; [|apply Qlt_le_weak; exact Hi].
    rewrite (Qmult_comm _ dt), (Qmult_comm _ (now_of w - Runner.time r)).
    apply Qmult_le_compat_r; assumption. }
  assert (Hg2 : 0 <= Runner.currentSpeed r * (now_of w - Runner.time r)
                     / Runner.msPerFrame r)
    by (eapply Qle_trans; [exact Hg0 | exact Hg1]).
  assert (Hh : Runner.highestScore r
               <= (if JS.gtb (JS.Math_ceil (Runner.distanceRan r))
                        (Runner.highestScore r)
                   then JS.Math_ceil (Runner.distanceRan r)
                   else Runner.highestScore r)).
  { destruct (JS.gtb _ _) eqn:G; [|apply Qle_refl].
    apply gtb_gt in G. apply Qlt_le_weak. exact G. }
  destruct Ho as [Ho | [Ho | Ho]];
    apply odo_fields in Ho; destruct Ho as (H1 & H2 & H3); rewrite H1, H2, H3.
  - split; [apply Qle_refl|]. split; [lra|]. split; [apply Qle_refl | reflexivity].
  - split; [lra|]. split; [lra|]. split; [apply Qle_refl | reflexivity].
  - split; [apply Qle_refl|]. split; [lra|]. split; [exact Hh | reflexivity].
Qed.

Lemma update_distanceRan_witness :
  exists r',
    fst (Runner.update 3 desktop playing_runner (clock_at (2 * (1000 / 60))))
    = Some r' /\
    Runner.time playing_runner <= now_of (clock_at (2 * (1000 / 60))) /\
    Runner.distanceRan playing_runner <= Runner.distanceRan r'.
Proof.
  assert (E : exists r',
             fst (Runner.update 3 desktop playing_runner
                    (clock_at (2 * (1000 / 60)))) = Some r')
    by (eexists; vm_compute; reflexivity).
  destruct E as [r' E]. exists r'.
  split; [exact E|].
  split; [discriminate|].
  destruct (update_distanceRan 3 desktop playing_runner
              (clock_at (2 * (1000 / 60))) r') as (H & _);
    [reflexivity | exact E | discriminate | reflexivity | discriminate |].
  exact H.
Defined.

(** ** The horizon line *)

(** Whatever whole or fractional increment between 0 and the width of
    the line [updateXPos] is given, the two segments go on covering the
    canvas. *)
Lemma line_ok_updateXPos (inc : Q) (l : HorizonLine.t) (w : World) :
  0 <= inc -> inc <= HorizonLine.WIDTH ->
  line_ok l ->
  line_ok (fst (HorizonLine.updateXPos (JS.leb (HorizonLine.xPos0 l) 0) inc l w)).
Proof.
  intros I0 I1 Hl. unfold HorizonLine.WIDTH in *.
  unfold line_ok in *. unfold HorizonLine.updateXPos. cbv zeta.
  unfold HorizonLine.WIDTH in *.
  destruct Hl as [(A1 & A2 & A3) | (B1 & B2 & B3)].
  - assert (E : JS.leb (HorizonLine.xPos0 l) 0 = true) by (apply leb_le; exact A2).
    rewrite E.
    destruct (JS.leb (HorizonLine.xPos0 l - inc) (- (600))) eqn:L.
    + apply leb_le in L. rewrite bind_run, fst_ret.
      cbn [HorizonLine.xPos0 HorizonLine.xPos1]. right.
      split; [lra|]. split; [lra|]. ring.
    + apply leb_gt in L. rewrite fst_ret.
      cbn [HorizonLine.xPos0 HorizonLine.xPos1]. left.
      split; [lra|]. split; [lra|]. reflexivity.
  - assert (E : JS.leb (HorizonLine.xPos0 l) 0 = false) by (apply leb_gt; lra).
    rewrite E.
    destruct (JS.leb (HorizonLine.xPos1 l - inc) (- (600))) eqn:L.
    + apply leb_le in L. rewrite bind_run, fst_ret.
      cbn [HorizonLine.xPos0 HorizonLine.xPos1]. left.
      split; [lra|]. split; [lra|]. ring.
    + apply leb_gt in L. rewrite fst_ret.
      cbn [HorizonLine.xPos0 HorizonLine.xPos1]. right.
      split; [lra|]. split; [lra|]. reflexivity.
Qed.

Lemma line_ok_update (deltaTime speed : Q) (l : HorizonLine.t) (w : World) :
  0 <= speed * (FPS / 1000) * deltaTime ->
  speed * (FPS / 1000) * deltaTime <= HorizonLine.WIDTH ->
  line_ok l -> line_ok (fst (HorizonLine.update deltaTime speed l w)).
Proof.
  intros H0 H1 Hl.
  unfold HorizonLine.update. cbv zeta.
  apply line_ok_updateXPos; [| |exact Hl].
  - unfold JS.Math_floor. change 0 with (inject_Z 0). rewrite <- Zle_Qle.
    rewrite <- (Qfloor_Z 0). apply Qfloor_resp_le. exact H0.
  - unfold JS.Math_floor. eapply Qle_trans; [apply Qfloor_le | exact H1].
Qed.

(** X28: the horizon line covers the canvas.  From a new or a reset
    line, through any number of frames that each scroll it by no more
    than its width, the two segments of the line abut and the left one
    starts at or before the left edge of the canvas and ends after it. *)
Theorem HorizonLine_covers (n : nat) (deltaTime speed spriteX : Q)
    (l0 : HorizonLine.t) (w : World) :
  0 <= speed * (FPS / 1000) * deltaTime ->
  speed * (FPS / 1000) * deltaTime <= HorizonLine.WIDTH ->
  line_ok (fst (line_updates n deltaTime speed (HorizonLine.new spriteX) w)) /\
  line_ok (fst (line_updates n deltaTime speed (HorizonLine.reset l0) w)).
Proof.
  intros H0 H1.
  assert (I : forall n l w, line_ok l ->
              line_ok (fst (line_updates n deltaTime speed l w))).
  { clear n w. induction n as [|n IH]; intros l w Hl.
    - exact Hl.
    - cbn [line_updates]. rewrite bind_run. apply IH.
      apply line_ok_update; assumption. }
  split; apply I; left; cbn; unfold HorizonLine.WIDTH;
    (split; [reflexivity|]); (split; [discriminate|]); reflexivity.
Qed.

Lemma HorizonLine_covers_witness :
  0 <= 6 * (FPS / 1000) * (1000 / 60) /\
  line_ok (fst (line_updates 200 (1000 / 60) 6 (HorizonLine.new 2)
                  (world_of [] 0))).
Proof.
  split; [discriminate|].
  destruct (HorizonLine_covers 200 (1000 / 60) 6 2 (HorizonLine.new 2)
              (world_of [] 0)) as [H _]; [discriminate | discriminate |].
  exact H.
Defined.

(** ** Restarting *)

Lemma setSpeed_fields (v : Q) (r : Runner.t) :
  JS.truthy v = true ->
  let r' := Runner.setSpeed (Some v) r in
  Runner.currentSpeed r' <= v /\
  (DEFAULT_WIDTH <= Runner.dimensions_WIDTH r -> Runner.currentSpeed r' = v) /\
  game (Runner.set_currentSpeed (Runner.currentSpeed r) r') = game r /\
  Runner.tRex r' = Runner.tRex r /\ Runner.raqId r' = Runner.raqId r.
Proof.
  intro Hv. cbv zeta. unfold Runner.setSpeed. rewrite Hv. cbv zeta.
  destruct (JS.ltb (Runner.dimensions_WIDTH r) DEFAULT_WIDTH) eqn:L.
  - apply ltb_lt in L.
    match goal with
    | |- context [JS.gtb ?a ?b] => destruct (JS.gtb a b) eqn:G
    end.
    + split; [destruct r; apply Qle_refl|].
      split; [intro H; exfalso; apply (Qlt_not_le _ _ L H)|].
      repeat split; destruct r; reflexivity.
    + apply gtb_le in G.
      split; [destruct r; exact G|].
      split; [intro H; exfalso; apply (Qlt_not_le _ _ L H)|].
      repeat split; destruct r; reflexivity.
  - split; [destruct r; apply Qle_refl|].
    split; [intros _; destruct r; reflexivity|].
    repeat split; destruct r; reflexivity.
Qed.

Lemma Horizon_reset_obstacles (h : Horizon.t) (w : World) :
  Horizon.obstacles (fst (Horizon.reset h w)) = [].
Proof.
  unfold Horizon.reset. rewrite bind_run, fst_ret. destruct h; reflexivity.
Qed.

(** X29: [restart()] starts a new game and keeps the high score.  When
    no frame is requested, [restart()] ends in a call of [update()] on a
    runner that plays and is not crashed, with the distance run and the
    running time at 0, one more game counted, no obstacles, the colours
    not inverted, the flash of the distance meter off and the T-rex on
    the ground, not jumping; its speed is at most the configured SPEED
    (and is that speed on a canvas of the default width or wider); the
    high score is the one from before. *)
Theorem restart_resets (upd : Runner.t -> IO (option Runner.t)) (r : Runner.t)
    (w : World) :
  JS.truthy (Runner.raqId r) = false ->
  JS.truthy (RunnerConfig.SPEED (Runner.config r)) = true ->
  exists r0 w0,
    Runner.restart_with upd r w = upd r0 w0 /\
    (Runner.playing r0 = true /\ Runner.crashed r0 = false) /\
    (Runner.distanceRan r0 = 0 /\ Runner.runningTime r0 = 0) /\
    Runner.playCount r0 = Runner.playCount r + 1 /\
    Runner.highestScore r0 = Runner.highestScore r /\
    Horizon.obstacles (Runner.horizon r0) = [] /\
    (Runner.inverted r0 = false /\ Runner.invertTimer r0 = 0) /\
    DistanceMeter.acheivement (Runner.distanceMeter r0) = false /\
    (Trex.yPos (Runner.tRex r0) = Trex.groundYPos (Runner.tRex r) /\
     Trex.jumping (Runner.tRex r0) = false) /\
    (Runner.currentSpeed r0 <= RunnerConfig.SPEED (Runner.config r) /\
     (DEFAULT_WIDTH <= Runner.dimensions_WIDTH r ->
      Runner.currentSpeed r0 = RunnerConfig.SPEED (Runner.config r))).
Proof.
  intros Hq Hs. unfold Runner.restart_with. rewrite Hq. cbn [negb]. cbv zeta.
  set (r1 := Runner.set_distanceRan 0
               (Runner.set_crashed false
                  (Runner.set_playing true
                     (Runner.set_runningTime 0
                        (Runner.set_playCount (Runner.playCount r + 1) r))))).
  assert (C1 : Runner.config r1 = Runner.config r) by (destruct r; reflexivity).
  assert (W1 : Runner.dimensions_WIDTH r1 = Runner.dimensions_WIDTH r)
    by (destruct r; reflexivity).
  rewrite C1.
  destruct (setSpeed_fields (RunnerConfig.SPEED (Runner.config r)) r1 Hs)
    as (S1 & S2 & S3 & S4 & S5).
  rewrite W1 in S2.
  set (r2 := Runner.setSpeed (Some (RunnerConfig.SPEED (Runner.config r))) r1) in *.
  assert (G2 : Runner.playing r2 = true /\ Runner.crashed r2 = false /\
               Runner.distanceRan r2 = 0 /\ Runner.runningTime r2 = 0 /\
               Runner.playCount r2 = Runner.playCount r + 1 /\
               Runner.highestScore r2 = Runner.highestScore r /\
               Runner.tRex r2 = Runner.tRex r).
  { clearbody r2. unfold game in S3.
    assert (E : forall v x, (Runner.playing (Runner.set_currentSpeed v x),
                             Runner.crashed (Runner.set_currentSpeed v x),
                             Runner.distanceRan (Runner.set_currentSpeed v x),
                             Runner.runningTime (Runner.set_currentSpeed v x),
                             Runner.playCount (Runner.set_currentSpeed v x),
                             Runner.highestScore (Runner.set_currentSpeed v x))
                          = (Runner.playing x, Runner.crashed x,
                             Runner.distanceRan x, Runner.runningTime x,
                             Runner.playCount x, Runner.highestScore x))
      by (intros v x; destruct x; reflexivity).
    specialize (E (Runner.currentSpeed r1) r2).
    inversion S3. inversion E.
    unfold r1 in *. destruct r; cbn in *.
    repeat split; congruence. }
  clearbody r2. clear S3 S4 S5 C1 W1. clear r1.
  destruct G2 as (A1 & A2 & A3 & A4 & A5 & A6 & A7).
  rewrite !bind_run.
  set (now := fst (getTimeStamp w)). set (w1 := snd (getTimeStamp w)).
  set (r3 := Runner.set_distanceMeter _ (Runner.set_time now r2)).
  assert (H3 : Runner.horizon r3 = Runner.horizon r2 /\
               Runner.tRex r3 = Runner.tRex r /\
               DistanceMeter.acheivement (Runner.distanceMeter r3) = false).
  { unfold r3. split; [destruct r2; reflexivity|].
    split; [rewrite <- A7; destruct r2; reflexivity|].
    destruct r2; reflexivity. }
  destruct H3 as (B1 & B2 & B3). rewrite B1, B2.
  set (h := fst (Horizon.reset (Runner.horizon r2) w1)).
  set (w2 := snd (Horizon.reset (Runner.horizon r2) w1)).
  pose proof (Horizon_reset_obstacles (Runner.horizon r2) w1) as Ho. fold h in Ho.
  destruct (flight_fields _ _ _ _ _ _ _ _ (flight_reset (Runner.tRex r) w2))
    as (_ & T2 & _ & _ & T5 & _).
  set (tr := fst (Trex.reset (Runner.tRex r) w2)) in *.
  set (w3 := snd (Trex.reset (Runner.tRex r) w2)).
  clearbody tr h now.
  exists (Runner.invert true (Runner.set_tRex tr (Runner.set_horizon h r3))), w3.
  split; [reflexivity|].
  assert (F : forall x,
             Runner.playing (Runner.invert true (Runner.set_tRex tr (Runner.set_horizon h
               (Runner.set_distanceMeter x (Runner.set_time now r2)))))
             = Runner.playing r2 /\
             Runner.crashed (Runner.invert true (Runner.set_tRex tr (Runner.set_horizon h
               (Runner.set_distanceMeter x (Runner.set_time now r2)))))
             = Runner.crashed r2 /\
             Runner.distanceRan (Runner.invert true (Runner.set_tRex tr (Runner.set_horizon h
               (Runner.set_distanceMeter x (Runner.set_time now r2)))))
             = Runner.distanceRan r2 /\
             Runner.runningTime (Runner.invert true (Runner.set_tRex tr (Runner.set_horizon h
               (Runner.set_distanceMeter x (Runner.set_time now r2)))))
             = Runner.runningTime r2 /\
             Runner.playCount (Runner.invert true (Runner.set_tRex tr (Runner.set_horizon h
               (Runner.set_distanceMeter x (Runner.set_time now r2)))))
             = Runner.playCount r2 /\
             Runner.highestScore (Runner.invert true (Runner.set_tRex tr (Runner.set_horizon h
               (Runner.set_distanceMeter x (Runner.set_time now r2)))))
             = Runner.highestScore r2 /\
             Runner.horizon (Runner.invert true (Runner.set_tRex tr (Runner.set_horizon h
               (Runner.set_distanceMeter x (Runner.set_time now r2)))))
             = h /\
             Runner.inverted (Runner.invert true (Runner.set_tRex tr (Runner.set_horizon h
               (Runner.set_distanceMeter x (Runner.set_time now r2)))))
             = false /\
             Runner.invertTimer (Runner.invert true (Runner.set_tRex tr (Runner.set_horizon h
               (Runner.set_distanceMeter x (Runner.set_time now r2)))))
             = 0 /\
             Runner.distanceMeter (Runner.invert true (Runner.set_tRex tr (Runner.set_horizon h
               (Runner.set_distanceMeter x (Runner.set_time now r2)))))
             = x /\
             Runner.tRex (Runner.invert true (Runner.set_tRex tr (Runner.set_horizon h
               (Runner.set_distanceMeter x (Runner.set_time now r2)))))
             = tr /\
             Runner.currentSpeed (Runner.invert true (Runner.set_tRex tr (Runner.set_horizon h
               (Runner.set_distanceMeter x (Runner.set_time now r2)))))
             = Runner.currentSpeed r2).
  { intro x. destruct r2; repeat split; reflexivity. }
  unfold r3 in *.
  match goal with
  | |- context [Runner.set_distanceMeter ?x (Runner.set_time now r2)] =>
      destruct (F x) as (F1 & F2 & F3 & F4 & F5 & F6 & F7 & F8 & F9 & F10 & F11 & F12);
      set (dm := x) in *
  end.
  rewrite F1, F2, F3, F4, F5, F6, F7, F8, F9, F11, F12.
  split; [split; assumption|].
  split; [split; assumption|].
  split; [assumption|].
  split; [assumption|].
  split; [exact Ho|].
  split; [split; reflexivity|].
  split; [rewrite F10; reflexivity|].
  split; [split; assumption|].
  split; assumption.
Qed.

Lemma restart_resets_witness :
  JS.truthy (Runner.raqId idle_runner) = false /\
  exists r0 w0,
    Runner.restart 3 desktop idle_runner (world_of [] 0)
    = Runner.update 3 desktop r0 w0 /\
    Runner.distanceRan r0 = 0.
Proof.
  split; [reflexivity|].
  destruct (restart_resets (Runner.update 3 desktop) idle_runner (world_of [] 0))
    as (r0 & w0 & H1 & _ & (H2 & _) & _); [reflexivity | reflexivity |].
  exists r0, w0. split; [exact H1 | exact H2].
Defined.

(** ** The first seconds of a game *)

Lemma grace_set_distanceRan v r : grace (Runner.set_distanceRan v r) = grace r.
Proof. destruct r; reflexivity. Qed.
Lemma grace_set_highestScore v r : grace (Runner.set_highestScore v r) = grace r.
Proof. destruct r; reflexivity. Qed.
Lemma grace_set_time v r : grace (Runner.set_time v r) = grace r.
Proof. destruct r; reflexivity. Qed.
Lemma grace_set_runningTime v r : grace (Runner.set_runningTime v r) = grace r.
Proof. destruct r; reflexivity. Qed.
Lemma grace_set_currentSpeed v r : grace (Runner.set_currentSpeed v r) = grace r.
Proof. destruct r; reflexivity. Qed.
Lemma grace_set_activated v r : grace (Runner.set_activated v r) = grace r.
Proof. destruct r; reflexivity. Qed.
Lemma grace_set_playing v r : grace (Runner.set_playing v r) = grace r.
Proof. destruct r; reflexivity. Qed.
Lemma grace_set_paused v r : grace (Runner.set_paused v r) = grace r.
Proof. destruct r; reflexivity. Qed.
Lemma grace_set_inverted v r : grace (Runner.set_inverted v r) = grace r.
Proof. destruct r; reflexivity. Qed.
Lemma grace_set_invertTimer v r : grace (Runner.set_invertTimer v r) = grace r.
Proof. destruct r; reflexivity. Qed.
Lemma grace_set_invertTrigger v r : grace (Runner.set_invertTrigger v r) = grace r.
Proof. destruct r; reflexivity. Qed.
Lemma grace_set_playingIntro v r : grace (Runner.set_playingIntro v r) = grace r.
Proof. destruct r; reflexivity. Qed.
Lemma grace_set_playCount v r : grace (Runner.set_playCount v r) = grace r.
Proof. destruct r; reflexivity. Qed.
Lemma grace_set_updatePending v r : grace (Runner.set_updatePending v r) = grace r.
Proof. destruct r; reflexivity. Qed.
Lemma grace_set_raqId v r : grace (Runner.set_raqId v r) = grace r.
Proof. destruct r; reflexivity. Qed.
Lemma grace_set_tRex v r : grace (Runner.set_tRex v r) = grace r.
Proof. destruct r; reflexivity. Qed.
Lemma grace_set_distanceMeter v r : grace (Runner.set_distanceMeter v r) = grace r.
Proof. destruct r; reflexivity. Qed.

Create Rewrite HintDb grace.

#[local] Hint Rewrite grace_set_distanceRan grace_set_highestScore grace_set_time grace_set_runningTime grace_set_currentSpeed grace_set_activated grace_set_playing grace_set_paused grace_set_inverted grace_set_invertTimer grace_set_invertTrigger grace_set_playingIntro grace_set_playCount grace_set_updatePending grace_set_raqId grace_set_tRex grace_set_distanceMeter : grace.

Lemma grace_startGame r : grace (Runner.startGame r) = grace r.
Proof. unfold Runner.startGame. autorewrite with grace. reflexivity. Qed.

Lemma grace_scheduleNextUpdate r : grace (Runner.scheduleNextUpdate r) = grace r.
Proof.
  unfold Runner.scheduleNextUpdate. destruct (negb _);
    autorewrite with grace; reflexivity.
Qed.

Lemma grace_invert b r : grace (Runner.invert b r) = grace r.
Proof. unfold Runner.invert. destruct b; autorewrite with grace; reflexivity. Qed.

Lemma grace_updateInvert dt r : grace (Runner.updateInvert dt r) = grace r.
Proof.
  unfold Runner.updateInvert.
  destruct (JS.gtb _ _).
  - rewrite grace_invert. autorewrite with grace. reflexivity.
  - destruct (JS.truthy _); [autorewrite with grace; reflexivity|].
    destruct (JS.gtb _ _); [|reflexivity].
    cbv zeta. destruct (_ && _).
    + rewrite grace_invert. autorewrite with grace. reflexivity.
    + autorewrite with grace. reflexivity.
Qed.

Lemma grace_playIntro upd env r w r' :
  Runner.crashed r = false ->
  fst (Runner.playIntro_with upd env r w) = Some r' ->
  grace r' = grace r.
Proof.
  intros Hc. unfold Runner.playIntro_with. rewrite Hc. cbn [negb].
  rewrite andb_true_r.
  destruct (negb (Runner.activated r)).
  - destruct (_ || _); unfold ret; cbn [fst]; intro E; inversion E; subst.
    + rewrite grace_startGame. autorewrite with grace. reflexivity.
    + autorewrite with grace. reflexivity.
  - unfold ret; cbn [fst]; intro E; inversion E; subst. reflexivity.
Qed.

Lemma grace_animateAndSchedule dt r w :
  grace (fst (Runner.animateAndSchedule dt r w)) = grace r.
Proof.
  unfold Runner.animateAndSchedule. destruct (_ || _).
  - rewrite bind_run. unfold ret. cbn [fst].
    rewrite grace_scheduleNextUpdate. autorewrite with grace. reflexivity.
  - reflexivity.
Qed.

Lemma set_clouds_obstacles (l : list Cloud.t) (h : Horizon.t) :
  Horizon.obstacles (Horizon.set_clouds l h) = Horizon.obstacles h.
Proof. destruct h; reflexivity. Qed.

Lemma updateClouds_obstacles (deltaTime speed : Q) (h : Horizon.t) (w : World) :
  Horizon.obstacles (fst (Horizon.updateClouds deltaTime speed h w))
  = Horizon.obstacles h.
Proof.
  assert (A : forall h0 w0, Horizon.obstacles (fst (Horizon.addCloud h0 w0))
                            = Horizon.obstacles h0).
  { intros h0 w0. unfold Horizon.addCloud. rewrite bind_run, fst_ret.
    apply set_clouds_obstacles. }
  unfold Horizon.updateClouds. cbv zeta.
  destruct (rev (Horizon.clouds h)); [apply A|].
  rewrite bind_run, fst_ret, set_clouds_obstacles.
  destruct (rev (map _ _)).
  - rewrite fst_ret. apply set_clouds_obstacles.
  - destruct (_ && _).
    + rewrite bind_run. destruct (JS.gtb _ _).
      * rewrite A. apply set_clouds_obstacles.
      * rewrite fst_ret. apply set_clouds_obstacles.
    + rewrite fst_ret. apply set_clouds_obstacles.
Qed.

(** [Horizon.update] without [updateObstacles] leaves the obstacles. *)
Lemma Horizon_update_still fuel cfg IS_MOBILE deltaTime speed night h w h' :
  fst (Horizon.update fuel cfg IS_MOBILE deltaTime speed false night h w) = Some h' ->
  Horizon.obstacles h' = Horizon.obstacles h.
Proof.
  unfold Horizon.update. rewrite !bind_run, fst_ret.
  intro E. inversion E; subst; clear E.
  rewrite updateClouds_obstacles. destruct h; reflexivity.
Qed.

(** The block [if (this.playing) { ... }] before CLEAR_TIME. *)
Lemma grace_whilePlaying upd fuel env dt r w r' dt' :
  Runner.crashed r = false ->
  Runner.runningTime r + dt <= RunnerConfig.CLEAR_TIME (Runner.config r) ->
  fst (Runner.whilePlaying upd fuel env dt r w) = Some (r', dt') ->
  grace r' = grace r.
Proof.
  intros Hc Ht. unfold Runner.whilePlaying. rewrite bind_run.
  set (m1 := if Trex.jumping (Runner.tRex r) then _ else _).
  set (tr := fst (m1 w)). set (w1 := snd (m1 w)).
  cbv zeta.
  set (r1 := Runner.set_runningTime _ (Runner.set_tRex tr r)).
  assert (G1 : grace r1 = grace r) by (unfold r1; autorewrite with grace; reflexivity).
  assert (C1 : Runner.crashed r1 = false) by (unfold r1; destruct r; exact Hc).
  assert (H1 : JS.gtb (Runner.runningTime r1)
                 (RunnerConfig.CLEAR_TIME (Runner.config r1)) = false).
  { apply gtb_le. unfold r1. destruct r; exact Ht. }
  rewrite H1.
  rewrite bindO_run.
  set (m2 := if _ && _ then _ else _).
  destruct (fst (m2 w1)) as [r2|] eqn:E2; [|discriminate].
  assert (G2 : grace r2 = grace r).
  { rewrite <- G1. unfold m2 in E2. destruct (_ && _).
    - apply (grace_playIntro upd env r1 w1 r2 C1 E2).
    - unfold ret in E2. cbn [fst] in E2. inversion E2. reflexivity. }
  rewrite bindO_run.
  set (m3 := if Runner.playingIntro r2 then _ else _).
  destruct (fst (m3 (snd (m2 w1)))) as [h|] eqn:E3; [|discriminate].
  assert (Hh : Horizon.obstacles h = Horizon.obstacles (Runner.horizon r2)).
  { unfold m3 in E3. destruct (Runner.playingIntro r2);
      apply Horizon_update_still in E3; exact E3. }
  unfold Runner.collisionTest. cbv beta iota.
  rewrite bind_run, fst_ret.
  intro E. inversion E; subst; clear E.
  rewrite grace_updateInvert, grace_set_distanceMeter.
  unfold Runner.afterCollisionTest. cbv beta iota. rewrite ?fst_ret.
  rewrite grace_set_currentSpeed, grace_set_distanceRan.
  rewrite <- G2. unfold grace. rewrite <- Hh. destruct r2; reflexivity.
Qed.

Lemma grace_fields a b :
  grace a = grace b ->
  Runner.crashed a = Runner.crashed b /\
  Horizon.obstacles (Runner.horizon a) = Horizon.obstacles (Runner.horizon b) /\
  Runner.config a = Runner.config b.
Proof. unfold grace. intro H. inversion H. repeat split; reflexivity. Qed.

(** X30: the first seconds of a game are safe.  A tick of a runner that
    has not crashed, whose running time with the time elapsed since the
    last tick is still within CLEAR_TIME, cannot end the game and brings
    no obstacle: when it returns the runner is not crashed and the
    obstacles of the horizon are the ones from before. *)
Theorem update_before_CLEAR_TIME fuel env r w r' :
  Runner.crashed r = false ->
  Runner.runningTime r
  + (now_of w - (if JS.truthy (Runner.time r) then Runner.time r else now_of w))
  <= RunnerConfig.CLEAR_TIME (Runner.config r) ->
  fst (Runner.update fuel env r w) = Some r' ->
  Runner.crashed r' = false /\
  Horizon.obstacles (Runner.horizon r') = Horizon.obstacles (Runner.horizon r) /\
  Runner.config r' = Runner.config r.
Proof.
  intros Hc Ht. destruct fuel as [|fuel]; [discriminate|].
  cbn [Runner.update]. cbv zeta. rewrite bind_run.
  change (fst (getTimeStamp w)) with (now_of w).
  set (now := now_of w) in *. set (w1 := snd (getTimeStamp w)).
  set (r1 := Runner.set_time now (Runner.set_updatePending false r)).
  assert (G1 : grace r1 = grace r) by (unfold r1; autorewrite with grace; reflexivity).
  assert (C1 : Runner.crashed r1 = false) by (unfold r1; destruct r; exact Hc).
  assert (T1 : Runner.time (Runner.set_updatePending false r) = Runner.time r)
    by (destruct r; reflexivity).
  rewrite T1.
  assert (R1 : Runner.runningTime r1 = Runner.runningTime r /\
               Runner.config r1 = Runner.config r)
    by (unfold r1; destruct r; split; reflexivity).
  destruct R1 as [R1 R2].
  rewrite bindO_run.
  set (m := if Runner.playing r1 then _ else _).
  destruct (fst (m w1)) as [[r2 dt2]|] eqn:E; [|discriminate].
  rewrite bind_run. unfold ret. cbn [fst snd].
  intro E'. inversion E'; subst; clear E'.
  assert (G : grace (fst (Runner.animateAndSchedule dt2 r2 (snd (m w1)))) = grace r).
  { rewrite grace_animateAndSchedule.
    unfold m in E. destruct (Runner.playing r1).
    - rewrite <- G1. apply (grace_whilePlaying _ _ _ _ _ _ _ _ C1) in E;
        [exact E|]. rewrite R1, R2. exact Ht.
    - unfold ret in E. cbn [fst] in E. inversion E; subst. exact G1. }
  apply grace_fields in G. destruct G as (H1 & H2 & H3).
  split; [rewrite H1; exact Hc|]. split; [exact H2 | exact H3].
Qed.

Lemma update_before_CLEAR_TIME_witness :
  exists r',
    fst (Runner.update 3 desktop playing_runner (clock_at (2 * (1000 / 60))))
    = Some r' /\
    Runner.crashed playing_runner = false /\
    Runner.crashed r' = false.
Proof.
  assert (E : exists r',
             fst (Runner.update 3 desktop playing_runner
                    (clock_at (2 * (1000 / 60)))) = Some r')
    by (eexists; vm_compute; reflexivity).
  destruct E as [r' E]. exists r'.
  split; [exact E|].
  split; [reflexivity|].
  destruct (update_before_CLEAR_TIME 3 desktop playing_runner
              (clock_at (2 * (1000 / 60))) r') as (H & _);
    [reflexivity | discriminate | exact E |].
  exact H.
Defined.
